(** * TikZ Designer: shape model, geometry kernel and undo history

    A shallow embedding of [geometry_helpers.py], [shapes.py] and the
    editing part of [TIKZ_GUI_Editor_tool.py] (class [TikzDesigner]).

    Numbers.  Canvas coordinates, radii and angles are Python floats (or
    ints that flow into float arithmetic).  They are read here as real
    numbers, as the data model of the specification does ("a pair of
    real-valued coordinates"): [+], [-], [*], [/] are the field operations,
    [math.sin], [math.cos], [math.hypot], [math.atan2] are the mathematical
    functions, [%] is the floored remainder and [round] is rounding to the
    nearest integer with ties to even.  Rounding error of the machine
    arithmetic is outside the model.

    Objects.  Shapes are mutable Python objects that the document list, the
    selection and the history records all refer to.  The editor model keeps
    a store from references to shape values; lists hold references, and
    [is] is equality of references.  No shape class defines [__eq__], so
    [list.index] and [in] compare by identity as well.

    Rendering.  [draw], the canvas item ids ([_ids], [_helper_items]) and
    the Tk widgets are not part of the model. *)

From Stdlib Require Import Reals Lra Lia ZArith List String Ascii Bool.
From Stdlib Require Import DecimalString.
Import ListNotations.

Open Scope R_scope.

(** ** Python arithmetic on numbers read as reals *)

Module Py.

(** [math.floor]. *)
Definition floor (x : R) : Z := Int_part x.

(** [x % m] on floats: the remainder takes the sign of [m], that is,
    [x - floor (x / m) * m].  ([m] is the literal [360] at every call
    site; [m = 0] raises in Python.) *)
Definition mod_ (x m : R) : R := x - IZR (floor (x / m)) * m.

(** [round(x)] with one argument: the nearest integer, ties to even. *)
Definition round (x : R) : Z :=
  let f := floor x in
  let r := x - IZR f in
  if Rlt_dec r (1 / 2) then f
  else if Rlt_dec (1 / 2) r then (f + 1)%Z
  else if Z.even f then f else (f + 1)%Z.

(** [max(a, b)]: [b] when [b > a], else [a]. *)
Definition max (a b : R) : R := if Rlt_dec a b then b else a.

(** [abs]. *)
Definition abs (x : R) : R := Rabs x.

(** [math.radians], [math.degrees]. *)
Definition radians (deg : R) : R := deg * PI / 180.
Definition degrees (rad : R) : R := rad * 180 / PI.

(** [math.hypot]. *)
Definition hypot (x y : R) : R := sqrt (x * x + y * y).

(** [math.atan2 y x], the angle of the point [(x, y)] in (-PI, PI]. *)
Definition atan2 (y x : R) : R :=
  if Rlt_dec 0 x then atan (y / x)
  else if Rlt_dec x 0 then
    (if Rle_dec 0 y then atan (y / x) + PI else atan (y / x) - PI)
  else if Rlt_dec 0 y then PI / 2
  else if Rlt_dec y 0 then - (PI / 2)
  else 0.

(** [str(n)] for an int. *)
Definition str_int (n : Z) : string := NilZero.string_of_int (Z.to_int n).

(** [sep.join(l)]. *)
Fixpoint join (sep : string) (l : list string) : string :=
  match l with
  | [] => EmptyString
  | [s] => s
  | s :: rest => (s ++ sep ++ join sep rest)%string
  end.

(** [l.insert(i, x)] for [0 <= i <= len(l)]. *)
Definition list_insert {A : Type} (i : nat) (x : A) (l : list A) : list A :=
  firstn i l ++ x :: skipn i l.

(** [l.pop()]: the list without its last element, and that element;
    [None] where Python raises [IndexError]. *)
Definition list_pop {A : Type} (l : list A) : option (list A * A) :=
  match rev l with
  | [] => None
  | a :: r => Some (rev r, a)
  end.

End Py.

(** ** geometry_helpers.py *)

Definition Point : Type := (R * R)%type.

(** [None] is the [ZeroDivisionError] of [x / step] at a zero step. *)
Definition snap (x y : R) (enabled : bool) (step : R) : option (R * R) :=
  if negb enabled then Some (x, y)
  else if Req_dec_T step 0 then None
  else Some (IZR (Py.round (x / step)) * step,
             IZR (Py.round (y / step)) * step).

Definition rotate_point (px py cx cy deg : R) : R * R :=
  let th := Py.radians deg in
  let s := sin th in
  let c := cos th in
  let x := px - cx in
  let y := py - cy in
  let rx := x * c - y * s in
  let ry := x * s + y * c in
  (cx + rx, cy + ry).

Definition distance (p q : Point) : R :=
  Py.hypot (fst p - fst q) (snd p - snd q).

Definition angle_between (p0 p1 : Point) : R :=
  Py.degrees (Py.atan2 (snd p1 - snd p0) (fst p1 - fst p0)).

(** ** shapes.py *)

(** A handle as [handles()] lists it: [(x, y, kind)]. *)
Definition Handle : Type := (R * R * string)%type.

(** [fmt] of [geometry_helpers.py] is [f"{x:.2f}"], the two-decimal
    rendering of a float.  A real number has no such rendering inside the
    logic, so the export functions take it as an argument. *)
Definition Fmt : Type := R -> string.

Module LineSeg.

Record t : Type := mk {
  p0 : Point;
  p1 : Point;
  color : string;
  width : Z;
  fill_enabled : bool;
  fill_color : string;
  fill_opacity : R
}.

(** [__init__]: the [fill_enabled] argument is received and not used. *)
Definition init (p0 p1 : Point) (color : string) (width : Z)
    (fill_enabled : bool) (fill_color : string) (fill_opacity : R) : t :=
  {| p0 := p0; p1 := p1; color := color; width := width;
     fill_enabled := false;
     fill_color := fill_color; fill_opacity := fill_opacity |}.

Definition set_p0 (s : t) (p : Point) : t :=
  {| p0 := p; p1 := p1 s; color := color s; width := width s;
     fill_enabled := fill_enabled s;
     fill_color := fill_color s; fill_opacity := fill_opacity s |}.

Definition set_p1 (s : t) (p : Point) : t :=
  {| p0 := p0 s; p1 := p; color := color s; width := width s;
     fill_enabled := fill_enabled s;
     fill_color := fill_color s; fill_opacity := fill_opacity s |}.

Definition center (s : t) : Point :=
  ((fst (p0 s) + fst (p1 s)) / 2, (snd (p0 s) + snd (p1 s)) / 2).

Definition tikz_opts (s : t) : list string :=
  [("draw=" ++ color s)%string;
   ("line width=" ++ Py.str_int (width s) ++ "pt")%string].

Definition to_tikz (fmt : Fmt) (s : t) : string :=
  let '(x0, y0) := p0 s in
  let '(x1, y1) := p1 s in
  ("\draw[" ++ Py.join ", " (tikz_opts s) ++ "] (" ++ fmt x0 ++ "," ++ fmt y0
   ++ ") -- (" ++ fmt x1 ++ "," ++ fmt y1 ++ ");")%string.

Definition handles (s : t) : list Handle :=
  let '(cx, cy) := center s in
  let rx := cx in
  let ry := cy - 36 in
  [(fst (p0 s), snd (p0 s), "p0"%string);
   (fst (p1 s), snd (p1 s), "p1"%string);
   (cx, cy, "move"%string);
   (rx, ry, "rotate"%string)].

Definition move_by (s : t) (dx dy : R) : t :=
  let s := set_p0 s (fst (p0 s) + dx, snd (p0 s) + dy) in
  set_p1 s (fst (p1 s) + dx, snd (p1 s) + dy).

Definition rotate_by (s : t) (ddeg : R) : t :=
  let '(cx, cy) := center s in
  let s := set_p0 s (rotate_point (fst (p0 s)) (snd (p0 s)) cx cy ddeg) in
  set_p1 s (rotate_point (fst (p1 s)) (snd (p1 s)) cx cy ddeg).

Definition rotate_to (s : t) (deg : R) : t := s.

Definition on_handle_drag (s : t) (kind : string) (x y : R) : t :=
  if String.eqb kind "p0" then set_p0 s (x, y)
  else if String.eqb kind "p1" then set_p1 s (x, y)
  else if String.eqb kind "move" then s
  else if String.eqb kind "rotate" then s
  else s.

End LineSeg.

(** [Arrow] is a subclass of [LineSeg]: same fields and methods, its own
    [draw] and [to_tikz]. *)
Module Arrow.

Definition tikz_opts (s : LineSeg.t) : list string :=
  [("draw=" ++ LineSeg.color s)%string;
   ("line width=" ++ Py.str_int (LineSeg.width s) ++ "pt")%string;
   "->"%string].

Definition to_tikz (fmt : Fmt) (s : LineSeg.t) : string :=
  let '(x0, y0) := LineSeg.p0 s in
  let '(x1, y1) := LineSeg.p1 s in
  ("\draw[" ++ Py.join ", " (tikz_opts s) ++ "] (" ++ fmt x0 ++ "," ++ fmt y0
   ++ ") -- (" ++ fmt x1 ++ "," ++ fmt y1 ++ ");")%string.

End Arrow.

Module QuadBezier.

Record t : Type := mk {
  p0 : Point;
  p1 : Point;
  c : Point;
  color : string;
  width : Z;
  fill_enabled : bool;
  fill_color : string;
  fill_opacity : R
}.

(** [__init__]: the [fill_enabled] argument is received and not used. *)
Definition init (p0 p1 c : Point) (color : string) (width : Z)
    (fill_enabled : bool) (fill_color : string) (fill_opacity : R) : t :=
  {| p0 := p0; p1 := p1; c := c; color := color; width := width;
     fill_enabled := false;
     fill_color := fill_color; fill_opacity := fill_opacity |}.

Definition set_p0 (s : t) (p : Point) : t :=
  {| p0 := p; p1 := p1 s; c := c s; color := color s; width := width s;
     fill_enabled := fill_enabled s;
     fill_color := fill_color s; fill_opacity := fill_opacity s |}.

Definition set_p1 (s : t) (p : Point) : t :=
  {| p0 := p0 s; p1 := p; c := c s; color := color s; width := width s;
     fill_enabled := fill_enabled s;
     fill_color := fill_color s; fill_opacity := fill_opacity s |}.

Definition set_c (s : t) (p : Point) : t :=
  {| p0 := p0 s; p1 := p1 s; c := p; color := color s; width := width s;
     fill_enabled := fill_enabled s;
     fill_color := fill_color s; fill_opacity := fill_opacity s |}.

Definition tikz_opts (s : t) : list string :=
  [("draw=" ++ color s)%string;
   ("line width=" ++ Py.str_int (width s) ++ "pt")%string].

Definition to_tikz (fmt : Fmt) (s : t) : string :=
  let '(x0, y0) := p0 s in
  let '(x1, y1) := p1 s in
  let '(cx, cy) := c s in
  ("\draw[" ++ Py.join ", " (tikz_opts s) ++ "] "
   ++ "(" ++ fmt x0 ++ "," ++ fmt y0 ++ ") .. controls ("
   ++ fmt cx ++ "," ++ fmt cy ++ ") .. "
   ++ "(" ++ fmt x1 ++ "," ++ fmt y1 ++ ");")%string.

(** The centroid of the three points, as [handles] and [rotate_by]
    compute it. *)
Definition centroid (s : t) : Point :=
  ((fst (p0 s) + fst (p1 s) + fst (c s)) / 3,
   (snd (p0 s) + snd (p1 s) + snd (c s)) / 3).

Definition handles (s : t) : list Handle :=
  let '(cx, cy) := centroid s in
  let rx := cx in
  let ry := cy - 36 in
  [(fst (p0 s), snd (p0 s), "p0"%string);
   (fst (p1 s), snd (p1 s), "p1"%string);
   (fst (c s), snd (c s), "control"%string);
   (cx, cy, "move"%string);
   (rx, ry, "rotate"%string)].

Definition move_by (s : t) (dx dy : R) : t :=
  let s := set_p0 s (fst (p0 s) + dx, snd (p0 s) + dy) in
  let s := set_p1 s (fst (p1 s) + dx, snd (p1 s) + dy) in
  set_c s (fst (c s) + dx, snd (c s) + dy).

Definition rotate_by (s : t) (ddeg : R) : t :=
  let '(cx, cy) := centroid s in
  let s := set_p0 s (rotate_point (fst (p0 s)) (snd (p0 s)) cx cy ddeg) in
  let s := set_p1 s (rotate_point (fst (p1 s)) (snd (p1 s)) cx cy ddeg) in
  set_c s (rotate_point (fst (c s)) (snd (c s)) cx cy ddeg).

Definition rotate_to (s : t) (deg : R) : t := s.

(** [setattr(self, {"p0":"p0", "p1":"p1", "control":"c"}[kind], (x, y))]
    under [kind in ("p0", "p1", "control")]. *)
Definition on_handle_drag (s : t) (kind : string) (x y : R) : t :=
  if String.eqb kind "p0" then set_p0 s (x, y)
  else if String.eqb kind "p1" then set_p1 s (x, y)
  else if String.eqb kind "control" then set_c s (x, y)
  else s.

End QuadBezier.

Module RectShape.

Record t : Type := mk {
  p0 : Point;
  p1 : Point;
  color : string;
  width : Z;
  fill_enabled : bool;
  fill_color : string;
  fill_opacity : R;
  angle : R
}.

Definition init (p0 p1 : Point) (color : string) (width : Z)
    (fill_enabled : bool) (fill_color : string) (fill_opacity : R)
    (angle : R) : t :=
  {| p0 := p0; p1 := p1; color := color; width := width;
     fill_enabled := fill_enabled;
     fill_color := fill_color; fill_opacity := fill_opacity;
     angle := angle |}.

Definition set_p0 (s : t) (p : Point) : t :=
  {| p0 := p; p1 := p1 s; color := color s; width := width s;
     fill_enabled := fill_enabled s;
     fill_color := fill_color s; fill_opacity := fill_opacity s;
     angle := angle s |}.

Definition set_p1 (s : t) (p : Point) : t :=
  {| p0 := p0 s; p1 := p; color := color s; width := width s;
     fill_enabled := fill_enabled s;
     fill_color := fill_color s; fill_opacity := fill_opacity s;
     angle := angle s |}.

Definition set_angle (s : t) (a : R) : t :=
  {| p0 := p0 s; p1 := p1 s; color := color s; width := width s;
     fill_enabled := fill_enabled s;
     fill_color := fill_color s; fill_opacity := fill_opacity s;
     angle := a |}.

Definition center (s : t) : Point :=
  ((fst (p0 s) + fst (p1 s)) / 2, (snd (p0 s) + snd (p1 s)) / 2).

(** The option list of [to_tikz]: the fill options are appended when
    [fill_enabled] holds, the rotation when the angle is not negligible. *)
Definition tikz_opts (fmt : Fmt) (s : t) : list string :=
  let '(cx, cy) := center s in
  let opts :=
    [("draw=" ++ color s)%string;
     ("line width=" ++ Py.str_int (width s) ++ "pt")%string] in
  let opts :=
    if fill_enabled s then
      let opts := opts ++ [("fill=" ++ fill_color s)%string] in
      if Rlt_dec (fill_opacity s) 1
      then opts ++ [("fill opacity=" ++ fmt (fill_opacity s))%string]
      else opts
    else opts in
  if Rlt_dec (1 / 10 ^ 9) (Py.abs (angle s))
  then opts ++ [("rotate around=" ++ fmt (- angle s) ++ ":(" ++ fmt cx
                 ++ "," ++ fmt cy ++ ")")%string]
  else opts.

Definition to_tikz (fmt : Fmt) (s : t) : string :=
  let '(x0, y0) := p0 s in
  let '(x1, y1) := p1 s in
  ("\draw[" ++ Py.join ", " (tikz_opts fmt s) ++ "] "
   ++ "(" ++ fmt x0 ++ "," ++ fmt y0 ++ ") rectangle ("
   ++ fmt x1 ++ "," ++ fmt y1 ++ ");")%string.

Definition handles (s : t) : list Handle :=
  let '(cx, cy) := center s in
  let '(rx, ry) := rotate_point cx (cy - 40) cx cy (angle s) in
  [(cx, cy, "move"%string); (rx, ry, "rotate"%string)].

Definition move_by (s : t) (dx dy : R) : t :=
  let s := set_p0 s (fst (p0 s) + dx, snd (p0 s) + dy) in
  set_p1 s (fst (p1 s) + dx, snd (p1 s) + dy).

Definition rotate_by (s : t) (ddeg : R) : t :=
  set_angle s (Py.mod_ (angle s + ddeg) 360).

Definition rotate_to (s : t) (deg : R) : t :=
  set_angle s (Py.mod_ deg 360).

Definition on_handle_drag (s : t) (kind : string) (x y : R) : t := s.

End RectShape.

Module EllipseShape.

Record t : Type := mk {
  cx : R;
  cy : R;
  rx : R;
  ry : R;
  color : string;
  width : Z;
  fill_enabled : bool;
  fill_color : string;
  fill_opacity : R;
  angle : R
}.

(** [__init__] takes two bounding-box corners and stores center and
    radii. *)
Definition init (p0 p1 : Point) (color : string) (width : Z)
    (fill_enabled : bool) (fill_color : string) (fill_opacity : R)
    (angle : R) : t :=
  {| cx := (fst p0 + fst p1) / 2; cy := (snd p0 + snd p1) / 2;
     rx := Py.abs (fst p1 - fst p0) / 2; ry := Py.abs (snd p1 - snd p0) / 2;
     color := color; width := width;
     fill_enabled := fill_enabled;
     fill_color := fill_color; fill_opacity := fill_opacity;
     angle := angle |}.

Definition set_center (s : t) (x y : R) : t :=
  {| cx := x; cy := y; rx := rx s; ry := ry s;
     color := color s; width := width s;
     fill_enabled := fill_enabled s;
     fill_color := fill_color s; fill_opacity := fill_opacity s;
     angle := angle s |}.

Definition set_angle (s : t) (a : R) : t :=
  {| cx := cx s; cy := cy s; rx := rx s; ry := ry s;
     color := color s; width := width s;
     fill_enabled := fill_enabled s;
     fill_color := fill_color s; fill_opacity := fill_opacity s;
     angle := a |}.

Definition handles (s : t) : list Handle :=
  let cx := cx s in
  let cy := cy s in
  let '(rx, ry) := rotate_point cx (cy - 40) cx cy (angle s) in
  [(cx, cy, "move"%string); (rx, ry, "rotate"%string)].

Definition move_by (s : t) (dx dy : R) : t :=
  set_center s (cx s + dx) (cy s + dy).

Definition rotate_by (s : t) (ddeg : R) : t :=
  set_angle s (Py.mod_ (angle s + ddeg) 360).

Definition rotate_to (s : t) (deg : R) : t :=
  set_angle s (Py.mod_ deg 360).

Definition on_handle_drag (s : t) (kind : string) (x y : R) : t := s.

End EllipseShape.

Module CircleShape.

Record t : Type := mk {
  center : Point;
  radius : R;
  color : string;
  width : Z;
  fill_enabled : bool;
  fill_color : string;
  fill_opacity : R
}.

Definition init (center : Point) (radius : R) (color : string) (width : Z)
    (fill_enabled : bool) (fill_color : string) (fill_opacity : R) : t :=
  {| center := center; radius := radius; color := color; width := width;
     fill_enabled := fill_enabled;
     fill_color := fill_color; fill_opacity := fill_opacity |}.

Definition set_center (s : t) (p : Point) : t :=
  {| center := p; radius := radius s; color := color s; width := width s;
     fill_enabled := fill_enabled s;
     fill_color := fill_color s; fill_opacity := fill_opacity s |}.

Definition set_radius (s : t) (r : R) : t :=
  {| center := center s; radius := r; color := color s; width := width s;
     fill_enabled := fill_enabled s;
     fill_color := fill_color s; fill_opacity := fill_opacity s |}.

Definition handles (s : t) : list Handle :=
  let '(cx, cy) := center s in
  let edge := (cx + radius s, cy) in
  let rot := (cx, cy - 40) in
  [(cx, cy, "move"%string);
   (fst edge, snd edge, "radius"%string);
   (fst rot, snd rot, "rotate"%string)].

Definition move_by (s : t) (dx dy : R) : t :=
  set_center s (fst (center s) + dx, snd (center s) + dy).

Definition rotate_by (s : t) (ddeg : R) : t := s.

Definition rotate_to (s : t) (deg : R) : t := s.

Definition on_handle_drag (s : t) (kind : string) (x y : R) : t :=
  if String.eqb kind "radius"
  then set_radius s (Py.max 0 (distance (center s) (x, y)))
  else s.

End CircleShape.

(** [Dot] is a subclass of [CircleShape] with its own [__init__] and
    [handles]; the other methods are inherited. *)
Module Dot.

Definition init (center : Point) (radius : R) (color : string)
    : CircleShape.t :=
  CircleShape.init center radius color 1 true color 1.

Definition handles (s : CircleShape.t) : list Handle :=
  let '(cx, cy) := CircleShape.center s in
  [(cx, cy, "move"%string)].

End Dot.

(** [TextNode] sets no fill attribute and no angle of its own, and defines
    no [rotate_to]: those come from the base class [Shape]. *)
Module TextNode.

Record t : Type := mk {
  pos : Point;
  text : string;
  size : Z;
  color : string
}.

Definition init (pos : Point) (text : string) (size : Z) (color : string)
    : t :=
  {| pos := pos; text := text; size := size; color := color |}.

Definition set_pos (s : t) (p : Point) : t :=
  {| pos := p; text := text s; size := size s; color := color s |}.

Definition handles (s : t) : list Handle :=
  [(fst (pos s), snd (pos s), "move"%string)].

Definition move_by (s : t) (dx dy : R) : t :=
  set_pos s (fst (pos s) + dx, snd (pos s) + dy).

Definition rotate_by (s : t) (ddeg : R) : t := s.

(** Inherited [Shape.rotate_to], whose body is [...]. *)
Definition rotate_to (s : t) (deg : R) : t := s.

Definition on_handle_drag (s : t) (kind : string) (x y : R) : t :=
  if String.eqb kind "move" then set_pos s (x, y) else s.

End TextNode.

Module ArcShape.

Record t : Type := mk {
  center : Point;
  radius : R;
  start_angle : R;
  end_angle : R;
  color : string;
  width : Z;
  fill_enabled : bool;
  fill_color : string;
  fill_opacity : R
}.

Definition init (center : Point) (radius start_angle end_angle : R)
    (color : string) (width : Z)
    (fill_enabled : bool) (fill_color : string) (fill_opacity : R) : t :=
  {| center := center; radius := radius;
     start_angle := start_angle; end_angle := end_angle;
     color := color; width := width;
     fill_enabled := fill_enabled;
     fill_color := fill_color; fill_opacity := fill_opacity |}.

Definition set_center (s : t) (p : Point) : t :=
  {| center := p; radius := radius s;
     start_angle := start_angle s; end_angle := end_angle s;
     color := color s; width := width s;
     fill_enabled := fill_enabled s;
     fill_color := fill_color s; fill_opacity := fill_opacity s |}.

Definition set_start_angle (s : t) (a : R) : t :=
  {| center := center s; radius := radius s;
     start_angle := a; end_angle := end_angle s;
     color := color s; width := width s;
     fill_enabled := fill_enabled s;
     fill_color := fill_color s; fill_opacity := fill_opacity s |}.

Definition set_end_angle (s : t) (a : R) : t :=
  {| center := center s; radius := radius s;
     start_angle := start_angle s; end_angle := a;
     color := color s; width := width s;
     fill_enabled := fill_enabled s;
     fill_color := fill_color s; fill_opacity := fill_opacity s |}.

Definition handles (s : t) : list Handle :=
  let '(cx, cy) := center s in
  let start_rad := Py.radians (start_angle s) in
  let end_rad := Py.radians (end_angle s) in
  let sx := cx + radius s * cos start_rad in
  let sy := cy + radius s * sin start_rad in
  let ex := cx + radius s * cos end_rad in
  let ey := cy + radius s * sin end_rad in
  [(cx, cy, "move"%string); (sx, sy, "start"%string); (ex, ey, "end"%string)].

Definition move_by (s : t) (dx dy : R) : t :=
  set_center s (fst (center s) + dx, snd (center s) + dy).

Definition rotate_by (s : t) (ddeg : R) : t :=
  let s := set_start_angle s (Py.mod_ (start_angle s + ddeg) 360) in
  set_end_angle s (Py.mod_ (end_angle s + ddeg) 360).

Definition rotate_to (s : t) (deg : R) : t :=
  let delta := Py.mod_ (deg - start_angle s) 360 in
  let s := set_start_angle s (Py.mod_ deg 360) in
  set_end_angle s (Py.mod_ (end_angle s + delta) 360).

Definition on_handle_drag (s : t) (kind : string) (x y : R) : t :=
  let '(cx, cy) := center s in
  if String.eqb kind "move" then set_center s (x, y)
  else if String.eqb kind "start" then
    let angle := Py.mod_ (Py.degrees (Py.atan2 (y - cy) (x - cx))) 360 in
    set_start_angle s angle
  else if String.eqb kind "end" then
    let angle := Py.mod_ (Py.degrees (Py.atan2 (y - cy) (x - cx))) 360 in
    set_end_angle s angle
  else s.

End ArcShape.

(** The closed set of shape classes.  Method calls on a shape object
    dispatch on its class. *)
Inductive Shape : Type :=
| SLineSeg (s : LineSeg.t)
| SArrow (s : LineSeg.t)
| SQuadBezier (s : QuadBezier.t)
| SRectShape (s : RectShape.t)
| SEllipseShape (s : EllipseShape.t)
| SCircleShape (s : CircleShape.t)
| SDot (s : CircleShape.t)
| STextNode (s : TextNode.t)
| SArcShape (s : ArcShape.t).

Definition handles (sh : Shape) : list Handle :=
  match sh with
  | SLineSeg s | SArrow s => LineSeg.handles s
  | SQuadBezier s => QuadBezier.handles s
  | SRectShape s => RectShape.handles s
  | SEllipseShape s => EllipseShape.handles s
  | SCircleShape s => CircleShape.handles s
  | SDot s => Dot.handles s
  | STextNode s => TextNode.handles s
  | SArcShape s => ArcShape.handles s
  end.

Definition move_by (sh : Shape) (dx dy : R) : Shape :=
  match sh with
  | SLineSeg s => SLineSeg (LineSeg.move_by s dx dy)
  | SArrow s => SArrow (LineSeg.move_by s dx dy)
  | SQuadBezier s => SQuadBezier (QuadBezier.move_by s dx dy)
  | SRectShape s => SRectShape (RectShape.move_by s dx dy)
  | SEllipseShape s => SEllipseShape (EllipseShape.move_by s dx dy)
  | SCircleShape s => SCircleShape (CircleShape.move_by s dx dy)
  | SDot s => SDot (CircleShape.move_by s dx dy)
  | STextNode s => STextNode (TextNode.move_by s dx dy)
  | SArcShape s => SArcShape (ArcShape.move_by s dx dy)
  end.

Definition rotate_by (sh : Shape) (ddeg : R) : Shape :=
  match sh with
  | SLineSeg s => SLineSeg (LineSeg.rotate_by s ddeg)
  | SArrow s => SArrow (LineSeg.rotate_by s ddeg)
  | SQuadBezier s => SQuadBezier (QuadBezier.rotate_by s ddeg)
  | SRectShape s => SRectShape (RectShape.rotate_by s ddeg)
  | SEllipseShape s => SEllipseShape (EllipseShape.rotate_by s ddeg)
  | SCircleShape s => SCircleShape (CircleShape.rotate_by s ddeg)
  | SDot s => SDot (CircleShape.rotate_by s ddeg)
  | STextNode s => STextNode (TextNode.rotate_by s ddeg)
  | SArcShape s => SArcShape (ArcShape.rotate_by s ddeg)
  end.

Definition rotate_to (sh : Shape) (deg : R) : Shape :=
  match sh with
  | SLineSeg s => SLineSeg (LineSeg.rotate_to s deg)
  | SArrow s => SArrow (LineSeg.rotate_to s deg)
  | SQuadBezier s => SQuadBezier (QuadBezier.rotate_to s deg)
  | SRectShape s => SRectShape (RectShape.rotate_to s deg)
  | SEllipseShape s => SEllipseShape (EllipseShape.rotate_to s deg)
  | SCircleShape s => SCircleShape (CircleShape.rotate_to s deg)
  | SDot s => SDot (CircleShape.rotate_to s deg)
  | STextNode s => STextNode (TextNode.rotate_to s deg)
  | SArcShape s => SArcShape (ArcShape.rotate_to s deg)
  end.

Definition on_handle_drag (sh : Shape) (kind : string) (x y : R) : Shape :=
  match sh with
  | SLineSeg s => SLineSeg (LineSeg.on_handle_drag s kind x y)
  | SArrow s => SArrow (LineSeg.on_handle_drag s kind x y)
  | SQuadBezier s => SQuadBezier (QuadBezier.on_handle_drag s kind x y)
  | SRectShape s => SRectShape (RectShape.on_handle_drag s kind x y)
  | SEllipseShape s => SEllipseShape (EllipseShape.on_handle_drag s kind x y)
  | SCircleShape s => SCircleShape (CircleShape.on_handle_drag s kind x y)
  | SDot s => SDot (CircleShape.on_handle_drag s kind x y)
  | STextNode s => STextNode (TextNode.on_handle_drag s kind x y)
  | SArcShape s => SArcShape (ArcShape.on_handle_drag s kind x y)
  end.

(** [shape.angle]: the instance attribute of [RectShape] and
    [EllipseShape], the class attribute [Shape.angle = 0.0] otherwise. *)
Definition angle (sh : Shape) : R :=
  match sh with
  | SRectShape s => RectShape.angle s
  | SEllipseShape s => EllipseShape.angle s
  | _ => 0
  end.

(** [shape.fill_enabled]: the instance attribute, or the class attribute
    [Shape.fill_enabled = False] for [TextNode]. *)
Definition fill_enabled (sh : Shape) : bool :=
  match sh with
  | SLineSeg s | SArrow s => LineSeg.fill_enabled s
  | SQuadBezier s => QuadBezier.fill_enabled s
  | SRectShape s => RectShape.fill_enabled s
  | SEllipseShape s => EllipseShape.fill_enabled s
  | SCircleShape s | SDot s => CircleShape.fill_enabled s
  | STextNode _ => false
  | SArcShape s => ArcShape.fill_enabled s
  end.

(** [isinstance(shape, (RectShape, EllipseShape))]. *)
Definition is_rect_or_ellipse (sh : Shape) : bool :=
  match sh with
  | SRectShape _ | SEllipseShape _ => true
  | _ => false
  end.

(** The calls that act on a shape object once it is constructed: the four
    mutating methods of the shape contract.  ([draw] writes [_ids] only,
    and nothing outside the class assigns a shape attribute.) *)
Inductive Call : Type :=
| CallMoveBy (dx dy : R)
| CallRotateBy (ddeg : R)
| CallRotateTo (deg : R)
| CallOnHandleDrag (kind : string) (x y : R).

Definition call (sh : Shape) (c : Call) : Shape :=
  match c with
  | CallMoveBy dx dy => move_by sh dx dy
  | CallRotateBy ddeg => rotate_by sh ddeg
  | CallRotateTo deg => rotate_to sh deg
  | CallOnHandleDrag kind x y => on_handle_drag sh kind x y
  end.

(** A shape after a sequence of calls, first call first. *)
Definition calls (sh : Shape) (cs : list Call) : Shape :=
  fold_left call cs sh.

(** An entry of a [to_tikz] option list is a fill directive when it reads
    [fill=...] or [fill opacity=...]. *)
Definition is_fill_directive (opt : string) : bool :=
  String.prefix "fill" opt.

(** [s.startswith(p)]. *)
Fixpoint startswith (p s : string) : bool :=
  match p, s with
  | EmptyString, _ => true
  | String _ _, EmptyString => false
  | String a p', String b s' => Ascii.eqb a b && startswith p' s'
  end.

(** [needle in hay] on strings: some suffix of [hay] starts with
    [needle]. *)
Fixpoint contains (needle hay : string) : bool :=
  startswith needle hay ||
  match hay with
  | EmptyString => false
  | String _ rest => contains needle rest
  end.

(** [ch in s] for one character. *)
Fixpoint has_char (ch : ascii) (s : string) : bool :=
  match s with
  | EmptyString => false
  | String c rest => Ascii.eqb c ch || has_char ch rest
  end.

(** What [f"{x:.2f}"] prints for a finite float: an optional sign, digits
    and a decimal point. *)
Fixpoint numeric (s : string) : bool :=
  match s with
  | EmptyString => true
  | String c rest => has_char c "-.0123456789" && numeric rest
  end.

(** The stroke colours of the editor: the entries of the colour menu that
    [_build_ui] fills, the first of which is the initial value of
    [self.color]. *)
Definition stroke_colors : list string :=
  ["black"; "gray"; "red"; "blue"; "green"; "orange"; "purple"]%string.

(** ** TIKZ_GUI_Editor_tool.py: class TikzDesigner *)

Module TikzDesigner.

(** A reference to a shape object. *)
Definition Ref : Type := nat.

(** The store of shape objects: what each reference currently holds. *)
Definition Store : Type := Ref -> Shape.

Definition store_set (h : Store) (r : Ref) (v : Shape) : Store :=
  fun r' => if Nat.eqb r' r then v else h r'.

(** A history record: a dict with a ['type'] key.  The editor creates
    ['add'], ['remove'] and ['clear'] records; [Other] stands for a record
    of any other type, which [undo] leaves without effect. *)
Inductive Action : Type :=
| Add (shape : Ref) (index : Z)
| Remove (shape : Ref) (index : option Z)
| Clear (shapes : list Ref)
| Other (type : string).

Record t : Type := mk {
  tool : string;
  snap_enabled : bool;
  grid_step : Z;
  store : Store;
  shapes : list Ref;
  actions : list Action;
  selected : option (Ref * list Handle);
  _cursor_mode : option string;
  _active_handle : option string;
  _drag_start : option Point;
  _rotate_base_angle : option R;
  _rotate_center : option Point;
  status : string
}.

Definition set_status (st : t) (msg : string) : t :=
  {| tool := tool st; snap_enabled := snap_enabled st;
     grid_step := grid_step st; store := store st;
     shapes := shapes st; actions := actions st; selected := selected st;
     _cursor_mode := _cursor_mode st; _active_handle := _active_handle st;
     _drag_start := _drag_start st;
     _rotate_base_angle := _rotate_base_angle st;
     _rotate_center := _rotate_center st;
     status := msg |}.

(** Replace the document, the history and the selection. *)
Definition set_document (st : t) (shapes' : list Ref)
    (actions' : list Action) (selected' : option (Ref * list Handle)) : t :=
  {| tool := tool st; snap_enabled := snap_enabled st;
     grid_step := grid_step st; store := store st;
     shapes := shapes'; actions := actions'; selected := selected';
     _cursor_mode := _cursor_mode st; _active_handle := _active_handle st;
     _drag_start := _drag_start st;
     _rotate_base_angle := _rotate_base_angle st;
     _rotate_center := _rotate_center st;
     status := status st |}.

(** Replace the store and the two drag registers a drag frame writes. *)
Definition set_drag (st : t) (store' : Store) (drag_start' : option Point)
    (base' : option R) : t :=
  {| tool := tool st; snap_enabled := snap_enabled st;
     grid_step := grid_step st; store := store';
     shapes := shapes st; actions := actions st; selected := selected st;
     _cursor_mode := _cursor_mode st; _active_handle := _active_handle st;
     _drag_start := drag_start';
     _rotate_base_angle := base';
     _rotate_center := _rotate_center st;
     status := status st |}.

(** [[s for s in l if s is not shp]]. *)
Definition without (shp : Ref) (l : list Ref) : list Ref :=
  filter (fun s => negb (Nat.eqb s shp)) l.

(** [l.index(shp)]: the first position of [shp], [None] where Python
    raises [ValueError]. *)
Fixpoint index (shp : Ref) (l : list Ref) : option Z :=
  match l with
  | [] => None
  | s :: rest =>
      if Nat.eqb s shp then Some 0%Z
      else option_map Z.succ (index shp rest)
  end.

Definition _add_shape (st : t) (shape : Ref) : t :=
  let idx := Z.of_nat (List.length (shapes st)) in
  set_document st
    (shapes st ++ [shape])
    (actions st ++ [Add shape idx])
    (Some (shape, handles (store st shape))).

(** The fallback loop of the source searches by identity for what
    [index] has just failed to find by identity; it finds nothing. *)
Definition _on_delete_key (st : t) : t :=
  if negb (String.eqb (tool st) "cursor") then st
  else
    match selected st with
    | None => set_status st "No shape currently selected to delete."
    | Some (shape, _) =>
        let idx := index shape (shapes st) in
        let st := set_document st
                    (without shape (shapes st))
                    (actions st ++ [Remove shape idx])
                    None in
        set_status st "Deleted selected shape. Use Undo (Ctrl+Z) to restore."
    end.

Definition undo (st : t) : t :=
  match Py.list_pop (actions st) with
  | None => set_status st "Nothing to undo."
  | Some (rest, act) =>
      match act with
      | Add shp _ =>
          let st := set_document st (without shp (shapes st)) rest None in
          set_status st "Undo: removed the previously added shape."
      | Remove shp idx =>
          let shapes' :=
            match idx with
            | None => shapes st ++ [shp]
            | Some i =>
                if (i <? 0)%Z || (Z.of_nat (List.length (shapes st)) <? i)%Z
                then shapes st ++ [shp]
                else Py.list_insert (Z.to_nat i) shp (shapes st)
            end in
          let st := set_document st shapes' rest None in
          set_status st "Undo: restored the previously removed shape."
      | Clear prev =>
          let st := set_document st prev rest None in
          set_status st "Undo: restored shapes that were cleared."
      | Other _ =>
          let st := set_document st (shapes st) rest None in
          set_status st "Undo: unknown action type (no change)."
      end
  end.

(** [clear]; [confirmed] is the answer of the confirmation dialog. *)
Definition clear (st : t) (confirmed : bool) : t :=
  match shapes st with
  | [] => set_status st "Canvas already clear."
  | _ :: _ =>
      if confirmed then
        let st := set_document st [] (actions st ++ [Clear (shapes st)])
                    None in
        set_status st "Cleared all shapes. Use Undo (Ctrl+Z) to restore."
      else st
  end.

(** [snap(event.x, event.y, self.snap_enabled.get(), self.grid_step.get())]
    on the integer pointer position and the integer grid step. *)
Definition snap_event (st : t) (ex ey : Z) : option (R * R) :=
  snap (IZR ex) (IZR ey) (snap_enabled st) (IZR (grid_step st)).

(** One drag frame.  [None] is a raised exception (unpacking a register
    that holds [None]).  [hasattr(shape, "angle")] holds for every shape,
    through the class attribute. *)
Definition on_drag (st : t) (ex ey : Z) : option t :=
  if negb (String.eqb (tool st) "cursor") then Some st
  else
    match selected st with
    | None => Some st
    | Some (shape, _) =>
        match snap_event st ex ey with
        | None => None
        | Some (x, y) =>
            match _cursor_mode st, _active_handle st with
            | Some "move"%string, _ =>
                match _drag_start st with
                | None => None
                | Some (sx, sy) =>
                    let dx := x - sx in
                    let dy := y - sy in
                    Some (set_drag st
                            (store_set (store st) shape
                               (move_by (store st shape) dx dy))
                            (Some (x, y))
                            (_rotate_base_angle st))
                end
            | Some "handle"%string, Some (String a k) =>
                let kind := String a k in
                Some (set_drag st
                        (store_set (store st) shape
                           (on_handle_drag (store st shape) kind x y))
                        (_drag_start st)
                        (_rotate_base_angle st))
            | Some "rotate"%string, _ =>
                match _rotate_center st, _rotate_base_angle st with
                | Some (cx, cy), Some base =>
                    let ang := Py.degrees (Py.atan2 (y - cy) (x - cx)) in
                    let d := ang - base in
                    let obj := store st shape in
                    let obj :=
                      rotate_to obj
                        (if is_rect_or_ellipse obj
                         then Py.mod_ (angle obj + d) 360
                         else 0) in
                    let obj := rotate_by obj d in
                    Some (set_drag st
                            (store_set (store st) shape obj)
                            (_drag_start st)
                            (Some ang))
                | _, _ => None
                end
            | _, _ => Some st
            end
        end
    end.

(** The editor as [__init__] leaves it, over the objects the session will
    create. *)
Definition init (objects : Store) : t :=
  {| tool := "cursor"; snap_enabled := true; grid_step := 20;
     store := objects;
     shapes := []; actions := []; selected := None;
     _cursor_mode := None; _active_handle := None; _drag_start := None;
     _rotate_base_angle := None; _rotate_center := None;
     status := "Cursor: click a shape to select, drag to move. Use the round handle to rotate." |}.

End TikzDesigner.

(** * Properties *)

(** ** Floor, remainder and rounding *)

Section Arithmetic.

Lemma floor_bounds (x : R) : IZR (Py.floor x) <= x < IZR (Py.floor x) + 1.
Proof.
  unfold Py.floor. destruct (base_Int_part x) as [Hle Hgt]. lra.
Qed.

Lemma floor_unique (x : R) (z : Z) :
  IZR z <= x < IZR z + 1 -> Py.floor x = z.
Proof.
  intros [Hle Hlt]. unfold Py.floor. symmetry.
  apply Int_part_spec. lra.
Qed.

Lemma floor_add_int (x : R) (k : Z) :
  Py.floor (x + IZR k) = (Py.floor x + k)%Z.
Proof.
  apply floor_unique. rewrite plus_IZR.
  pose proof (floor_bounds x). lra.
Qed.

Lemma floor_int (k : Z) : Py.floor (IZR k) = k.
Proof. apply floor_unique. lra. Qed.

Lemma mod_range (x m : R) : 0 < m -> 0 <= Py.mod_ x m < m.
Proof.
  intros Hm. unfold Py.mod_.
  pose proof (floor_bounds (x / m)) as [Hle Hlt].
  assert (Hx : x = x / m * m) by (field; lra).
  split.
  - assert (IZR (Py.floor (x / m)) * m <= x / m * m) by nra. lra.
  - assert (x / m * m < (IZR (Py.floor (x / m)) + 1) * m) by nra. lra.
Qed.

Lemma mod_small (x m : R) : 0 <= x < m -> Py.mod_ x m = x.
Proof.
  intros [H0 Hm]. unfold Py.mod_.
  assert (Hf : Py.floor (x / m) = 0%Z).
  { apply floor_unique. simpl.
    assert (0 < / m) by (apply Rinv_0_lt_compat; lra).
    unfold Rdiv. split; [nra|].
    assert (x * / m < m * / m) by nra.
    rewrite Rinv_r in H1 by lra. lra. }
  rewrite Hf. simpl. lra.
Qed.

Lemma mod_add_multiple (x m : R) (k : Z) :
  0 < m -> Py.mod_ (x + IZR k * m) m = Py.mod_ x m.
Proof.
  intros Hm. unfold Py.mod_.
  replace ((x + IZR k * m) / m) with (x / m + IZR k) by (field; lra).
  rewrite floor_add_int, plus_IZR. lra.
Qed.

Lemma mod_as_multiple (x m : R) :
  Py.mod_ x m = x + IZR (- Py.floor (x / m)) * m.
Proof. unfold Py.mod_. rewrite opp_IZR. lra. Qed.

Lemma mod_mod_add (x y m : R) :
  0 < m -> Py.mod_ (Py.mod_ x m + y) m = Py.mod_ (x + y) m.
Proof.
  intros Hm. rewrite (mod_as_multiple x m).
  replace (x + IZR (- Py.floor (x / m)) * m + y)
    with (x + y + IZR (- Py.floor (x / m)) * m) by lra.
  apply mod_add_multiple; assumption.
Qed.

Lemma mod_idempotent (x m : R) :
  0 < m -> Py.mod_ (Py.mod_ x m) m = Py.mod_ x m.
Proof. intros Hm. apply mod_small, mod_range, Hm. Qed.

Lemma mod_self_difference (x m : R) :
  0 < m -> Py.mod_ (x - Py.mod_ x m) m = 0.
Proof.
  intros Hm. unfold Py.mod_ at 2.
  replace (x - (x - IZR (Py.floor (x / m)) * m))
    with (0 + IZR (Py.floor (x / m)) * m) by lra.
  rewrite mod_add_multiple by assumption.
  apply mod_small. lra.
Qed.

Lemma round_cases (x : R) :
  Py.round x = Py.floor x \/ Py.round x = (Py.floor x + 1)%Z.
Proof.
  unfold Py.round.
  destruct (Rlt_dec _ _); [now left|].
  destruct (Rlt_dec _ _); [now right|].
  destruct (Z.even _); [now left | now right].
Qed.

Lemma round_nearest (x : R) : Rabs (IZR (Py.round x) - x) <= 1 / 2.
Proof.
  pose proof (floor_bounds x) as [Hle Hlt].
  unfold Py.round.
  destruct (Rlt_dec (x - IZR (Py.floor x)) (1 / 2)) as [Hlo|Hlo].
  - apply Rabs_le. lra.
  - destruct (Rlt_dec (1 / 2) (x - IZR (Py.floor x))) as [Hhi|Hhi].
    + rewrite plus_IZR. apply Rabs_le. lra.
    + destruct (Z.even (Py.floor x)).
      * apply Rabs_le. lra.
      * rewrite plus_IZR. apply Rabs_le. lra.
Qed.

Lemma round_value (x : R) (z : Z) :
  Rabs (IZR z - x) < 1 / 2 -> Py.round x = z.
Proof.
  intros Hz. pose proof (round_nearest x) as Hr.
  apply Rabs_def2 in Hz. destruct Hz as [Hz1 Hz2].
  assert (Hr' : - (1 / 2) <= IZR (Py.round x) - x <= 1 / 2).
  { split.
    - pose proof (Rle_abs (- (IZR (Py.round x) - x))) as H.
      rewrite Rabs_Ropp in H. lra.
    - pose proof (Rle_abs (IZR (Py.round x) - x)). lra. }
  assert (Hlt : -1 < IZR (Py.round x) - IZR z < 1) by lra.
  rewrite <- minus_IZR in Hlt. destruct Hlt as [H1 H2].
  apply lt_IZR in H1, H2. lia.
Qed.

Lemma round_beats_integers (x : R) (k : Z) :
  Rabs (IZR (Py.round x) - x) <= Rabs (IZR k - x).
Proof.
  pose proof (round_nearest x) as Hr.
  destruct (Z.eq_dec k (Py.round x)) as [->|Hne]; [lra|].
  apply Rle_trans with (1 / 2); [assumption|].
  assert (Hr' : - (1 / 2) <= IZR (Py.round x) - x <= 1 / 2).
  { split.
    - pose proof (Rle_abs (- (IZR (Py.round x) - x))) as H.
      rewrite Rabs_Ropp in H. lra.
    - pose proof (Rle_abs (IZR (Py.round x) - x)). lra. }
  destruct (Z_lt_le_dec k (Py.round x)) as [Hlt|Hge].
  - assert (Hk : (k + 1 <= Py.round x)%Z) by lia.
    apply IZR_le in Hk. rewrite plus_IZR in Hk.
    rewrite <- Rabs_Ropp. apply Rle_trans with (- (IZR k - x)).
    + lra.
    + apply Rle_abs.
  - assert (Hk : (Py.round x + 1 <= k)%Z) by lia.
    apply IZR_le in Hk. rewrite plus_IZR in Hk.
    apply Rle_trans with (IZR k - x).
    + lra.
    + apply Rle_abs.
Qed.

End Arithmetic.

(** ** Grid snapping *)

Section Snap.

Lemma scaled_offset (n : Z) (x step : R) :
  0 < step ->
  Rabs (IZR n * step - x) = Rabs (IZR n - x / step) * step.
Proof.
  intros Hs.
  replace (IZR n * step - x) with ((IZR n - x / step) * step)
    by (field; lra).
  rewrite Rabs_mult, (Rabs_right step) by lra. reflexivity.
Qed.

Lemma snapped_is_nearest (x step : R) (k : Z) :
  0 < step ->
  Rabs (IZR (Py.round (x / step)) * step - x) <= Rabs (IZR k * step - x).
Proof.
  intros Hs. rewrite !scaled_offset by assumption.
  apply Rmult_le_compat_r; [lra | apply round_beats_integers].
Qed.

Lemma snap_enabled_value (x y step : R) :
  0 < step ->
  snap x y true step =
    Some (IZR (Py.round (x / step)) * step, IZR (Py.round (y / step)) * step).
Proof.
  intros Hs. unfold snap. simpl.
  destruct (Req_dec_T step 0) as [E|_]; [lra | reflexivity].
Qed.

(** C9.  With a positive step, [snap] returns the point unchanged when
    disabled; when enabled it returns, on each axis, an integer multiple of
    the step that no other multiple of the step is nearer to; and
    [snap(13, 27, True, 10)] is [(10, 30)]. *)
Theorem snap_rounds_to_grid (x y step : R) :
  0 < step ->
  snap x y false step = Some (x, y) /\
  (exists kx ky : Z,
      snap x y true step = Some (IZR kx * step, IZR ky * step) /\
      (forall k : Z,
          Rabs (IZR kx * step - x) <= Rabs (IZR k * step - x)) /\
      (forall k : Z,
          Rabs (IZR ky * step - y) <= Rabs (IZR k * step - y))) /\
  snap 13 27 true 10 = Some (10, 30).
Proof.
  intros Hs. split; [reflexivity|]. split.
  - exists (Py.round (x / step)), (Py.round (y / step)).
    split; [apply snap_enabled_value; assumption|].
    split; intros k; apply snapped_is_nearest; assumption.
  - rewrite snap_enabled_value by lra.
    assert (Hx : Py.round (13 / 10) = 1%Z).
    { apply round_value. apply Rabs_def1; lra. }
    assert (Hy : Py.round (27 / 10) = 3%Z).
    { apply round_value. apply Rabs_def1; lra. }
    rewrite Hx, Hy. f_equal. f_equal; lra.
Qed.

Lemma snap_rounds_to_grid_witness :
  snap 13 27 false 10 = Some (13, 27) /\
  snap 13 27 true 10 = Some (10, 30).
Proof.
  assert (H : 0 < 10) by lra.
  split.
  - exact (proj1 (snap_rounds_to_grid 13 27 10 H)).
  - exact (proj2 (proj2 (snap_rounds_to_grid 13 27 10 H))).
Defined.

(** Ties go to the even multiple: [round(0.5) = 0] and [round(1.5) = 2]. *)
Example snap_ties_to_even : snap 5 15 true 10 = Some (0, 20).
Proof.
  rewrite snap_enabled_value by lra.
  assert (Hf0 : Py.floor (5 / 10) = 0%Z) by (apply floor_unique; simpl; lra).
  assert (Hf1 : Py.floor (15 / 10) = 1%Z) by (apply floor_unique; simpl; lra).
  assert (Hx : Py.round (5 / 10) = 0%Z).
  { unfold Py.round. rewrite Hf0. simpl.
    destruct (Rlt_dec _ _); [lra|]. destruct (Rlt_dec _ _); [lra|].
    reflexivity. }
  assert (Hy : Py.round (15 / 10) = 2%Z).
  { unfold Py.round. rewrite Hf1. simpl.
    destruct (Rlt_dec _ _); [lra|]. destruct (Rlt_dec _ _); [lra|].
    reflexivity. }
  rewrite Hx, Hy. f_equal. f_equal; lra.
Qed.

(** A zero step with snapping on is the division error. *)
Example snap_zero_step : snap 13 27 true 0 = None.
Proof.
  unfold snap. simpl. destruct (Req_dec_T 0 0) as [_|N]; [reflexivity|].
  exfalso. apply N. reflexivity.
Qed.

End Snap.

(** ** Handle drags *)

Section HandleDrag.

Lemma max_zero_nonneg (d : R) : 0 <= Py.max 0 d.
Proof. unfold Py.max. destruct (Rlt_dec 0 d); lra. Qed.

Lemma distance_nonneg (p q : Point) : 0 <= distance p q.
Proof. unfold distance, Py.hypot. apply sqrt_pos. Qed.

Lemma distance_3_4 : distance (0, 0) (3, 4) = 5.
Proof.
  unfold distance, Py.hypot. simpl.
  replace ((0 - 3) * (0 - 3) + (0 - 4) * (0 - 4)) with (5 * 5) by lra.
  apply sqrt_square. lra.
Qed.

(** C8.  Dragging the "radius" handle of a circle to [(x, y)] stores
    [max(0, distance(center, (x, y)))], which is never negative and leaves
    the center where it was; a circle centered at the origin, whatever its
    radius was, gets radius 5 when the handle is dragged to [(3, 4)]. *)
Theorem circle_radius_drag (s : CircleShape.t) (x y : R) :
  let s' := CircleShape.on_handle_drag s "radius" x y in
  CircleShape.radius s' = Py.max 0 (distance (CircleShape.center s) (x, y)) /\
  CircleShape.radius s' = distance (CircleShape.center s) (x, y) /\
  0 <= CircleShape.radius s' /\
  CircleShape.center s' = CircleShape.center s /\
  CircleShape.radius
    (CircleShape.on_handle_drag
       (CircleShape.set_center s (0, 0)) "radius" 3 4) = 5.
Proof.
  simpl. repeat split.
  - unfold Py.max. pose proof (distance_nonneg (CircleShape.center s) (x, y)).
    destruct (Rlt_dec _ _); lra.
  - apply max_zero_nonneg.
  - rewrite distance_3_4. unfold Py.max.
    destruct (Rlt_dec 0 5); lra.
Qed.

(** The scenario of the specification, on a constructed circle. *)
Example circle_radius_drag_scenario :
  CircleShape.radius
    (CircleShape.on_handle_drag
       (CircleShape.init (0, 0) 5 "black" 2 false "gray" 1) "radius" 3 4) = 5.
Proof.
  simpl. rewrite distance_3_4. unfold Py.max.
  destruct (Rlt_dec 0 5); lra.
Qed.

(** C1, as stated, fails: a [TextNode] dragged by its "move" handle takes
    the pointer position. *)
Lemma move_drag_not_noop :
  ~ (forall (sh : Shape) (kind : string) (x y : R),
        kind = "move"%string \/ kind = "rotate"%string ->
        on_handle_drag sh kind x y = sh).
Proof.
  intros H.
  specialize (H (STextNode (TextNode.init (0, 0) "Hello" 12 "black"))
                "move"%string 1 1 (or_introl eq_refl)).
  simpl in H. injection H as H1. lra.
Qed.

(** The same for an [ArcShape]: "move" re-centers the arc. *)
Example arc_move_drag_recenters :
  ArcShape.center
    (ArcShape.on_handle_drag
       (ArcShape.init (0, 0) 10 0 90 "black" 2 false "gray" 1) "move" 1 1)
  = (1, 1).
Proof. reflexivity. Qed.

(** C1, amended.  [on_handle_drag] with kind "rotate" leaves every shape
    as it is.  With kind "move" it leaves every shape as it is except a
    [TextNode], whose position becomes [(x, y)], and an [ArcShape], whose
    center becomes [(x, y)]. *)
Theorem move_rotate_drag (sh : Shape) (x y : R) :
  on_handle_drag sh "rotate" x y = sh /\
  match sh with
  | STextNode s =>
      on_handle_drag sh "move" x y = STextNode (TextNode.set_pos s (x, y))
  | SArcShape s =>
      on_handle_drag sh "move" x y = SArcShape (ArcShape.set_center s (x, y))
  | _ => on_handle_drag sh "move" x y = sh
  end.
Proof.
  destruct sh as [s|s|s|s|s|s|s|s|s]; simpl; split; try reflexivity.
  - unfold ArcShape.on_handle_drag. destruct (ArcShape.center s). reflexivity.
  - unfold ArcShape.on_handle_drag. destruct (ArcShape.center s). reflexivity.
Qed.

End HandleDrag.

(** ** Absolute rotation *)

Section RotateTo.

Lemma arc_rotate_to_idempotent (s : ArcShape.t) (t : R) :
  ArcShape.rotate_to (ArcShape.rotate_to s t) t = ArcShape.rotate_to s t.
Proof.
  unfold ArcShape.rotate_to, ArcShape.set_end_angle, ArcShape.set_start_angle.
  simpl. f_equal.
  rewrite mod_self_difference by lra.
  rewrite Rplus_0_r. apply mod_idempotent. lra.
Qed.

(** C6.  [rotate_to] is idempotent on every shape: a second call with the
    same target changes nothing. *)
Theorem rotate_to_idempotent (sh : Shape) (t : R) :
  rotate_to (rotate_to sh t) t = rotate_to sh t.
Proof.
  destruct sh as [s|s|s|s|s|s|s|s|s]; simpl; try reflexivity.
  f_equal. apply arc_rotate_to_idempotent.
Qed.

(** What the one call stores, per class. *)
Lemma rotate_to_effect (sh : Shape) (t : R) :
  match sh, rotate_to sh t with
  | SRectShape s, SRectShape s' =>
      RectShape.angle s' = Py.mod_ t 360 /\
      RectShape.p0 s' = RectShape.p0 s /\ RectShape.p1 s' = RectShape.p1 s
  | SEllipseShape s, SEllipseShape s' =>
      EllipseShape.angle s' = Py.mod_ t 360
  | SArcShape s, SArcShape s' =>
      ArcShape.start_angle s' = Py.mod_ t 360 /\
      ArcShape.end_angle s' =
        Py.mod_ (ArcShape.end_angle s
                 + Py.mod_ (t - ArcShape.start_angle s) 360) 360
  | _, sh' => sh' = sh
  end.
Proof.
  destruct sh as [s|s|s|s|s|s|s|s|s]; simpl; auto.
Qed.

End RotateTo.

(** ** Placement of the rotate handle *)

Section RotateHandle.

(** The point 40 units above [(cx, cy)], turned about [(cx, cy)]. *)
Lemma rotated_offset (cx cy a : R) :
  rotate_point cx (cy - 40) cx cy a =
    (cx + 40 * sin (Py.radians a), cy - 40 * cos (Py.radians a)).
Proof. unfold rotate_point. f_equal; ring. Qed.

Lemma rotated_offset_distance (cx cy a : R) :
  distance (rotate_point cx (cy - 40) cx cy a) (cx, cy) = 40.
Proof.
  rewrite rotated_offset. unfold distance, Py.hypot. simpl.
  set (s := sin (Py.radians a)). set (c := cos (Py.radians a)).
  assert (H : s * s + c * c = 1).
  { pose proof (sin2_cos2 (Py.radians a)) as H. unfold Rsqr in H. exact H. }
  replace ((cx + 40 * s - cx) * (cx + 40 * s - cx)
           + (cy - 40 * c - cy) * (cy - 40 * c - cy))
    with (40 * 40) by nra.
  apply sqrt_square. lra.
Qed.

Lemma unrotated_offset (cx cy : R) :
  rotate_point cx (cy - 40) cx cy 0 = (cx, cy - 40).
Proof.
  rewrite rotated_offset. unfold Py.radians.
  replace (0 * PI / 180) with 0 by lra.
  rewrite sin_0, cos_0. f_equal; lra.
Qed.

(** C7, as stated, fails: the rotate handle of a [LineSeg] is not 40 units
    above its midpoint. *)
Lemma line_rotate_handle_not_at_40 :
  let s := LineSeg.init (0, 0) (0, 0) "black" 2 false "gray" 1 in
  ~ In (fst (LineSeg.center s), snd (LineSeg.center s) - 40, "rotate"%string)
       (handles (SLineSeg s)).
Proof.
  simpl. intros [H|[H|[H|[H|[]]]]]; try discriminate H.
  injection H as H1. lra.
Qed.

Ltac handle_cases H :=
  simpl in H;
  repeat match type of H with
         | _ \/ _ => destruct H as [H|H]
         | False => destruct H
         end;
  try discriminate H.

(** C7, amended.  A "rotate" handle is listed by [LineSeg], [Arrow],
    [QuadBezier], [RectShape], [EllipseShape] and [CircleShape], and by no
    other class.  [LineSeg], [Arrow] and [QuadBezier] place it 36 units
    above the centroid, unrotated; [CircleShape] places it 40 units above
    the center, unrotated; [RectShape] and [EllipseShape] place it at the
    point 40 units above the centroid turned about the centroid by the
    stored angle, which is at distance 40 from the centroid. *)
Theorem rotate_handle_placement (sh : Shape) (hx hy : R) :
  (In (hx, hy, "rotate"%string) (handles sh) <->
   match sh with
   | SLineSeg s | SArrow s =>
       (hx, hy) = (fst (LineSeg.center s), snd (LineSeg.center s) - 36)
   | SQuadBezier s =>
       (hx, hy) =
         (fst (QuadBezier.centroid s), snd (QuadBezier.centroid s) - 36)
   | SRectShape s =>
       (hx, hy) =
         rotate_point (fst (RectShape.center s))
           (snd (RectShape.center s) - 40)
           (fst (RectShape.center s)) (snd (RectShape.center s))
           (RectShape.angle s)
   | SEllipseShape s =>
       (hx, hy) =
         rotate_point (EllipseShape.cx s) (EllipseShape.cy s - 40)
           (EllipseShape.cx s) (EllipseShape.cy s) (EllipseShape.angle s)
   | SCircleShape s =>
       (hx, hy) =
         (fst (CircleShape.center s), snd (CircleShape.center s) - 40)
   | SDot _ | STextNode _ | SArcShape _ => False
   end) /\
  (In (hx, hy, "rotate"%string) (handles sh) ->
   match sh with
   | SRectShape s => distance (hx, hy) (RectShape.center s) = 40
   | SEllipseShape s =>
       distance (hx, hy) (EllipseShape.cx s, EllipseShape.cy s) = 40
   | _ => True
   end).
Proof.
  destruct sh as [s|s|s|s|s|s|s|s|s]; (split; [split; intros H|intros H]);
    try exact I.
  - handle_cases H. injection H as <- <-. reflexivity.
  - injection H as -> ->. simpl. auto.
  - handle_cases H. injection H as <- <-. reflexivity.
  - injection H as -> ->. simpl. auto.
  - handle_cases H. injection H as <- <-. reflexivity.
  - injection H as -> ->. simpl. auto 6.
  - unfold handles, RectShape.handles in H.
    destruct (RectShape.center s) as [cx cy]. simpl.
    destruct (rotate_point cx (cy - 40) cx cy (RectShape.angle s))
      as [rx ry].
    handle_cases H. injection H as <- <-. reflexivity.
  - unfold handles, RectShape.handles.
    destruct (RectShape.center s) as [cx cy]. simpl in H.
    rewrite <- H. simpl. auto.
  - unfold handles, RectShape.handles in H.
    destruct (RectShape.center s) as [cx cy] eqn:Ec.
    destruct (rotate_point cx (cy - 40) cx cy (RectShape.angle s))
      as [rx ry] eqn:Er.
    handle_cases H. injection H as <- <-.
    rewrite <- Er. apply rotated_offset_distance.
  - unfold handles, EllipseShape.handles in H.
    destruct (rotate_point _ _ _ _ _) as [rx ry].
    handle_cases H. injection H as <- <-. reflexivity.
  - unfold handles, EllipseShape.handles. rewrite <- H. simpl. auto.
  - unfold handles, EllipseShape.handles in H.
    destruct (rotate_point _ _ _ _ _) as [rx ry] eqn:Er.
    handle_cases H. injection H as <- <-.
    rewrite <- Er. apply rotated_offset_distance.
  - unfold handles, CircleShape.handles in H.
    destruct (CircleShape.center s) as [cx cy].
    handle_cases H. injection H as <- <-. reflexivity.
  - unfold handles, CircleShape.handles.
    destruct (CircleShape.center s) as [cx cy]. simpl in H.
    injection H as -> ->. simpl. auto.
  - unfold handles, Dot.handles in H.
    destruct (CircleShape.center s) as [cx cy]. handle_cases H.
  - destruct H.
  - handle_cases H.
  - destruct H.
  - unfold handles, ArcShape.handles in H.
    destruct (ArcShape.center s) as [cx cy]. handle_cases H.
  - destruct H.
Qed.

Lemma rotate_handle_placement_witness :
  distance (0, -40) (0, 0) = 40.
Proof.
  pose (s := RectShape.init (0, 0) (0, 0) "black" 2 false "gray" 1 0).
  assert (Hc : RectShape.center s = (0, 0)).
  { unfold RectShape.center, s. simpl. f_equal; lra. }
  assert (Hin : In (0, -40, "rotate"%string) (handles (SRectShape s))).
  { apply (proj2 (proj1 (rotate_handle_placement (SRectShape s) 0 (-40)))).
    cbv beta iota. rewrite Hc. cbn [fst snd].
    change (RectShape.angle s) with 0.
    rewrite unrotated_offset. f_equal; lra. }
  pose proof (proj2 (rotate_handle_placement (SRectShape s) 0 (-40)) Hin) as H.
  cbv beta iota in H. rewrite Hc in H. exact H.
Defined.

End RotateHandle.

(** ** Lines and curves are never filled *)

Section NeverFilled.

(** A line, arrow or curve object whose fill flag is off. *)
Definition unfilled_path (sh : Shape) : Prop :=
  match sh with
  | SLineSeg s | SArrow s => LineSeg.fill_enabled s = false
  | SQuadBezier s => QuadBezier.fill_enabled s = false
  | _ => False
  end.

Lemma line_on_handle_drag_fill (s : LineSeg.t) (kind : string) (x y : R) :
  LineSeg.fill_enabled (LineSeg.on_handle_drag s kind x y)
  = LineSeg.fill_enabled s.
Proof.
  unfold LineSeg.on_handle_drag.
  repeat match goal with |- context [if ?b then _ else _] => destruct b end;
    reflexivity.
Qed.

Lemma quad_on_handle_drag_fill (s : QuadBezier.t) (kind : string) (x y : R) :
  QuadBezier.fill_enabled (QuadBezier.on_handle_drag s kind x y)
  = QuadBezier.fill_enabled s.
Proof.
  unfold QuadBezier.on_handle_drag.
  repeat match goal with |- context [if ?b then _ else _] => destruct b end;
    reflexivity.
Qed.

Lemma line_rotate_by_fill (s : LineSeg.t) (d : R) :
  LineSeg.fill_enabled (LineSeg.rotate_by s d) = LineSeg.fill_enabled s.
Proof.
  unfold LineSeg.rotate_by. destruct (LineSeg.center s). reflexivity.
Qed.

Lemma quad_rotate_by_fill (s : QuadBezier.t) (d : R) :
  QuadBezier.fill_enabled (QuadBezier.rotate_by s d)
  = QuadBezier.fill_enabled s.
Proof.
  unfold QuadBezier.rotate_by. destruct (QuadBezier.centroid s). reflexivity.
Qed.

Lemma call_keeps_unfilled (sh : Shape) (c : Call) :
  unfilled_path sh -> unfilled_path (call sh c).
Proof.
  destruct sh as [s|s|s|s|s|s|s|s|s]; simpl; intros H; try contradiction;
    destruct c; simpl;
    rewrite ?line_on_handle_drag_fill, ?quad_on_handle_drag_fill,
      ?line_rotate_by_fill, ?quad_rotate_by_fill;
    exact H.
Qed.

Lemma calls_keep_unfilled (cs : list Call) (sh : Shape) :
  unfilled_path sh -> unfilled_path (calls sh cs).
Proof.
  unfold calls. revert sh.
  induction cs as [|c cs IH]; intros sh H; simpl.
  - exact H.
  - apply IH, call_keeps_unfilled, H.
Qed.

Lemma unfilled_path_flag (sh : Shape) :
  unfilled_path sh -> fill_enabled sh = false.
Proof.
  destruct sh as [s|s|s|s|s|s|s|s|s]; simpl; intros H;
    try contradiction; exact H.
Qed.

Lemma string_append_assoc (a b c : string) :
  ((a ++ b) ++ c = a ++ (b ++ c))%string.
Proof.
  induction a as [|ch a IH]; simpl; [reflexivity | now rewrite IH].
Qed.

(** The option block is all of the markup that precedes the path: the
    exported line of a [LineSeg] is the two-entry block and the path. *)
Lemma line_to_tikz_shape (fmt : Fmt) (s : LineSeg.t) :
  LineSeg.to_tikz fmt s =
    ("\draw[draw=" ++ LineSeg.color s ++ ", line width="
     ++ Py.str_int (LineSeg.width s) ++ "pt] ("
     ++ fmt (fst (LineSeg.p0 s)) ++ "," ++ fmt (snd (LineSeg.p0 s))
     ++ ") -- ("
     ++ fmt (fst (LineSeg.p1 s)) ++ "," ++ fmt (snd (LineSeg.p1 s))
     ++ ");")%string.
Proof.
  unfold LineSeg.to_tikz, LineSeg.tikz_opts.
  destruct (LineSeg.p0 s) as [x0 y0], (LineSeg.p1 s) as [x1 y1].
  cbn [Py.join fst snd].
  rewrite !string_append_assoc. reflexivity.
Qed.

Lemma arrow_to_tikz_shape (fmt : Fmt) (s : LineSeg.t) :
  Arrow.to_tikz fmt s =
    ("\draw[draw=" ++ LineSeg.color s ++ ", line width="
     ++ Py.str_int (LineSeg.width s) ++ "pt, ->] ("
     ++ fmt (fst (LineSeg.p0 s)) ++ "," ++ fmt (snd (LineSeg.p0 s))
     ++ ") -- ("
     ++ fmt (fst (LineSeg.p1 s)) ++ "," ++ fmt (snd (LineSeg.p1 s))
     ++ ");")%string.
Proof.
  unfold Arrow.to_tikz, Arrow.tikz_opts.
  destruct (LineSeg.p0 s) as [x0 y0], (LineSeg.p1 s) as [x1 y1].
  cbn [Py.join fst snd].
  rewrite !string_append_assoc. reflexivity.
Qed.

Lemma quad_to_tikz_shape (fmt : Fmt) (s : QuadBezier.t) :
  QuadBezier.to_tikz fmt s =
    ("\draw[draw=" ++ QuadBezier.color s ++ ", line width="
     ++ Py.str_int (QuadBezier.width s) ++ "pt] ("
     ++ fmt (fst (QuadBezier.p0 s)) ++ "," ++ fmt (snd (QuadBezier.p0 s))
     ++ ") .. controls ("
     ++ fmt (fst (QuadBezier.c s)) ++ "," ++ fmt (snd (QuadBezier.c s))
     ++ ") .. ("
     ++ fmt (fst (QuadBezier.p1 s)) ++ "," ++ fmt (snd (QuadBezier.p1 s))
     ++ ");")%string.
Proof.
  unfold QuadBezier.to_tikz, QuadBezier.tikz_opts.
  destruct (QuadBezier.p0 s) as [x0 y0], (QuadBezier.p1 s) as [x1 y1],
    (QuadBezier.c s) as [cx cy].
  cbn [Py.join fst snd].
  rewrite !string_append_assoc. reflexivity.
Qed.

(** *** Where the word "fill" can occur in a line of markup *)

Lemma startswith_fill_head (c : ascii) (s : string) :
  startswith "fill" (String c s) = true -> c = "f"%char.
Proof.
  cbn [startswith].
  destruct (Ascii.eqb_spec "f" c) as [E|_]; intros H;
    [now symmetry | discriminate H].
Qed.

Lemma has_char_app (ch : ascii) (a b : string) :
  has_char ch (a ++ b) = has_char ch a || has_char ch b.
Proof.
  induction a as [|c a IH]; simpl; [reflexivity|].
  now rewrite IH, orb_assoc.
Qed.

Lemma no_f_no_fill (s : string) :
  has_char "f" s = false -> contains "fill" s = false.
Proof.
  induction s as [|c s IH]; [reflexivity|].
  cbn [has_char contains]. intros H. apply orb_false_iff in H.
  destruct H as [Hc Hs]. rewrite (IH Hs), orb_false_r.
  destruct (startswith "fill" (String c s)) eqn:E; [|reflexivity].
  apply startswith_fill_head in E. subst c. discriminate Hc.
Qed.

(** Text with no letter f in front of [s] adds no occurrence. *)
Lemma contains_fill_after (a s : string) :
  has_char "f" a = false ->
  contains "fill" (a ++ s) = contains "fill" s.
Proof.
  induction a as [|c a IH]; [reflexivity|].
  cbn [has_char]. intros H. apply orb_false_iff in H.
  destruct H as [Hc Ha].
  change ((String c a ++ s)%string) with (String c (a ++ s)).
  cbn [contains]. rewrite (IH Ha).
  destruct (startswith "fill" (String c (a ++ s))) eqn:E; [|reflexivity].
  apply startswith_fill_head in E. subst c. discriminate Hc.
Qed.

(** An occurrence cannot run from [s] into text that starts with a
    comma. *)
Lemma startswith_fill_before_comma (s rest : string) :
  startswith "fill" (s ++ String "," rest) = startswith "fill" s.
Proof.
  destruct s as [|c1 [|c2 [|c3 [|c4 s]]]];
    cbn [startswith String.append];
    repeat match goal with
           | |- context [Ascii.eqb ?a ?b] =>
               destruct (Ascii.eqb_spec a b); try discriminate;
               cbn [andb]
           end;
    reflexivity.
Qed.

(** Text with no letter f that starts with a comma, behind [s], adds no
    occurrence. *)
Lemma contains_fill_before (s rest : string) :
  has_char "f" rest = false ->
  contains "fill" (s ++ String "," rest) = contains "fill" s.
Proof.
  intros H. induction s as [|c s IH].
  - change (("" ++ String "," rest)%string) with (String "," rest).
    apply no_f_no_fill. cbn [has_char]. rewrite H. reflexivity.
  - change ((String c s ++ String "," rest)%string)
      with (String c (s ++ String "," rest)).
    cbn [contains]. rewrite IH. f_equal.
    apply (startswith_fill_before_comma (String c s) rest).
Qed.

Lemma startswith_longer (p q s : string) :
  startswith (p ++ q) s = true -> startswith p s = true.
Proof.
  revert s. induction p as [|a p IH]; intros s; [now destruct s|].
  destruct s as [|b s]; cbn [startswith String.append]; [discriminate|].
  intros H. apply andb_true_iff in H. destruct H as [Hab H].
  rewrite Hab. apply IH, H.
Qed.

(** A string that does not contain [p] contains no string that starts
    with [p]. *)
Lemma contains_longer (p q s : string) :
  contains p s = false -> contains (p ++ q) s = false.
Proof.
  induction s as [|c s IH]; cbn [contains]; intros H;
    apply orb_false_iff in H; destruct H as [Hp Hs].
  - rewrite orb_false_r.
    destruct (startswith (p ++ q) "") eqn:E; [|reflexivity].
    apply startswith_longer in E. congruence.
  - rewrite (IH Hs), orb_false_r.
    destruct (startswith (p ++ q) (String c s)) eqn:E; [|reflexivity].
    apply startswith_longer in E. congruence.
Qed.

Lemma numeric_no_f (s : string) :
  numeric s = true -> has_char "f" s = false.
Proof.
  induction s as [|c s IH]; [reflexivity|].
  cbn [numeric has_char]. intros H. apply andb_true_iff in H.
  destruct H as [Hc Hs]. rewrite (IH Hs), orb_false_r.
  destruct (Ascii.eqb_spec c "f") as [E|_]; [|reflexivity].
  subst c. discriminate Hc.
Qed.

Lemma uint_no_f (d : Decimal.uint) :
  has_char "f" (NilEmpty.string_of_uint d) = false.
Proof. induction d; simpl; assumption || reflexivity. Qed.

Lemma str_int_no_f (n : Z) : has_char "f" (Py.str_int n) = false.
Proof.
  unfold Py.str_int, NilZero.string_of_int, NilZero.string_of_uint.
  destruct (Z.to_int n) as [d|d]; destruct d; cbn [has_char Ascii.eqb];
    try reflexivity;
    match goal with
    | |- context [NilEmpty.string_of_uint ?u] =>
        pose proof (uint_no_f u) as H; simpl in H; simpl; exact H
    end.
Qed.

Section Markup.

Variable fmt : Fmt.
Hypothesis fmt_numeric : forall x : R, numeric (fmt x) = true.

Lemma fmt_no_f (x : R) : has_char "f" (fmt x) = false.
Proof. apply numeric_no_f, fmt_numeric. Qed.

Ltac no_f :=
  repeat (rewrite has_char_app);
  rewrite ?fmt_no_f, ?str_int_no_f; reflexivity.

(** The colour text is copied into the markup as it is, and nothing else
    in the markup of a [LineSeg], an [Arrow] or a [QuadBezier] spells
    "fill": the markup contains the word exactly when the colour text
    does. *)
Lemma path_markup_fill_word (s : LineSeg.t) (q : QuadBezier.t) :
  contains "fill" (LineSeg.to_tikz fmt s)
    = contains "fill" (LineSeg.color s) /\
  contains "fill" (Arrow.to_tikz fmt s)
    = contains "fill" (LineSeg.color s) /\
  contains "fill" (QuadBezier.to_tikz fmt q)
    = contains "fill" (QuadBezier.color q).
Proof.
  rewrite line_to_tikz_shape, arrow_to_tikz_shape, quad_to_tikz_shape.
  repeat split;
    (rewrite contains_fill_after by reflexivity;
     match goal with
     | |- context [(?c ++ ", line width=" ++ ?r)%string] =>
         change ((c ++ ", line width=" ++ r)%string)
           with ((c ++ String "," (" line width=" ++ r))%string)
     end;
     apply contains_fill_before; no_f).
Qed.

End Markup.

(** C10.  The constructors of [LineSeg] (so of [Arrow]) and [QuadBezier]
    store [fill_enabled = False] whatever argument they are given, and no
    sequence of method calls on such an object turns the flag on.  The
    markup that [to_tikz] exports for any such object, whose colour text
    does not itself spell "fill", contains neither a [fill=] nor a
    [fill opacity=] directive, the numbers being printed as [:.2f] prints
    them; every stroke colour of the editor is such a colour. *)
Theorem line_and_quad_never_filled
    (p0 p1 c : Point) (color : string) (width : Z)
    (fill_arg : bool) (fill_color : string) (fill_opacity : R)
    (cs : list Call) (fmt : Fmt) :
  let line := LineSeg.init p0 p1 color width fill_arg fill_color
                fill_opacity in
  let quad := QuadBezier.init p0 p1 c color width fill_arg fill_color
                fill_opacity in
  LineSeg.fill_enabled line = false /\
  QuadBezier.fill_enabled quad = false /\
  fill_enabled (calls (SLineSeg line) cs) = false /\
  fill_enabled (calls (SArrow line) cs) = false /\
  fill_enabled (calls (SQuadBezier quad) cs) = false /\
  ((forall x : R, numeric (fmt x) = true) ->
   (forall s : LineSeg.t,
       contains "fill" (LineSeg.color s) = false ->
       contains "fill=" (LineSeg.to_tikz fmt s) = false /\
       contains "fill opacity=" (LineSeg.to_tikz fmt s) = false /\
       contains "fill=" (Arrow.to_tikz fmt s) = false /\
       contains "fill opacity=" (Arrow.to_tikz fmt s) = false) /\
   (forall q : QuadBezier.t,
       contains "fill" (QuadBezier.color q) = false ->
       contains "fill=" (QuadBezier.to_tikz fmt q) = false /\
       contains "fill opacity=" (QuadBezier.to_tikz fmt q) = false)) /\
  Forall (fun col : string => contains "fill" col = false) stroke_colors.
Proof.
  intros line quad.
  split; [reflexivity|]. split; [reflexivity|].
  split; [apply unfilled_path_flag, calls_keep_unfilled; reflexivity|].
  split; [apply unfilled_path_flag, calls_keep_unfilled; reflexivity|].
  split; [apply unfilled_path_flag, calls_keep_unfilled; reflexivity|].
  split; [|repeat constructor].
  intros Hfmt. split.
  - intros s Hs.
    destruct (path_markup_fill_word fmt Hfmt s quad) as (Hl & Ha & _).
    rewrite Hs in Hl, Ha.
    repeat split.
    + apply (contains_longer "fill" "="), Hl.
    + apply (contains_longer "fill" " opacity="), Hl.
    + apply (contains_longer "fill" "="), Ha.
    + apply (contains_longer "fill" " opacity="), Ha.
  - intros q Hq.
    destruct (path_markup_fill_word fmt Hfmt line q) as (_ & _ & Hm).
    rewrite Hq in Hm.
    split.
    + apply (contains_longer "fill" "="), Hm.
    + apply (contains_longer "fill" " opacity="), Hm.
Qed.

(** A black line of width 2, the numbers printed with two decimals. *)
Lemma line_and_quad_never_filled_witness :
  let fmt : Fmt := fun _ => "0.00"%string in
  let line := LineSeg.init (0, 0) (0, 0) "black" 2 true "gray" 1 in
  contains "fill=" (LineSeg.to_tikz fmt line) = false /\
  contains "fill opacity=" (LineSeg.to_tikz fmt line) = false.
Proof.
  intros fmt line.
  destruct (proj1 (proj1 (proj2 (proj2 (proj2 (proj2 (proj2
              (line_and_quad_never_filled (0, 0) (0, 0) (0, 0) "black" 2
                 true "gray" 1 [] fmt))))))
              (fun _ => eq_refl)) line eq_refl) as (H1 & H2 & _).
  split; [exact H1 | exact H2].
Defined.

(** By contrast a [RectShape] keeps the flag it is given, and exports a
    fill directive when the flag is on. *)
Example rect_exports_fill (fmt : Fmt) :
  let r := RectShape.init (0, 0) (10, 10) "black" 2 true "gray" 1 0 in
  RectShape.fill_enabled r = true /\
  existsb is_fill_directive (RectShape.tikz_opts fmt r) = true.
Proof.
  simpl. split; [reflexivity|].
  unfold RectShape.tikz_opts. simpl.
  destruct (Rlt_dec 1 1) as [H|_]; [lra|].
  destruct (Rlt_dec _ _) as [H|_].
  - unfold Py.abs in H. rewrite Rabs_R0 in H.
    assert (0 < 1 / 10 ^ 9).
    { apply Rdiv_lt_0_compat; [lra | apply pow_lt; lra]. }
    lra.
  - reflexivity.
Qed.

End NeverFilled.

(** ** Document and history *)

Section History.

Import TikzDesigner.

Lemma list_pop_app {A : Type} (l : list A) (a : A) :
  Py.list_pop (l ++ [a]) = Some (l, a).
Proof.
  unfold Py.list_pop. rewrite rev_app_distr. simpl.
  rewrite rev_involutive. reflexivity.
Qed.

Lemma list_pop_nil {A : Type} : Py.list_pop (@nil A) = None.
Proof. reflexivity. Qed.

Lemma without_absent (s : Ref) (l : list Ref) :
  ~ In s l -> without s l = l.
Proof.
  unfold without. induction l as [|a l IH]; intros H; simpl.
  - reflexivity.
  - destruct (Nat.eqb_spec a s) as [->|Hne]; simpl.
    + exfalso. apply H. now left.
    + rewrite IH; [reflexivity|]. intros Hin. apply H. now right.
Qed.

Lemma without_app (s : Ref) (l1 l2 : list Ref) :
  without s (l1 ++ l2) = without s l1 ++ without s l2.
Proof. unfold without. apply filter_app. Qed.

Lemma without_self (s : Ref) : without s [s] = [].
Proof. unfold without. simpl. now rewrite Nat.eqb_refl. Qed.

Lemma without_once (s : Ref) (l1 l2 : list Ref) :
  ~ In s l1 -> ~ In s l2 -> without s (l1 ++ s :: l2) = l1 ++ l2.
Proof.
  intros H1 H2. change (s :: l2) with ([s] ++ l2).
  rewrite !without_app, without_self.
  now rewrite (without_absent s l1 H1), (without_absent s l2 H2).
Qed.

Lemma index_absent (s : Ref) (l : list Ref) :
  ~ In s l -> index s l = None.
Proof.
  induction l as [|a l IH]; intros H; simpl.
  - reflexivity.
  - destruct (Nat.eqb_spec a s) as [->|Hne].
    + exfalso. apply H. now left.
    + rewrite IH; [reflexivity|]. intros Hin. apply H. now right.
Qed.

Lemma index_first (s : Ref) (l1 l2 : list Ref) :
  ~ In s l1 ->
  index s (l1 ++ s :: l2) = Some (Z.of_nat (List.length l1)).
Proof.
  induction l1 as [|a l1 IH]; intros H.
  - simpl. now rewrite Nat.eqb_refl.
  - cbn [app index List.length].
    destruct (Nat.eqb_spec a s) as [->|Hne].
    + exfalso. apply H. now left.
    + rewrite IH by (intros Hin; apply H; now right).
      simpl. f_equal. lia.
Qed.

Lemma list_insert_middle {A : Type} (x : A) (l1 l2 : list A) :
  Py.list_insert (List.length l1) x (l1 ++ l2) = l1 ++ x :: l2.
Proof.
  unfold Py.list_insert.
  induction l1 as [|a l1 IH]; simpl.
  - reflexivity.
  - f_equal. exact IH.
Qed.

Lemma list_insert_at {A : Type} (i : nat) (x : A) (l : list A) :
  (i <= List.length l)%nat ->
  nth_error (Py.list_insert i x l) i = Some x /\
  List.length (Py.list_insert i x l) = S (List.length l) /\
  (forall j, (j < i)%nat ->
      nth_error (Py.list_insert i x l) j = nth_error l j) /\
  (forall j, (i <= j)%nat ->
      nth_error (Py.list_insert i x l) (S j) = nth_error l j).
Proof.
  intros Hi.
  pose proof (firstn_skipn i l) as E.
  assert (Hlen : List.length (firstn i l) = i)
    by (apply firstn_length_le; exact Hi).
  unfold Py.list_insert.
  set (l1 := firstn i l) in *. set (l2 := skipn i l) in *.
  clearbody l1 l2. subst l. clear Hi.
  repeat split.
  - rewrite nth_error_app2 by lia. rewrite Hlen, Nat.sub_diag. reflexivity.
  - rewrite !length_app. simpl. lia.
  - intros j Hj. rewrite !nth_error_app1 by lia. reflexivity.
  - intros j Hj. rewrite !nth_error_app2 by lia. rewrite Hlen.
    replace (S j - i)%nat with (S (j - i)) by lia. reflexivity.
Qed.

(** C3.  For a shape that is not in the document, [_add_shape] followed by
    [undo] gives back the document (the same sequence of the same objects,
    so the same length) and the history (so its length); the objects
    themselves are untouched. *)
Theorem add_then_undo (st : t) (s : Ref) :
  ~ In s (shapes st) ->
  let st' := undo (_add_shape st s) in
  shapes st' = shapes st /\
  List.length (shapes st') = List.length (shapes st) /\
  actions st' = actions st /\
  List.length (actions st') = List.length (actions st) /\
  store st' = store st.
Proof.
  intros Hs st'.
  assert (Hsh : shapes st' = shapes st).
  { unfold st', undo, _add_shape. cbn [actions set_document].
    rewrite list_pop_app. cbn [shapes set_document set_status].
    rewrite without_app, without_self, app_nil_r.
    apply without_absent, Hs. }
  assert (Hac : actions st' = actions st).
  { unfold st', undo, _add_shape. cbn [actions set_document].
    rewrite list_pop_app. reflexivity. }
  repeat split.
  - exact Hsh.
  - now rewrite Hsh.
  - exact Hac.
  - now rewrite Hac.
  - unfold st', undo, _add_shape. cbn [actions set_document].
    rewrite list_pop_app. reflexivity.
Qed.

(** The selection is the added shape after [_add_shape] and empty after
    [undo]: it is not restored. *)
Lemma add_then_undo_selection (st : t) (s : Ref) :
  selected (_add_shape st s) = Some (s, handles (store st s)) /\
  selected (undo (_add_shape st s)) = None.
Proof.
  split; [reflexivity|].
  unfold undo, _add_shape. cbn [actions set_document].
  rewrite list_pop_app. reflexivity.
Qed.

Lemma add_then_undo_witness :
  shapes (undo (_add_shape (init (fun _ => SDot (Dot.init (0, 0) 3 "black")))
                  0%nat)) = [].
Proof.
  refine (proj1 (add_then_undo
                   (init (fun _ => SDot (Dot.init (0, 0) 3 "black")))
                   0%nat _)).
  simpl. intros [].
Defined.

(** [undo] on a history that ends with a [remove] record. *)
Lemma undo_remove_step (st : t) (shp : Ref) (idx : option Z)
    (rest : list Action) :
  actions st = rest ++ [Remove shp idx] ->
  actions (undo st) = rest /\
  selected (undo st) = None /\
  store (undo st) = store st /\
  shapes (undo st) =
    match idx with
    | None => shapes st ++ [shp]
    | Some i =>
        if (i <? 0)%Z || (Z.of_nat (List.length (shapes st)) <? i)%Z
        then shapes st ++ [shp]
        else Py.list_insert (Z.to_nat i) shp (shapes st)
    end.
Proof.
  intros Ha. unfold undo. rewrite Ha, list_pop_app.
  repeat split.
Qed.

Lemma delete_selected_step (st : t) (s : Ref) (hs : list Handle) :
  tool st = "cursor"%string ->
  selected st = Some (s, hs) ->
  shapes (_on_delete_key st) = without s (shapes st) /\
  actions (_on_delete_key st)
    = actions st ++ [Remove s (index s (shapes st))] /\
  selected (_on_delete_key st) = None /\
  store (_on_delete_key st) = store st.
Proof.
  intros Ht Hsel. unfold _on_delete_key. rewrite Ht, Hsel.
  repeat split.
Qed.

(** C4.  Undoing a [remove] record puts the recorded shape back at the
    recorded index when that index lies within the current document, and
    at the end when the index is missing, negative or beyond the end; the
    record leaves the history.  Deleting the selected shape, which occurs
    once in the document, and undoing at once gives back the document with
    the shape at its original index. *)
Theorem undo_remove_reinserts :
  (forall (st : t) (shp : Ref) (i : Z) (rest : list Action),
      actions st = rest ++ [Remove shp (Some i)] ->
      (0 <= i <= Z.of_nat (List.length (shapes st)))%Z ->
      shapes (undo st) = Py.list_insert (Z.to_nat i) shp (shapes st) /\
      nth_error (shapes (undo st)) (Z.to_nat i) = Some shp /\
      List.length (shapes (undo st)) = S (List.length (shapes st)) /\
      actions (undo st) = rest) /\
  (forall (st : t) (shp : Ref) (idx : option Z) (rest : list Action),
      actions st = rest ++ [Remove shp idx] ->
      idx = None \/
      (exists i : Z,
          idx = Some i /\
          (i < 0 \/ Z.of_nat (List.length (shapes st)) < i)%Z) ->
      shapes (undo st) = shapes st ++ [shp] /\
      actions (undo st) = rest) /\
  (forall (st : t) (s : Ref) (hs : list Handle) (l1 l2 : list Ref),
      tool st = "cursor"%string ->
      selected st = Some (s, hs) ->
      shapes st = l1 ++ s :: l2 ->
      ~ In s l1 -> ~ In s l2 ->
      shapes (_on_delete_key st) = l1 ++ l2 /\
      shapes (undo (_on_delete_key st)) = shapes st /\
      nth_error (shapes (undo (_on_delete_key st))) (List.length l1)
        = Some s /\
      actions (undo (_on_delete_key st)) = actions st).
Proof.
  split; [|split].
  - intros st shp i rest Ha Hi.
    destruct (undo_remove_step st shp (Some i) rest Ha)
      as (Hact & _ & _ & Hsh).
    assert (Hb : (i <? 0)%Z || (Z.of_nat (List.length (shapes st)) <? i)%Z
                 = false).
    { apply orb_false_iff. split; apply Z.ltb_ge; lia. }
    rewrite Hb in Hsh.
    assert (Hn : (Z.to_nat i <= List.length (shapes st))%nat) by lia.
    destruct (list_insert_at (Z.to_nat i) shp (shapes st) Hn)
      as (Hnth & Hlen & _).
    rewrite Hsh. auto.
  - intros st shp idx rest Ha Hidx.
    destruct (undo_remove_step st shp idx rest Ha) as (Hact & _ & _ & Hsh).
    split; [|exact Hact].
    destruct Hidx as [->|(i & -> & Hi)]; [exact Hsh|].
    assert (Hb : (i <? 0)%Z || (Z.of_nat (List.length (shapes st)) <? i)%Z
                 = true).
    { apply orb_true_iff. destruct Hi; [left|right]; apply Z.ltb_lt; lia. }
    now rewrite Hb in Hsh.
  - intros st s hs l1 l2 Ht Hsel Hshapes H1 H2.
    destruct (delete_selected_step st s hs Ht Hsel)
      as (Hsh & Hact & _ & _).
    rewrite Hshapes, (without_once s l1 l2 H1 H2) in Hsh.
    rewrite Hshapes, (index_first s l1 l2 H1) in Hact.
    destruct (undo_remove_step _ _ _ _ Hact) as (Hact' & _ & _ & Hsh').
    rewrite Hsh in Hsh'.
    assert (Hb : (Z.of_nat (List.length l1) <? 0)%Z
                 || (Z.of_nat (List.length (l1 ++ l2))
                     <? Z.of_nat (List.length l1))%Z = false).
    { apply orb_false_iff. rewrite length_app.
      split; apply Z.ltb_ge; lia. }
    rewrite Hb, Nat2Z.id, list_insert_middle in Hsh'.
    repeat split.
    + exact Hsh.
    + now rewrite Hsh', Hshapes.
    + rewrite Hsh'. rewrite nth_error_app2 by lia.
      now rewrite Nat.sub_diag.
    + exact Hact'.
Qed.

(** A document of three shapes with the middle one selected. *)
Definition three_shapes : t :=
  let st := init (fun _ => SDot (Dot.init (0, 0) 3 "black")) in
  let st := _add_shape st 0%nat in
  let st := _add_shape st 1%nat in
  let st := _add_shape st 2%nat in
  set_document st (shapes st) (actions st) (Some (1%nat, [])).

Lemma undo_remove_reinserts_witness :
  shapes (_on_delete_key three_shapes) = [0%nat; 2%nat] /\
  shapes (undo (_on_delete_key three_shapes)) = [0%nat; 1%nat; 2%nat] /\
  nth_error (shapes (undo (_on_delete_key three_shapes))) 1 = Some 1%nat /\
  actions (undo (_on_delete_key three_shapes)) = actions three_shapes.
Proof.
  refine (proj2 (proj2 undo_remove_reinserts)
            three_shapes 1%nat [] [0%nat] [2%nat] _ _ _ _ _).
  - reflexivity.
  - reflexivity.
  - reflexivity.
  - simpl. intros [H|[]]. discriminate H.
  - simpl. intros [H|[]]. discriminate H.
Defined.

(** A [remove] record whose index lies beyond the end of the document (the
    document shrank since): the shape goes to the end. *)
Example undo_remove_out_of_range :
  let st := init (fun _ => SDot (Dot.init (0, 0) 3 "black")) in
  let st := set_document st [0%nat] [Remove 1%nat (Some 5%Z)] None in
  shapes (undo st) = [0%nat; 1%nat] /\ actions (undo st) = [].
Proof. split; reflexivity. Qed.


(** The [except ValueError] branch of the delete handler, for a selection
    that is not in the document: the [remove] record is written with no
    index, the selection is cleared, and the next [undo] appends the
    shape.  No state of a session takes this branch, since the selection
    of a session is always a shape of the document. *)
Lemma delete_stale_branch (st : t) (s : Ref) (hs : list Handle) :
  tool st = "cursor"%string ->
  selected st = Some (s, hs) ->
  ~ In s (shapes st) ->
  shapes (_on_delete_key st) = shapes st /\
  store (_on_delete_key st) = store st /\
  actions (_on_delete_key st) = actions st ++ [Remove s None] /\
  selected (_on_delete_key st) = None /\
  shapes (undo (_on_delete_key st)) = shapes st ++ [s].
Proof.
  intros Ht Hsel Hs.
  destruct (delete_selected_step st s hs Ht Hsel)
    as (Hsh & Hact & Hnone & Hstore).
  rewrite (without_absent s _ Hs) in Hsh.
  rewrite (index_absent s _ Hs) in Hact.
  destruct (undo_remove_step _ _ _ _ Hact) as (_ & _ & _ & Hsh').
  repeat split; try assumption.
  now rewrite Hsh', Hsh.
Qed.

End History.

(** ** Rotate mode *)

Section RotateMode.

Import TikzDesigner.

Lemma store_set_same (h : Store) (r : Ref) (v : Shape) :
  store_set h r v r = v.
Proof. unfold store_set. now rewrite Nat.eqb_refl. Qed.

Lemma store_set_other (h : Store) (r r' : Ref) (v : Shape) :
  r' <> r -> store_set h r v r' = h r'.
Proof.
  intros Hne. unfold store_set.
  destruct (Nat.eqb_spec r' r); [contradiction | reflexivity].
Qed.

(** One frame of a rotate drag, for any selected shape. *)
Lemma rotate_frame (st : t) (ex ey : Z) (r : Ref) (hs : list Handle)
    (cx cy base x y : R) :
  tool st = "cursor"%string ->
  selected st = Some (r, hs) ->
  _cursor_mode st = Some "rotate"%string ->
  _rotate_center st = Some (cx, cy) ->
  _rotate_base_angle st = Some base ->
  snap_event st ex ey = Some (x, y) ->
  let ang := Py.degrees (Py.atan2 (y - cy) (x - cx)) in
  let d := ang - base in
  let obj := store st r in
  let target :=
    if is_rect_or_ellipse obj then Py.mod_ (angle obj + d) 360 else 0 in
  on_drag st ex ey =
    Some (set_drag st
            (store_set (store st) r (rotate_by (rotate_to obj target) d))
            (_drag_start st) (Some ang)).
Proof.
  intros Ht Hsel Hmode Hc Hb Hsnap. unfold on_drag.
  rewrite Ht, Hsel, Hsnap, Hmode, Hc, Hb. reflexivity.
Qed.

Lemma double_rotation (a d : R) :
  Py.mod_ (Py.mod_ (Py.mod_ (a + d) 360) 360 + d) 360
  = Py.mod_ (a + 2 * d) 360.
Proof.
  rewrite mod_idempotent by lra. rewrite mod_mod_add by lra.
  f_equal. lra.
Qed.

(** C2.  In rotate mode a drag frame whose pointer angle differs by [d]
    from the previous one calls [rotate_to] with [(angle + d) % 360] and
    then [rotate_by] with [d] on the selected shape.  For a [RectShape] or
    an [EllipseShape] with stored angle [a] the frame leaves the stored
    angle at [(a + 2 * d) % 360]; the previous pointer angle becomes the
    current one. *)
Theorem rotate_frame_doubles_delta (st : t) (ex ey : Z) (r : Ref)
    (hs : list Handle) (cx cy base x y : R) :
  tool st = "cursor"%string ->
  selected st = Some (r, hs) ->
  _cursor_mode st = Some "rotate"%string ->
  _rotate_center st = Some (cx, cy) ->
  _rotate_base_angle st = Some base ->
  snap_event st ex ey = Some (x, y) ->
  is_rect_or_ellipse (store st r) = true ->
  let a := angle (store st r) in
  let ang := Py.degrees (Py.atan2 (y - cy) (x - cx)) in
  let d := ang - base in
  exists st' : t,
    on_drag st ex ey = Some st' /\
    store st' r
      = rotate_by (rotate_to (store st r) (Py.mod_ (a + d) 360)) d /\
    angle (rotate_to (store st r) (Py.mod_ (a + d) 360))
      = Py.mod_ (a + d) 360 /\
    angle (store st' r) = Py.mod_ (a + 2 * d) 360 /\
    is_rect_or_ellipse (store st' r) = true /\
    _rotate_base_angle st' = Some ang.
Proof.
  intros Ht Hsel Hmode Hc Hb Hsnap Hre a ang d.
  eexists. split.
  - apply (rotate_frame st ex ey r hs cx cy base x y); assumption.
  - cbn [store set_drag _rotate_base_angle]. rewrite store_set_same, Hre.
    fold ang. fold d. fold a. subst a.
    destruct (store st r) as [s|s|s|s|s|s|s|s|s]; try discriminate Hre;
      cbn [rotate_to rotate_by angle is_rect_or_ellipse
           RectShape.rotate_to RectShape.rotate_by RectShape.set_angle
           RectShape.angle
           EllipseShape.rotate_to EllipseShape.rotate_by
           EllipseShape.set_angle EllipseShape.angle];
      rewrite double_rotation, mod_idempotent by lra; auto 6.
Qed.

(** A rectangle at angle 350 whose rotate drag starts with the pointer on
    the positive x axis of the pivot. *)
Definition rotating_rect : t :=
  let obj := SRectShape (RectShape.init (0, 0) (10, 10) "black" 2 false
                           "gray" 1 350) in
  {| tool := "cursor"; snap_enabled := false; grid_step := 20;
     store := fun _ => obj;
     shapes := [0%nat]; actions := [Add 0%nat 0];
     selected := Some (0%nat, handles obj);
     _cursor_mode := Some "rotate"%string; _active_handle := None;
     _drag_start := None;
     _rotate_base_angle := Some 0; _rotate_center := Some (5, 5);
     status := EmptyString |}.

Lemma rotate_frame_doubles_delta_witness :
  exists st' : t,
    on_drag rotating_rect 5 15 = Some st' /\
    angle (store st' 0%nat)
      = Py.mod_
          (350 + 2 * (Py.degrees (Py.atan2 (IZR 15 - 5) (IZR 5 - 5)) - 0))
          360.
Proof.
  destruct (rotate_frame_doubles_delta rotating_rect 5 15 0%nat
              (handles (store rotating_rect 0%nat)) 5 5 0 (IZR 5) (IZR 15)
              eq_refl eq_refl eq_refl eq_refl eq_refl eq_refl eq_refl)
    as (st' & Hdrag & _ & _ & Hangle & _).
  exists st'. split; [exact Hdrag | exact Hangle].
Defined.

(** The pointer of the witness frame is straight below the pivot (canvas y
    grows downward): the pointer angle is 90 degrees, and the rectangle
    goes from 350 to 170 = (350 + 2 * 90) % 360, where a single application
    of the delta would give 80. *)
Example rotating_rect_frame :
  exists st' : t,
    on_drag rotating_rect 5 15 = Some st' /\
    angle (store st' 0%nat) = 170.
Proof.
  assert (Hang : Py.degrees (Py.atan2 (IZR 15 - 5) (IZR 5 - 5)) = 90).
  { unfold Py.atan2.
    destruct (Rlt_dec 0 (5 - 5)) as [H|_]; [lra|].
    destruct (Rlt_dec (5 - 5) 0) as [H|_]; [lra|].
    destruct (Rlt_dec 0 (15 - 5)) as [_|H]; [|lra].
    unfold Py.degrees. field. apply PI_neq0. }
  eexists. split.
  { apply (rotate_frame rotating_rect 5 15 0%nat
             (handles (store rotating_rect 0%nat)) 5 5 0 (IZR 5) (IZR 15));
      reflexivity. }
  cbn [store set_drag]. rewrite store_set_same.
  cbn [store rotating_rect is_rect_or_ellipse angle rotate_to rotate_by
       RectShape.rotate_to RectShape.rotate_by RectShape.set_angle
       RectShape.angle RectShape.init].
  rewrite Hang, double_rotation.
  replace (350 + 2 * (90 - 0)) with (170 + IZR 1 * 360) by lra.
  rewrite mod_add_multiple by lra. apply mod_small. lra.
Qed.

End RotateMode.

(** * The rest of the geometry kernel *)

(** [range(n)] for an int [n]: empty when [n <= 0]. *)
Definition range (n : Z) : list Z := map Z.of_nat (seq 0 (Z.to_nat n)).

(** [abs(deg) > 1e-9], the test that guards every rotation of a drawn or
    exported outline. *)
Definition angle_counts (deg : R) : bool :=
  if Rlt_dec (1 / 10 ^ 9) (Py.abs deg) then true else false.

Definition poly_from_ellipse (cx cy rx ry deg : R) (segments : Z)
    : list Point :=
  map (fun i : Z =>
         let t := 2 * PI * IZR i / IZR segments in
         let x := cx + rx * cos t in
         let y := cy + ry * sin t in
         if angle_counts deg then rotate_point x y cx cy deg else (x, y))
      (range segments).

Definition rect_corners_from_p0p1 (p0 p1 : Point) (deg : R) : list Point :=
  let '(x0, y0) := p0 in
  let '(x1, y1) := p1 in
  let cx := (x0 + x1) / 2 in
  let cy := (y0 + y1) / 2 in
  let w := Py.abs (x1 - x0) in
  let h := Py.abs (y1 - y0) in
  let corners :=
    [(cx - w / 2, cy - h / 2);
     (cx + w / 2, cy - h / 2);
     (cx + w / 2, cy + h / 2);
     (cx - w / 2, cy + h / 2)] in
  if angle_counts deg
  then map (fun c : Point => rotate_point (fst c) (snd c) cx cy deg) corners
  else corners.

Section Kernel.

Lemma radians_plus (d e : R) :
  Py.radians (d + e) = Py.radians d + Py.radians e.
Proof. unfold Py.radians. lra. Qed.

Lemma radians_opp (d : R) : Py.radians (- d) = - Py.radians d.
Proof. unfold Py.radians. lra. Qed.

Lemma sin_cos_unit (th : R) : sin th * sin th + cos th * cos th = 1.
Proof. pose proof (sin2_cos2 th) as H. unfold Rsqr in H. exact H. Qed.

Lemma rotate_point_offsets (px py cx cy deg : R) :
  let q := rotate_point px py cx cy deg in
  (fst q - cx) * (fst q - cx) + (snd q - cy) * (snd q - cy)
  = (px - cx) * (px - cx) + (py - cy) * (py - cy).
Proof.
  unfold rotate_point. cbn [fst snd].
  set (s := sin (Py.radians deg)). set (c := cos (Py.radians deg)).
  pose proof (sin_cos_unit (Py.radians deg)) as H. fold s c in H.
  replace ((cx + ((px - cx) * c - (py - cy) * s) - cx)
           * (cx + ((px - cx) * c - (py - cy) * s) - cx)
           + (cy + ((px - cx) * s + (py - cy) * c) - cy)
             * (cy + ((px - cx) * s + (py - cy) * c) - cy))
    with (((px - cx) * (px - cx) + (py - cy) * (py - cy))
          * (s * s + c * c)) by ring.
  rewrite H. ring.
Qed.

Lemma rotate_point_radius (px py cx cy deg : R) :
  distance (rotate_point px py cx cy deg) (cx, cy)
    = distance (px, py) (cx, cy).
Proof.
  unfold distance, Py.hypot. cbn [fst snd].
  f_equal. apply (rotate_point_offsets px py cx cy deg).
Qed.

(** X1.  Turning a point about a pivot keeps its distance to the pivot, and
    keeps the pivot itself in place, whatever the angle. *)
Theorem rotate_point_keeps_radius (px py cx cy deg : R) :
  distance (rotate_point px py cx cy deg) (cx, cy)
    = distance (px, py) (cx, cy) /\
  rotate_point cx cy cx cy deg = (cx, cy).
Proof.
  split.
  - unfold distance, Py.hypot. cbn [fst snd].
    f_equal. apply (rotate_point_offsets px py cx cy deg).
  - unfold rotate_point. f_equal; ring.
Qed.

Lemma rotate_point_twice (px py cx cy d e : R) :
  rotate_point (fst (rotate_point px py cx cy d))
    (snd (rotate_point px py cx cy d)) cx cy e
  = rotate_point px py cx cy (d + e).
Proof.
  unfold rotate_point. cbn [fst snd].
  rewrite radians_plus, sin_plus, cos_plus. f_equal; ring.
Qed.

(** X2.  Turning by [d] and then by [e] about the same pivot is turning by
    [d + e]; turning back by [-d] gives the point back. *)
Theorem rotate_point_composes (px py cx cy d e : R) :
  let q := rotate_point px py cx cy d in
  rotate_point (fst q) (snd q) cx cy e = rotate_point px py cx cy (d + e) /\
  rotate_point (fst q) (snd q) cx cy (- d) = (px, py).
Proof.
  assert (Hsum : forall a b : R,
             rotate_point (fst (rotate_point px py cx cy a))
               (snd (rotate_point px py cx cy a)) cx cy b
             = rotate_point px py cx cy (a + b)).
  { intros a b. unfold rotate_point. cbn [fst snd].
    rewrite radians_plus, sin_plus, cos_plus. f_equal; ring. }
  split; [apply Hsum|].
  cbv zeta. rewrite Hsum. replace (d + - d) with 0 by lra.
  unfold rotate_point, Py.radians.
  replace (0 * PI / 180) with 0 by lra.
  rewrite sin_0, cos_0. f_equal; ring.
Qed.

Lemma half_hypot (w h : R) :
  Py.hypot (w / 2) (h / 2) = Py.hypot w h / 2.
Proof.
  unfold Py.hypot.
  replace (w / 2 * (w / 2) + h / 2 * (h / 2))
    with ((w * w + h * h) * (/ 2 * / 2)) by field.
  rewrite sqrt_mult_alt by nra.
  rewrite sqrt_square by lra. reflexivity.
Qed.

Lemma hypot_abs (a b : R) : Py.hypot (Rabs a) (Rabs b) = Py.hypot a b.
Proof.
  unfold Py.hypot, Rabs. f_equal.
  destruct (Rcase_abs a), (Rcase_abs b); ring.
Qed.

Lemma hypot_signs (a b : R) :
  Py.hypot (- a) b = Py.hypot a b /\ Py.hypot a (- b) = Py.hypot a b /\
  Py.hypot (- a) (- b) = Py.hypot a b.
Proof. unfold Py.hypot. repeat split; f_equal; ring. Qed.

Lemma range_length (n : Z) : List.length (range n) = Z.to_nat n.
Proof. unfold range. now rewrite length_map, length_seq. Qed.

End Kernel.

Section Outlines.

Lemma angle_counts_zero : angle_counts 0 = false.
Proof.
  unfold angle_counts, Py.abs. rewrite Rabs_R0.
  destruct (Rlt_dec (1 / 10 ^ 9) 0) as [H|_]; [|reflexivity].
  assert (0 < 1 / 10 ^ 9) by (apply Rdiv_lt_0_compat; [lra | apply pow_lt; lra]).
  lra.
Qed.

Lemma half_extent_low (a b : R) : (a + b) / 2 - Rabs (b - a) / 2 = Rmin a b.
Proof.
  unfold Rabs, Rmin.
  destruct (Rcase_abs (b - a)), (Rle_dec a b); lra.
Qed.

Lemma half_extent_high (a b : R) : (a + b) / 2 + Rabs (b - a) / 2 = Rmax a b.
Proof.
  unfold Rabs, Rmax.
  destruct (Rcase_abs (b - a)), (Rle_dec a b); lra.
Qed.

Lemma rect_corners_eq (a0 b0 a1 b1 deg : R) :
  rect_corners_from_p0p1 (a0, b0) (a1, b1) deg =
    let box :=
      [(Rmin a0 a1, Rmin b0 b1); (Rmax a0 a1, Rmin b0 b1);
       (Rmax a0 a1, Rmax b0 b1); (Rmin a0 a1, Rmax b0 b1)] in
    if angle_counts deg
    then map (fun c : Point =>
                rotate_point (fst c) (snd c) ((a0 + a1) / 2) ((b0 + b1) / 2)
                  deg) box
    else box.
Proof.
  unfold rect_corners_from_p0p1, Py.abs. cbv zeta.
  rewrite !half_extent_low, !half_extent_high. reflexivity.
Qed.

(** X3.  The outline of a rectangle does not depend on which pair of opposite
    corners is given, nor on their order, at any angle; with a negligible
    angle it is the bounding box of the two points, listed from the corner
    of least x and least y, through greatest x and least y, greatest x and
    greatest y, to least x and greatest y. *)
Theorem rect_corners_bounding_box (p0 p1 : Point) (deg : R) :
  (angle_counts deg = false ->
   rect_corners_from_p0p1 p0 p1 deg =
     [(Rmin (fst p0) (fst p1), Rmin (snd p0) (snd p1));
      (Rmax (fst p0) (fst p1), Rmin (snd p0) (snd p1));
      (Rmax (fst p0) (fst p1), Rmax (snd p0) (snd p1));
      (Rmin (fst p0) (fst p1), Rmax (snd p0) (snd p1))]) /\
  rect_corners_from_p0p1 p0 p1 deg = rect_corners_from_p0p1 p1 p0 deg /\
  rect_corners_from_p0p1 p0 p1 deg
    = rect_corners_from_p0p1 (fst p0, snd p1) (fst p1, snd p0) deg.
Proof.
  destruct p0 as [x0 y0], p1 as [x1 y1].
  cbn [fst snd]. rewrite !rect_corners_eq. cbv zeta.
  rewrite (Rmin_comm x1 x0), (Rmin_comm y1 y0),
    (Rmax_comm x1 x0), (Rmax_comm y1 y0),
    (Rplus_comm x1 x0), (Rplus_comm y1 y0).
  split; [intros Hdeg; rewrite Hdeg; reflexivity|].
  split; reflexivity.
Qed.

Lemma rect_corners_bounding_box_witness :
  rect_corners_from_p0p1 (10, 0) (0, 20) 0 =
    [(Rmin 10 0, Rmin 0 20); (Rmax 10 0, Rmin 0 20);
     (Rmax 10 0, Rmax 0 20); (Rmin 10 0, Rmax 0 20)].
Proof.
  exact (proj1 (rect_corners_bounding_box (10, 0) (0, 20) 0)
           angle_counts_zero).
Defined.

Lemma corner_distance (cx cy w h : R) (sx sy : bool) :
  distance (if sx then cx + w / 2 else cx - w / 2,
            if sy then cy + h / 2 else cy - h / 2) (cx, cy)
  = Py.hypot w h / 2.
Proof.
  unfold distance. cbn [fst snd]. rewrite <- half_hypot.
  destruct sx, sy.
  - f_equal; lra.
  - replace (cy - h / 2 - cy) with (- (h / 2)) by lra.
    replace (cx + w / 2 - cx) with (w / 2) by lra.
    apply (hypot_signs (w / 2) (h / 2)).
  - replace (cx - w / 2 - cx) with (- (w / 2)) by lra.
    replace (cy + h / 2 - cy) with (h / 2) by lra.
    apply (hypot_signs (w / 2) (h / 2)).
  - replace (cx - w / 2 - cx) with (- (w / 2)) by lra.
    replace (cy - h / 2 - cy) with (- (h / 2)) by lra.
    apply (hypot_signs (w / 2) (h / 2)).
Qed.

Lemma diagonal (x0 y0 x1 y1 : R) :
  Py.hypot (Rabs (x1 - x0)) (Rabs (y1 - y0)) = distance (x0, y0) (x1, y1).
Proof.
  rewrite hypot_abs. unfold distance. cbn [fst snd].
  replace (x1 - x0) with (- (x0 - x1)) by lra.
  replace (y1 - y0) with (- (y0 - y1)) by lra.
  apply (hypot_signs (x0 - x1) (y0 - y1)).
Qed.

(** X4.  At any angle the outline of a rectangle has four corners, each at half
    the diagonal from the midpoint of the two given points. *)
Theorem rect_corners_on_circle (p0 p1 : Point) (deg : R) :
  let mid := ((fst p0 + fst p1) / 2, (snd p0 + snd p1) / 2) in
  List.length (rect_corners_from_p0p1 p0 p1 deg) = 4%nat /\
  Forall (fun c : Point => distance c mid = distance p0 p1 / 2)
    (rect_corners_from_p0p1 p0 p1 deg).
Proof.
  destruct p0 as [x0 y0], p1 as [x1 y1]. cbn [fst snd].
  unfold rect_corners_from_p0p1, Py.abs.
  set (cx := (x0 + x1) / 2). set (cy := (y0 + y1) / 2).
  set (w := Rabs (x1 - x0)). set (h := Rabs (y1 - y0)).
  assert (Hd : Py.hypot w h / 2 = distance (x0, y0) (x1, y1) / 2)
    by (unfold w, h; now rewrite diagonal).
  pose proof (corner_distance cx cy w h false false) as K1.
  pose proof (corner_distance cx cy w h true false) as K2.
  pose proof (corner_distance cx cy w h true true) as K3.
  pose proof (corner_distance cx cy w h false true) as K4.
  cbv iota in K1, K2, K3, K4. rewrite Hd in K1, K2, K3, K4.
  destruct (angle_counts deg); (split; [reflexivity|]).
  - cbn [map fst snd].
    repeat constructor;
      rewrite (rotate_point_radius _ _ cx cy deg); assumption.
  - repeat constructor; assumption.
Qed.

Lemma poly_from_ellipse_length (cx cy rx ry deg : R) (segments : Z) :
  List.length (poly_from_ellipse cx cy rx ry deg segments)
  = Z.to_nat segments.
Proof. unfold poly_from_ellipse. now rewrite length_map, range_length. Qed.

Lemma circle_sample_distance (cx cy r t : R) :
  distance (cx + r * cos t, cy + r * sin t) (cx, cy) = Rabs r.
Proof.
  unfold distance, Py.hypot. cbn [fst snd].
  replace ((cx + r * cos t - cx) * (cx + r * cos t - cx)
           + (cy + r * sin t - cy) * (cy + r * sin t - cy))
    with (r * r * (sin t * sin t + cos t * cos t)) by ring.
  rewrite sin_cos_unit, Rmult_1_r. apply sqrt_Rsqr_abs.
Qed.

(** X5.  [poly_from_ellipse] returns one point per segment, none for a segment
    count of zero or less.  With equal radii every point is at that radius
    from the center, at any angle; with a negligible angle every point
    satisfies the equation of the axis-aligned ellipse. *)
Theorem poly_from_ellipse_points (cx cy rx ry deg : R) (segments : Z) :
  List.length (poly_from_ellipse cx cy rx ry deg segments)
    = Z.to_nat segments /\
  ((segments <= 0)%Z -> poly_from_ellipse cx cy rx ry deg segments = []) /\
  Forall (fun p : Point => distance p (cx, cy) = Rabs rx)
    (poly_from_ellipse cx cy rx rx deg segments) /\
  (angle_counts deg = false ->
   Forall (fun p : Point =>
             ((fst p - cx) * ry) * ((fst p - cx) * ry)
             + ((snd p - cy) * rx) * ((snd p - cy) * rx)
             = (rx * ry) * (rx * ry))
     (poly_from_ellipse cx cy rx ry deg segments)).
Proof.
  split; [apply poly_from_ellipse_length|]. split; [|split].
  - intros Hn. unfold poly_from_ellipse, range.
    replace (Z.to_nat segments) with 0%nat by lia. reflexivity.
  - unfold poly_from_ellipse. apply Forall_map, Forall_forall.
    intros i _. cbv zeta.
    destruct (angle_counts deg).
    + rewrite (rotate_point_radius _ _ cx cy deg).
      apply circle_sample_distance.
    + apply circle_sample_distance.
  - intros Hdeg. unfold poly_from_ellipse. rewrite Hdeg.
    apply Forall_map, Forall_forall. intros i _. cbv zeta. cbn [fst snd].
    set (t := 2 * PI * IZR i / IZR segments).
    pose proof (sin_cos_unit t) as H.
    replace ((cx + rx * cos t - cx) * ry * ((cx + rx * cos t - cx) * ry)
             + (cy + ry * sin t - cy) * rx * ((cy + ry * sin t - cy) * rx))
      with (rx * ry * (rx * ry) * (sin t * sin t + cos t * cos t)) by ring.
    rewrite H. ring.
Qed.

Lemma poly_from_ellipse_points_witness :
  poly_from_ellipse 0 0 2 1 0 0 = [] /\
  Forall (fun p : Point =>
            ((fst p - 0) * 1) * ((fst p - 0) * 1)
            + ((snd p - 0) * 2) * ((snd p - 0) * 2) = (2 * 1) * (2 * 1))
    (poly_from_ellipse 0 0 2 1 0 96).
Proof.
  split.
  - apply (proj1 (proj2 (poly_from_ellipse_points 0 0 2 1 0 0))). lia.
  - apply (proj2 (proj2 (proj2 (poly_from_ellipse_points 0 0 2 1 0 96)))).
    exact angle_counts_zero.
Defined.

End Outlines.

(** * More of the shape contract *)

(** Unfold the methods of the shape classes, their setters and the record
    projections. *)
Ltac open_methods :=
  cbv beta iota zeta delta
    [move_by rotate_by rotate_to on_handle_drag handles angle
     LineSeg.move_by LineSeg.rotate_by LineSeg.rotate_to
     LineSeg.on_handle_drag LineSeg.handles LineSeg.center
     LineSeg.set_p0 LineSeg.set_p1 LineSeg.p0 LineSeg.p1
     QuadBezier.move_by QuadBezier.rotate_by QuadBezier.rotate_to
     QuadBezier.on_handle_drag QuadBezier.handles QuadBezier.centroid
     QuadBezier.set_p0 QuadBezier.set_p1 QuadBezier.set_c
     QuadBezier.p0 QuadBezier.p1 QuadBezier.c
     RectShape.move_by RectShape.rotate_by RectShape.rotate_to
     RectShape.on_handle_drag RectShape.center
     RectShape.set_p0 RectShape.set_p1 RectShape.set_angle
     RectShape.p0 RectShape.p1 RectShape.angle
     EllipseShape.move_by EllipseShape.rotate_by EllipseShape.rotate_to
     EllipseShape.on_handle_drag
     EllipseShape.set_center EllipseShape.set_angle
     EllipseShape.cx EllipseShape.cy EllipseShape.angle
     CircleShape.move_by CircleShape.rotate_by CircleShape.rotate_to
     CircleShape.handles
     CircleShape.set_center CircleShape.set_radius
     CircleShape.center CircleShape.radius
     Dot.handles
     TextNode.move_by TextNode.rotate_by TextNode.rotate_to
     TextNode.handles TextNode.set_pos TextNode.pos
     ArcShape.move_by ArcShape.rotate_by ArcShape.rotate_to
     ArcShape.handles
     ArcShape.set_center ArcShape.set_start_angle ArcShape.set_end_angle
     ArcShape.center ArcShape.radius ArcShape.start_angle
     ArcShape.end_angle
     fst snd map];
  simpl.

Section Translation.

Ltac split_points :=
  repeat match goal with
         | p : Point |- _ => destruct p
         | p : (R * R)%type |- _ => destruct p
         end.

(** Equality of two records, field by field, down to the real numbers. *)
Ltac fieldwise :=
  lazymatch goal with
  | |- @eq R _ _ => lra
  | |- ?x = ?x => reflexivity
  | |- (_ :: _) = (_ :: _) => apply (f_equal2 (@cons _)); fieldwise
  | |- (_, _) = (_, _) => apply (f_equal2 (@pair _ _)); fieldwise
  | |- _ => first [reflexivity | progress f_equal; fieldwise]
  end.

Lemma move_by_twice (sh : Shape) (dx dy ex ey : R) :
  move_by (move_by sh dx dy) ex ey = move_by sh (dx + ex) (dy + ey).
Proof.
  destruct sh as [s|s|s|s|s|s|s|s|s]; destruct s; split_points;
    open_methods; fieldwise.
Qed.

(** X6.  [move_by] adds up: two moves are one move by the sum of the deltas, and
    the opposite move gives the shape back, for every class. *)
Theorem move_by_composes (sh : Shape) (dx dy ex ey : R) :
  move_by (move_by sh dx dy) ex ey = move_by sh (dx + ex) (dy + ey) /\
  move_by (move_by sh dx dy) (- dx) (- dy) = sh.
Proof.
  destruct sh as [s|s|s|s|s|s|s|s|s]; destruct s; split_points;
    (split; open_methods; fieldwise).
Qed.

(** The handle [h] carried along by [(dx, dy)]. *)
Definition shifted (dx dy : R) (h : Handle) : Handle :=
  (fst (fst h) + dx, snd (fst h) + dy, snd h).

Lemma rotated_offset_shift (cx cy a dx dy : R) :
  rotate_point (cx + dx) (cy + dy - 40) (cx + dx) (cy + dy) a
  = (fst (rotate_point cx (cy - 40) cx cy a) + dx,
     snd (rotate_point cx (cy - 40) cx cy a) + dy).
Proof. unfold rotate_point. cbn [fst snd]. f_equal; ring. Qed.

Lemma rect_handles_follow_move (s : RectShape.t) (dx dy : R) :
  RectShape.handles (RectShape.move_by s dx dy)
  = map (shifted dx dy) (RectShape.handles s).
Proof.
  destruct s as [[x0 y0] [x1 y1] col wid fe fc fo a].
  unfold shifted, RectShape.handles, RectShape.move_by, RectShape.center.
  cbn [RectShape.p0 RectShape.p1 RectShape.angle RectShape.set_p0
       RectShape.set_p1 fst snd].
  replace ((x0 + dx + (x1 + dx)) / 2) with ((x0 + x1) / 2 + dx) by lra.
  replace ((y0 + dy + (y1 + dy)) / 2) with ((y0 + y1) / 2 + dy) by lra.
  rewrite rotated_offset_shift.
  destruct (rotate_point _ _ _ _ _). reflexivity.
Qed.

Lemma ellipse_handles_follow_move (s : EllipseShape.t) (dx dy : R) :
  EllipseShape.handles (EllipseShape.move_by s dx dy)
  = map (shifted dx dy) (EllipseShape.handles s).
Proof.
  destruct s as [cx cy rx ry col wid fe fc fo a].
  unfold shifted, EllipseShape.handles, EllipseShape.move_by.
  cbn [EllipseShape.cx EllipseShape.cy EllipseShape.angle
       EllipseShape.set_center].
  rewrite rotated_offset_shift.
  destruct (rotate_point _ _ _ _ _). reflexivity.
Qed.

(** X7.  Every handle moves with its shape: the handles of a moved shape are
    the handles of the shape, each carried along by the same delta and
    keeping its kind and its place in the list. *)
Theorem handles_follow_move (sh : Shape) (dx dy : R) :
  handles (move_by sh dx dy) = map (shifted dx dy) (handles sh).
Proof.
  destruct sh as [s|s|s|s|s|s|s|s|s];
    try apply rect_handles_follow_move;
    try apply ellipse_handles_follow_move;
    destruct s; split_points; unfold shifted; open_methods; fieldwise.
Qed.

End Translation.

Section Rotation.

Lemma mod_difference (x y m : R) :
  0 < m -> Py.mod_ (Py.mod_ x m - Py.mod_ y m) m = Py.mod_ (x - y) m.
Proof.
  intros Hm. rewrite (mod_as_multiple x m), (mod_as_multiple y m).
  replace (x + IZR (- Py.floor (x / m)) * m
           - (y + IZR (- Py.floor (y / m)) * m))
    with (x - y + IZR (- Py.floor (x / m) - - Py.floor (y / m)) * m)
    by (rewrite minus_IZR; lra).
  apply mod_add_multiple, Hm.
Qed.

(** X8.  [rotate_by] on a [RectShape] or an [EllipseShape] writes the angle
    only: the stored angle ends in [0, 360), the handles' pivot (the "move"
    handle) stays where it was, two rotations are one rotation by the sum,
    and rotating back restores the shape when its angle was already in
    [0, 360). *)
Theorem stored_angle_rotation (sh : Shape) (d e : R) :
  is_rect_or_ellipse sh = true ->
  0 <= angle (rotate_by sh d) < 360 /\
  hd_error (handles (rotate_by sh d)) = hd_error (handles sh) /\
  rotate_by (rotate_by sh d) e = rotate_by sh (d + e) /\
  (0 <= angle sh < 360 -> rotate_by (rotate_by sh d) (- d) = sh).
Proof.
  intros Hre.
  destruct sh as [s|s|s|s|s|s|s|s|s]; try discriminate Hre.
  - destruct s as [[x0 y0] [x1 y1] col wid fe fc fo a].
    split; [apply mod_range; lra|].
    split.
    { unfold handles, rotate_by, RectShape.handles, RectShape.rotate_by,
        RectShape.center.
      cbn [RectShape.p0 RectShape.p1 RectShape.angle RectShape.set_angle
           fst snd].
      do 2 destruct (rotate_point _ _ _ _ _). reflexivity. }
    split.
    + open_methods. rewrite mod_mod_add by lra.
      do 2 f_equal. f_equal. lra.
    + cbn [angle RectShape.angle]. intros Ha. open_methods.
      rewrite mod_mod_add by lra.
      replace (a + d + - d) with a by lra.
      rewrite mod_small by exact Ha. reflexivity.
  - destruct s as [cx cy rx ry col wid fe fc fo a].
    split; [apply mod_range; lra|].
    split.
    { unfold handles, rotate_by, EllipseShape.handles,
        EllipseShape.rotate_by.
      cbn [EllipseShape.cx EllipseShape.cy EllipseShape.angle
           EllipseShape.set_angle].
      do 2 destruct (rotate_point _ _ _ _ _). reflexivity. }
    split.
    + open_methods. rewrite mod_mod_add by lra.
      do 2 f_equal. f_equal. lra.
    + cbn [angle EllipseShape.angle]. intros Ha. open_methods.
      rewrite mod_mod_add by lra.
      replace (a + d + - d) with a by lra.
      rewrite mod_small by exact Ha. reflexivity.
Qed.

Lemma stored_angle_rotation_witness :
  let r := SRectShape (RectShape.init (0, 0) (10, 10) "black" 2 false
                         "gray" 1 0) in
  rotate_by (rotate_by r 90) (- 90) = r.
Proof.
  cbv zeta.
  refine (proj2 (proj2 (proj2
            (stored_angle_rotation
               (SRectShape (RectShape.init (0, 0) (10, 10) "black" 2 false
                              "gray" 1 0)) 90 0 eq_refl))) _).
  cbn [angle RectShape.angle RectShape.init]. lra.
Defined.

(** X9.  Both rotations of an [ArcShape] leave center and radius alone, store
    angles in [0, 360) and keep the angular span [end - start] modulo 360;
    [rotate_by] adds up, and [rotate_to] puts the start angle at the target
    modulo 360. *)
Theorem arc_rotation_keeps_span (s : ArcShape.t) (d e : R) :
  let span (a : ArcShape.t) :=
    Py.mod_ (ArcShape.end_angle a - ArcShape.start_angle a) 360 in
  (span (ArcShape.rotate_by s d) = span s /\
   span (ArcShape.rotate_to s d) = span s) /\
  (0 <= ArcShape.start_angle (ArcShape.rotate_by s d) < 360 /\
   0 <= ArcShape.end_angle (ArcShape.rotate_by s d) < 360 /\
   0 <= ArcShape.start_angle (ArcShape.rotate_to s d) < 360 /\
   0 <= ArcShape.end_angle (ArcShape.rotate_to s d) < 360) /\
  ArcShape.start_angle (ArcShape.rotate_to s d) = Py.mod_ d 360 /\
  ArcShape.rotate_by (ArcShape.rotate_by s d) e = ArcShape.rotate_by s (d + e) /\
  (ArcShape.center (ArcShape.rotate_by s d) = ArcShape.center s /\
   ArcShape.radius (ArcShape.rotate_by s d) = ArcShape.radius s /\
   ArcShape.center (ArcShape.rotate_to s d) = ArcShape.center s /\
   ArcShape.radius (ArcShape.rotate_to s d) = ArcShape.radius s).
Proof.
  destruct s as [ctr rad sa ea col wid fe fc fo].
  cbv zeta. open_methods.
  split; [split|].
  - rewrite mod_difference by lra. f_equal. lra.
  - rewrite mod_difference by lra.
    replace (ea + Py.mod_ (d - sa) 360 - d)
      with (Py.mod_ (d - sa) 360 + (ea - d)) by lra.
    rewrite mod_mod_add by lra. f_equal. lra.
  - split; [repeat split; apply mod_range; lra|].
    split; [reflexivity|]. split; [|repeat split].
    rewrite !mod_mod_add by lra. do 2 f_equal; lra.
Qed.

End Rotation.

(** Equality of two records, field by field, with [tac] for the real
    numbers. *)
Ltac fieldwise_by tac :=
  lazymatch goal with
  | |- @eq R _ _ => tac
  | |- ?x = ?x => reflexivity
  | |- (_ :: _) = (_ :: _) => apply (f_equal2 (@cons _)); fieldwise_by tac
  | |- (_, _) = (_, _) => apply (f_equal2 (@pair _ _)); fieldwise_by tac
  | |- _ => first [reflexivity | progress f_equal; fieldwise_by tac]
  end.

Section PathRotation.

Lemma line_rotate_by_eq (s : LineSeg.t) (d : R) :
  LineSeg.rotate_by s d =
    LineSeg.set_p1
      (LineSeg.set_p0 s
         (rotate_point (fst (LineSeg.p0 s)) (snd (LineSeg.p0 s))
            (fst (LineSeg.center s)) (snd (LineSeg.center s)) d))
      (rotate_point (fst (LineSeg.p1 s)) (snd (LineSeg.p1 s))
         (fst (LineSeg.center s)) (snd (LineSeg.center s)) d).
Proof. unfold LineSeg.rotate_by. destruct (LineSeg.center s). reflexivity. Qed.

Lemma line_rotate_center (s : LineSeg.t) (d : R) :
  LineSeg.center (LineSeg.rotate_by s d) = LineSeg.center s.
Proof.
  rewrite line_rotate_by_eq.
  destruct s as [[x0 y0] [x1 y1] col wid fe fc fo].
  unfold LineSeg.center, rotate_point.
  cbn [LineSeg.p0 LineSeg.p1 LineSeg.set_p0 LineSeg.set_p1 fst snd].
  f_equal; field.
Qed.

Lemma line_rotate_length (s : LineSeg.t) (d : R) :
  distance (LineSeg.p0 (LineSeg.rotate_by s d))
    (LineSeg.p1 (LineSeg.rotate_by s d))
  = distance (LineSeg.p0 s) (LineSeg.p1 s).
Proof.
  rewrite line_rotate_by_eq.
  destruct s as [[x0 y0] [x1 y1] col wid fe fc fo].
  unfold LineSeg.center, rotate_point, distance, Py.hypot.
  cbn [LineSeg.p0 LineSeg.p1 LineSeg.set_p0 LineSeg.set_p1 fst snd].
  set (s := sin (Py.radians d)). set (c := cos (Py.radians d)).
  pose proof (sin_cos_unit (Py.radians d)) as H. fold s c in H.
  f_equal.
  match goal with
  | |- ?lhs = _ =>
      replace lhs
        with (((x0 - x1) * (x0 - x1) + (y0 - y1) * (y0 - y1))
              * (s * s + c * c)) by field
  end.
  rewrite H. ring.
Qed.

Lemma line_rotate_twice (s : LineSeg.t) (d e : R) :
  LineSeg.rotate_by (LineSeg.rotate_by s d) e = LineSeg.rotate_by s (d + e).
Proof.
  rewrite (line_rotate_by_eq (LineSeg.rotate_by s d) e), line_rotate_center.
  rewrite !line_rotate_by_eq.
  cbn [LineSeg.p0 LineSeg.p1 LineSeg.set_p0 LineSeg.set_p1].
  rewrite !(rotate_point_twice _ _ _ _ d e).
  reflexivity.
Qed.

Lemma rotate_point_zero (px py cx cy : R) :
  rotate_point px py cx cy 0 = (px, py).
Proof.
  unfold rotate_point, Py.radians.
  replace (0 * PI / 180) with 0 by lra.
  rewrite sin_0, cos_0. f_equal; ring.
Qed.

Lemma line_rotate_zero (s : LineSeg.t) : LineSeg.rotate_by s 0 = s.
Proof.
  rewrite line_rotate_by_eq, !rotate_point_zero.
  destruct s as [[x0 y0] [x1 y1] col wid fe fc fo]. reflexivity.
Qed.

Lemma quad_rotate_by_eq (s : QuadBezier.t) (d : R) :
  QuadBezier.rotate_by s d =
    let pivot := QuadBezier.centroid s in
    let turn (p : Point) :=
      rotate_point (fst p) (snd p) (fst pivot) (snd pivot) d in
    QuadBezier.set_c
      (QuadBezier.set_p1
         (QuadBezier.set_p0 s (turn (QuadBezier.p0 s)))
         (turn (QuadBezier.p1 s)))
      (turn (QuadBezier.c s)).
Proof.
  unfold QuadBezier.rotate_by. destruct (QuadBezier.centroid s). reflexivity.
Qed.

Lemma quad_rotate_centroid (s : QuadBezier.t) (d : R) :
  QuadBezier.centroid (QuadBezier.rotate_by s d) = QuadBezier.centroid s.
Proof.
  rewrite quad_rotate_by_eq.
  destruct s as [[x0 y0] [x1 y1] [xc yc] col wid fe fc fo].
  unfold QuadBezier.centroid, rotate_point.
  cbn [QuadBezier.p0 QuadBezier.p1 QuadBezier.c QuadBezier.set_p0
       QuadBezier.set_p1 QuadBezier.set_c fst snd].
  f_equal; field.
Qed.

Lemma quad_rotate_twice (s : QuadBezier.t) (d e : R) :
  QuadBezier.rotate_by (QuadBezier.rotate_by s d) e
  = QuadBezier.rotate_by s (d + e).
Proof.
  rewrite (quad_rotate_by_eq (QuadBezier.rotate_by s d) e),
    quad_rotate_centroid.
  rewrite !quad_rotate_by_eq. cbv beta zeta.
  cbn [QuadBezier.p0 QuadBezier.p1 QuadBezier.c QuadBezier.set_p0
       QuadBezier.set_p1 QuadBezier.set_c].
  rewrite !(rotate_point_twice _ _ _ _ d e).
  reflexivity.
Qed.

Lemma quad_rotate_zero (s : QuadBezier.t) : QuadBezier.rotate_by s 0 = s.
Proof.
  rewrite quad_rotate_by_eq. cbv beta zeta. rewrite !rotate_point_zero.
  destruct s as [[x0 y0] [x1 y1] [xc yc] col wid fe fc fo]. reflexivity.
Qed.

(** X10.  [rotate_by] on a line, an arrow or a curve turns the points about the
    centroid computed at the call.  The centroid stays where it was, so
    successive rotations share one pivot: they add up, and rotating back
    restores every point.  The length of a line is kept. *)
Theorem path_rotation (l : LineSeg.t) (q : QuadBezier.t) (d e : R) :
  (LineSeg.center (LineSeg.rotate_by l d) = LineSeg.center l /\
   distance (LineSeg.p0 (LineSeg.rotate_by l d))
     (LineSeg.p1 (LineSeg.rotate_by l d))
   = distance (LineSeg.p0 l) (LineSeg.p1 l) /\
   LineSeg.rotate_by (LineSeg.rotate_by l d) e = LineSeg.rotate_by l (d + e) /\
   LineSeg.rotate_by (LineSeg.rotate_by l d) (- d) = l) /\
  (QuadBezier.centroid (QuadBezier.rotate_by q d) = QuadBezier.centroid q /\
   QuadBezier.rotate_by (QuadBezier.rotate_by q d) e
   = QuadBezier.rotate_by q (d + e) /\
   QuadBezier.rotate_by (QuadBezier.rotate_by q d) (- d) = q).
Proof.
  split.
  - split; [apply line_rotate_center|].
    split; [apply line_rotate_length|].
    split; [apply line_rotate_twice|].
    rewrite line_rotate_twice. replace (d + - d) with 0 by lra.
    apply line_rotate_zero.
  - split; [apply quad_rotate_centroid|].
    split; [apply quad_rotate_twice|].
    rewrite quad_rotate_twice. replace (d + - d) with 0 by lra.
    apply quad_rotate_zero.
Qed.

Lemma rotate_point_shift (px py cx cy d dx dy : R) :
  rotate_point (px + dx) (py + dy) (cx + dx) (cy + dy) d
  = (fst (rotate_point px py cx cy d) + dx,
     snd (rotate_point px py cx cy d) + dy).
Proof. unfold rotate_point. cbn [fst snd]. f_equal; ring. Qed.

(** X11.  Moving and rotating commute, for every class: a shape rotated and then
    moved is the shape moved and then rotated. *)
Theorem move_rotate_commute (sh : Shape) (d dx dy : R) :
  move_by (rotate_by sh d) dx dy = rotate_by (move_by sh dx dy) d.
Proof.
  destruct sh as [s|s|s|s|s|s|s|s|s]; try reflexivity.
  - cbn [move_by rotate_by]. f_equal.
    rewrite !line_rotate_by_eq.
    destruct s as [[x0 y0] [x1 y1] col wid fe fc fo].
    unfold LineSeg.move_by, LineSeg.center.
    cbn [LineSeg.p0 LineSeg.p1 LineSeg.set_p0 LineSeg.set_p1 fst snd].
    replace ((x0 + dx + (x1 + dx)) / 2) with ((x0 + x1) / 2 + dx) by lra.
    replace ((y0 + dy + (y1 + dy)) / 2) with ((y0 + y1) / 2 + dy) by lra.
    rewrite !rotate_point_shift. reflexivity.
  - cbn [move_by rotate_by]. f_equal.
    rewrite !line_rotate_by_eq.
    destruct s as [[x0 y0] [x1 y1] col wid fe fc fo].
    unfold LineSeg.move_by, LineSeg.center.
    cbn [LineSeg.p0 LineSeg.p1 LineSeg.set_p0 LineSeg.set_p1 fst snd].
    replace ((x0 + dx + (x1 + dx)) / 2) with ((x0 + x1) / 2 + dx) by lra.
    replace ((y0 + dy + (y1 + dy)) / 2) with ((y0 + y1) / 2 + dy) by lra.
    rewrite !rotate_point_shift. reflexivity.
  - cbn [move_by rotate_by]. f_equal.
    rewrite !quad_rotate_by_eq. cbv beta zeta.
    destruct s as [[x0 y0] [x1 y1] [xc yc] col wid fe fc fo].
    unfold QuadBezier.move_by, QuadBezier.centroid.
    cbn [QuadBezier.p0 QuadBezier.p1 QuadBezier.c QuadBezier.set_p0
         QuadBezier.set_p1 QuadBezier.set_c fst snd].
    replace ((x0 + dx + (x1 + dx) + (xc + dx)) / 3)
      with ((x0 + x1 + xc) / 3 + dx) by lra.
    replace ((y0 + dy + (y1 + dy) + (yc + dy)) / 3)
      with ((y0 + y1 + yc) / 3 + dy) by lra.
    rewrite !rotate_point_shift. reflexivity.
Qed.

End PathRotation.

Section HandleProtocol.

(** A circle whose radius is not negative (every other class passes). *)
Definition radius_ok (sh : Shape) : Prop :=
  match sh with
  | SCircleShape s => 0 <= CircleShape.radius s
  | _ => True
  end.

Lemma distance_along_x (cx cy r : R) :
  distance (cx, cy) (cx + r, cy) = Rabs r.
Proof.
  unfold distance, Py.hypot. cbn [fst snd].
  replace ((cx - (cx + r)) * (cx - (cx + r)) + (cy - cy) * (cy - cy))
    with (r * r) by ring.
  apply sqrt_Rsqr_abs.
Qed.

Ltac pick_handle H :=
  repeat match type of H with
         | _ \/ _ => destruct H as [H|H]
         | False => destruct H
         end;
  try discriminate H.

(** X12.  Dragging a handle to the place where it already is changes nothing:
    for every handle that [handles] lists, other than the two angle handles
    of an arc, [on_handle_drag] with that handle's kind and position
    returns the shape as it was (for the "radius" handle, of a circle whose
    radius is not negative). *)
Theorem drag_handle_in_place (sh : Shape) (x y : R) (kind : string) :
  In (x, y, kind) (handles sh) ->
  kind <> "start"%string -> kind <> "end"%string ->
  radius_ok sh ->
  on_handle_drag sh kind x y = sh.
Proof.
  intros Hin Hs He Hr.
  destruct sh as [s|s|s|s|s|s|s|s|s].
  - destruct s as [[x0 y0] [x1 y1] col wid fe fc fo].
    cbn in Hin. pick_handle Hin; injection Hin as <- <- <-; reflexivity.
  - destruct s as [[x0 y0] [x1 y1] col wid fe fc fo].
    cbn in Hin. pick_handle Hin; injection Hin as <- <- <-; reflexivity.
  - destruct s as [[x0 y0] [x1 y1] [xc yc] col wid fe fc fo].
    cbn in Hin. pick_handle Hin; injection Hin as <- <- <-; reflexivity.
  - reflexivity.
  - reflexivity.
  - destruct s as [[cx cy] r col wid fe fc fo].
    cbn in Hin, Hr. pick_handle Hin; injection Hin as <- <- <-;
      try reflexivity.
    unfold on_handle_drag, CircleShape.on_handle_drag.
    cbn [String.eqb Ascii.eqb Bool.eqb CircleShape.center
         CircleShape.radius CircleShape.set_radius].
    rewrite distance_along_x, (Rabs_right r) by lra.
    unfold Py.max. destruct (Rlt_dec 0 r); [reflexivity|].
    replace r with 0 by lra. reflexivity.
  - destruct s as [[cx cy] r col wid fe fc fo].
    cbn in Hin. pick_handle Hin; injection Hin as <- <- <-; reflexivity.
  - destruct s as [[px py] txt sz col].
    cbn in Hin. pick_handle Hin; injection Hin as <- <- <-; reflexivity.
  - destruct s as [[cx cy] r sa ea col wid fe fc fo].
    cbn in Hin. pick_handle Hin; injection Hin as <- <- <-;
      try reflexivity; contradiction.
Qed.

Lemma drag_handle_in_place_witness :
  let c := SCircleShape (CircleShape.init (0, 0) 5 "black" 2 false
                           "gray" 1) in
  on_handle_drag c "radius" (0 + 5) 0 = c.
Proof.
  cbv zeta.
  apply (drag_handle_in_place
           (SCircleShape (CircleShape.init (0, 0) 5 "black" 2 false
                            "gray" 1)) (0 + 5) 0 "radius").
  - cbn. right. left. reflexivity.
  - discriminate.
  - discriminate.
  - cbn. lra.
Defined.

End HandleProtocol.

Section ArcHandles.

Lemma atan_ratio (r s c x : R) :
  0 < r -> c <> 0 -> sin x = s -> cos x = c ->
  - (PI / 2) < x < PI / 2 ->
  atan (r * s / (r * c)) = x.
Proof.
  intros Hr Hc Hs Hc' Hx.
  replace (r * s / (r * c)) with (tan x).
  - apply atan_tan, Hx.
  - unfold tan. rewrite Hs, Hc'. field. split; lra.
Qed.

(** [atan2] gives back the angle of a point written in polar form. *)
Lemma atan2_polar (r th : R) :
  0 < r -> - PI < th <= PI ->
  Py.atan2 (r * sin th) (r * cos th) = th.
Proof.
  intros Hr [Hlo Hhi]. pose proof PI_RGT_0 as Hpi.
  unfold Py.atan2.
  destruct (Rtotal_order th (PI / 2)) as [Hlt|[Heq|Hgt]].
  - destruct (Rtotal_order th (- (PI / 2))) as [Hlt'|[Heq'|Hgt']].
    + (* below -PI/2 *)
      assert (Hc : cos th < 0).
      { rewrite <- cos_neg. apply cos_lt_0; lra. }
      assert (Hs : sin th < 0) by (apply sin_lt_0_var; lra).
      assert (r * cos th < 0) by nra. assert (r * sin th < 0) by nra.
      destruct (Rlt_dec 0 (r * cos th)) as [F|_]; [lra|].
      destruct (Rlt_dec (r * cos th) 0) as [_|F]; [|lra].
      destruct (Rle_dec 0 (r * sin th)) as [F|_]; [lra|].
      pose proof (neg_sin th) as H1. pose proof (neg_cos th) as H2.
      replace (r * sin th / (r * cos th))
        with (r * sin (th + PI) / (r * cos (th + PI))).
      * rewrite (atan_ratio r (sin (th + PI)) (cos (th + PI)) (th + PI));
          try lra; reflexivity.
      * rewrite H1, H2. field. split; lra.
    + (* -PI/2 *)
      subst th. rewrite cos_neg, sin_neg, cos_PI2, sin_PI2.
      destruct (Rlt_dec 0 (r * 0)) as [F|_]; [lra|].
      destruct (Rlt_dec (r * 0) 0) as [F|_]; [lra|].
      destruct (Rlt_dec 0 (r * - (1))) as [F|_]; [lra|].
      destruct (Rlt_dec (r * - (1)) 0) as [_|F]; [reflexivity|lra].
    + (* between *)
      assert (Hc : 0 < cos th) by (apply cos_gt_0; lra).
      assert (0 < r * cos th) by nra.
      destruct (Rlt_dec 0 (r * cos th)) as [_|F]; [|lra].
      apply atan_ratio; try lra; reflexivity.
  - subst th. rewrite cos_PI2, sin_PI2.
    destruct (Rlt_dec 0 (r * 0)) as [F|_]; [lra|].
    destruct (Rlt_dec (r * 0) 0) as [F|_]; [lra|].
    destruct (Rlt_dec 0 (r * 1)) as [_|F]; [reflexivity|lra].
  - (* above PI/2 *)
    assert (Hc : cos th < 0) by (apply cos_lt_0; lra).
    assert (Hs : 0 <= sin th) by (apply sin_ge_0; lra).
    assert (r * cos th < 0) by nra. assert (0 <= r * sin th) by nra.
    destruct (Rlt_dec 0 (r * cos th)) as [F|_]; [lra|].
    destruct (Rlt_dec (r * cos th) 0) as [_|F]; [|lra].
    destruct (Rle_dec 0 (r * sin th)) as [_|F]; [|lra].
    pose proof (neg_sin (th - PI)) as H1. pose proof (neg_cos (th - PI)) as H2.
    replace (th - PI + PI) with th in H1, H2 by lra.
    replace (r * sin th / (r * cos th))
      with (r * sin (th - PI) / (r * cos (th - PI))).
    + rewrite (atan_ratio r (sin (th - PI)) (cos (th - PI)) (th - PI));
        try lra; reflexivity.
    + rewrite H1, H2. field. split; lra.
Qed.

Lemma degrees_radians (a : R) : Py.degrees (Py.radians a) = a.
Proof. unfold Py.degrees, Py.radians. field. apply PI_neq0. Qed.

Lemma arc_angle_recovered (cx cy r a : R) :
  0 < r -> 0 <= a < 360 ->
  Py.mod_
    (Py.degrees
       (Py.atan2 (cy + r * sin (Py.radians a) - cy)
          (cx + r * cos (Py.radians a) - cx))) 360 = a.
Proof.
  intros Hr [Ha0 Ha1]. pose proof PI_RGT_0 as Hpi.
  replace (cy + r * sin (Py.radians a) - cy) with (r * sin (Py.radians a))
    by ring.
  replace (cx + r * cos (Py.radians a) - cx) with (r * cos (Py.radians a))
    by ring.
  destruct (Rle_dec a 180) as [Hle|Hgt].
  - rewrite atan2_polar.
    + rewrite degrees_radians. apply mod_small. lra.
    + exact Hr.
    + unfold Py.radians. split.
      * assert (0 <= a * PI / 180) by (unfold Rdiv; nra). lra.
      * assert (a * PI <= 180 * PI) by nra. lra.
  - set (th := Py.radians a - 2 * PI).
    assert (Hs : sin (Py.radians a) = sin th).
    { unfold th. rewrite sin_minus, sin_2PI, cos_2PI. ring. }
    assert (Hc : cos (Py.radians a) = cos th).
    { unfold th. rewrite cos_minus, sin_2PI, cos_2PI. ring. }
    rewrite Hs, Hc, atan2_polar.
    + assert (Hd : Py.degrees th = a + IZR (-1) * 360).
      { unfold th, Py.degrees, Py.radians. field. apply PI_neq0. }
      rewrite Hd, mod_add_multiple by lra. apply mod_small. lra.
    + exact Hr.
    + unfold th, Py.radians. split.
      * assert (180 * PI < a * PI) by nra. lra.
      * assert (a * PI < 360 * PI) by nra. lra.
Qed.

(** X13.  For an arc of positive radius whose angles are in [0, 360), dragging
    any of its handles to the place where that handle already is changes
    nothing: the "start" and "end" handles read back, through [atan2], the
    angle they were drawn at. *)
Theorem arc_handle_in_place (s : ArcShape.t) (x y : R) (kind : string) :
  0 < ArcShape.radius s ->
  0 <= ArcShape.start_angle s < 360 ->
  0 <= ArcShape.end_angle s < 360 ->
  In (x, y, kind) (ArcShape.handles s) ->
  ArcShape.on_handle_drag s kind x y = s.
Proof.
  destruct s as [[cx cy] r sa ea col wid fe fc fo].
  cbn [ArcShape.radius ArcShape.start_angle ArcShape.end_angle].
  intros Hr Hsa Hea Hin.
  unfold ArcShape.handles in Hin.
  cbn [ArcShape.center ArcShape.radius ArcShape.start_angle
       ArcShape.end_angle In] in Hin.
  destruct Hin as [H|[H|[H|[]]]]; injection H as <- <- <-.
  - reflexivity.
  - unfold ArcShape.on_handle_drag.
    cbn [ArcShape.center String.eqb Ascii.eqb Bool.eqb
         ArcShape.set_start_angle ArcShape.radius ArcShape.start_angle
         ArcShape.end_angle ArcShape.color ArcShape.width
         ArcShape.fill_enabled ArcShape.fill_color ArcShape.fill_opacity].
    rewrite arc_angle_recovered by assumption. reflexivity.
  - unfold ArcShape.on_handle_drag.
    cbn [ArcShape.center String.eqb Ascii.eqb Bool.eqb
         ArcShape.set_end_angle ArcShape.radius ArcShape.start_angle
         ArcShape.end_angle ArcShape.color ArcShape.width
         ArcShape.fill_enabled ArcShape.fill_color ArcShape.fill_opacity].
    rewrite arc_angle_recovered by assumption. reflexivity.
Qed.

Lemma arc_handle_in_place_witness :
  let a := ArcShape.init (0, 0) 10 0 90 "black" 2 false "gray" 1 in
  ArcShape.on_handle_drag a "end"
    (0 + 10 * cos (Py.radians 90)) (0 + 10 * sin (Py.radians 90)) = a.
Proof.
  cbv zeta.
  apply (arc_handle_in_place
           (ArcShape.init (0, 0) 10 0 90 "black" 2 false "gray" 1)).
  - cbn. lra.
  - cbn. lra.
  - cbn. lra.
  - unfold ArcShape.handles. cbn. right. right. left. reflexivity.
Defined.

(** The "start" and "end" handles of an arc lie on its circle: at the
    radius (in absolute value) from the center. *)
Lemma arc_handles_on_circle (s : ArcShape.t) (x y : R) (kind : string) :
  In (x, y, kind) (ArcShape.handles s) ->
  kind <> "move"%string ->
  distance (x, y) (ArcShape.center s) = Rabs (ArcShape.radius s).
Proof.
  destruct s as [[cx cy] r sa ea col wid fe fc fo].
  unfold ArcShape.handles.
  cbn [ArcShape.center ArcShape.radius ArcShape.start_angle
       ArcShape.end_angle In].
  intros [H|[H|[H|[]]]] Hk; injection H as <- <- <-.
  - contradiction.
  - apply circle_sample_distance.
  - apply circle_sample_distance.
Qed.

End ArcHandles.

(** * More of the editor: pressing, releasing, hit testing, undo-to *)

Module Cursor.

Import TikzDesigner.

(** [_shape_center]: a chain of [isinstance] tests.  [Dot] is a
    [CircleShape] and [Arrow] is a [LineSeg]; a [TextNode] or an
    [ArcShape] falls through to [(0, 0)]. *)
Definition _shape_center (shape : Shape) : Point :=
  match shape with
  | SRectShape s => RectShape.center s
  | SEllipseShape s => (EllipseShape.cx s, EllipseShape.cy s)
  | SCircleShape s | SDot s => CircleShape.center s
  | SLineSeg s | SArrow s =>
      ((fst (LineSeg.p0 s) + fst (LineSeg.p1 s)) / 2,
       (snd (LineSeg.p0 s) + snd (LineSeg.p1 s)) / 2)
  | SQuadBezier s =>
      ((fst (QuadBezier.p0 s) + fst (QuadBezier.p1 s)
        + fst (QuadBezier.c s)) / 3,
       (snd (QuadBezier.p0 s) + snd (QuadBezier.p1 s)
        + snd (QuadBezier.c s)) / 3)
  | STextNode _ | SArcShape _ => (0, 0)
  end.

(** Write the selection, the five drag registers and the status line. *)
Definition set_cursor (st : t) (selected' : option (Ref * list Handle))
    (mode' active' : option string) (drag_start' : option Point)
    (base' : option R) (center' : option Point) (status' : string) : t :=
  {| tool := tool st; snap_enabled := snap_enabled st;
     grid_step := grid_step st; store := store st;
     shapes := shapes st; actions := actions st; selected := selected';
     _cursor_mode := mode'; _active_handle := active';
     _drag_start := drag_start';
     _rotate_base_angle := base';
     _rotate_center := center';
     status := status' |}.

Definition on_release (st : t) : t :=
  if String.eqb (tool st) "cursor"
  then set_cursor st (selected st) None None None None None (status st)
  else st.

(** [_shape_at]: the document is searched from its last shape down for one
    with a canvas item among those overlapping the 7 by 7 box around the
    point.  [hit shape] is that canvas test, which is the canvas's to
    answer. *)
Definition _shape_at (st : t) (hit : Ref -> bool) : option Ref :=
  find hit (rev (shapes st)).

(** The loop of [_cursor_down] over the handles: the least distance seen
    so far and the first handle at that distance, from [(9999, None)]. *)
Definition closest_handle (x y : R) (hs : list Handle)
    : R * option Handle :=
  fold_left
    (fun (acc : R * option Handle) (h : Handle) =>
       let d := distance (x, y) (fst (fst h), snd (fst h)) in
       if Rlt_dec d (fst acc) then (d, Some h) else acc)
    hs (9999, None).

(** What [_cursor_down] does when no handle of the selection is grabbed. *)
Definition select_at (st : t) (hit : Ref -> bool) (x y : R) : t :=
  match _shape_at st hit with
  | Some shp =>
      set_cursor st (Some (shp, handles (store st shp)))
        (Some "move"%string) (_active_handle st) (Some (x, y))
        (_rotate_base_angle st) (_rotate_center st)
        "Selected. Drag to move; drag round handle to rotate; press Del to delete selection."
  | None =>
      set_cursor st None
        (_cursor_mode st) (_active_handle st) (_drag_start st)
        (_rotate_base_angle st) (_rotate_center st)
        "No shape under cursor. Select a tool to draw or click a shape to edit."
  end.

Definition _cursor_down (st : t) (hit : Ref -> bool) (x y : R) : t :=
  match selected st with
  | Some (shape, _) =>
      match closest_handle x y (handles (store st shape)) with
      | (min_d, Some (hx, hy, kind)) =>
          if Rle_dec min_d 10 then
            if String.eqb kind "rotate" then
              let c := _shape_center (store st shape) in
              set_cursor st (selected st)
                (Some "rotate"%string) (_active_handle st) (_drag_start st)
                (Some (Py.degrees (Py.atan2 (y - snd c) (x - fst c))))
                (Some c) (status st)
            else if String.eqb kind "move" then
              set_cursor st (selected st)
                (Some "move"%string) (_active_handle st) (Some (x, y))
                (_rotate_base_angle st) (_rotate_center st) (status st)
            else
              set_cursor st (selected st)
                (Some "handle"%string) (Some kind) (_drag_start st)
                (_rotate_base_angle st) (_rotate_center st) (status st)
          else select_at st hit x y
      | (_, None) => select_at st hit x y
      end
  | None => select_at st hit x y
  end.

(** [on_click] with the cursor tool: snap the pointer, then
    [_cursor_down]. *)
Definition on_click_cursor (st : t) (hit : Ref -> bool) (ex ey : Z)
    : option t :=
  match snap_event st ex ey with
  | None => None
  | Some (x, y) => Some (_cursor_down st hit x y)
  end.

(** The [while len(self.actions) > target_len: self.undo()] loop of
    [undo_to_selected], with a bound on the number of iterations: [None]
    when the bound is reached with the loop still running. *)
Fixpoint undo_loop (fuel : nat) (target_len : Z) (st : t) : option t :=
  if (target_len <? Z.of_nat (List.length (actions st)))%Z then
    match fuel with
    | O => None
    | S fuel' => undo_loop fuel' target_len (undo st)
    end
  else Some st.

(** [undo_to_selected]; [sel] is the list box selection.  The message
    boxes are not modelled. *)
Definition undo_to_selected (fuel : nat) (st : t) (sel : list Z)
    : option t :=
  match sel with
  | [] => Some st
  | target_index :: _ =>
      let target_len := (target_index + 1)%Z in
      if (Z.of_nat (List.length (actions st)) <=? target_len)%Z
      then Some st
      else undo_loop fuel target_len st
  end.

(** Creating a shape object and handing it to [_add_shape], as every
    drawing tool does on its last click: [r] is the new object. *)
Definition commit (st : t) (r : Ref) (obj : Shape) : t :=
  let st := set_drag st (store_set (store st) r obj) (_drag_start st)
              (_rotate_base_angle st) in
  _add_shape st r.

End Cursor.

(** Take apart every [match] of the goal on a variable or a projection,
    one at a time, closing the branches that [tac] closes. *)
Ltac split_matches tac :=
  repeat (match goal with
          | |- context [match ?x with _ => _ end] => destruct x
          end; try tac).

Section DragFrames.

Import TikzDesigner.

(** A drag frame returns the editor as it was, or the editor with a new
    value for the selected object and with drag registers that are the old
    ones or hold a value. *)
Lemma on_drag_result (st st' : t) (ex ey : Z) :
  on_drag st ex ey = Some st' ->
  st' = st \/
  exists (r : Ref) (hs : list Handle) (v : Shape) (ds : option Point)
         (b : option R),
    selected st = Some (r, hs) /\
    st' = set_drag st (store_set (store st) r v) ds b /\
    (ds = _drag_start st \/ ds <> None) /\
    (b = _rotate_base_angle st \/ b <> None).
Proof.
  unfold on_drag.
  destruct (negb (tool st =? "cursor")%string);
    [intros H; injection H as <-; now left|].
  destruct (selected st) as [[r hs]|];
    [|intros H; injection H as <-; now left].
  destruct (snap_event st ex ey) as [[x y]|]; [|discriminate].
  assert (Hgo : forall v ds b,
             ds = _drag_start st \/ ds <> None ->
             b = _rotate_base_angle st \/ b <> None ->
             Some (set_drag st (store_set (store st) r v) ds b) = Some st' ->
             st' = st \/
             exists r0 hs0 v0 ds0 b0,
               Some (r, hs) = Some (r0, hs0) /\
               st' = set_drag st (store_set (store st) r0 v0) ds0 b0 /\
               (ds0 = _drag_start st \/ ds0 <> None) /\
               (b0 = _rotate_base_angle st \/ b0 <> None)).
  { intros v ds b Hds Hb H. injection H as <-. right.
    exists r, hs, v, ds, b. repeat split; assumption. }
  split_matches
    ltac:(solve [ intros H;
                  first [ discriminate H
                        | injection H as <-; now left
                        | apply (fun a b => Hgo _ _ _ a b H);
                          first [ left; congruence
                                | right; discriminate ] ] ]).
Qed.

(** X15.  A drag frame records nothing and reselects nothing: the document, the
    history, the selection, the tool and the snap settings are as before,
    and every object other than the selected one is untouched.  With no
    selection, or with a tool other than the cursor, the frame changes
    nothing at all. *)
Theorem drag_touches_selected_only (st st' : t) (ex ey : Z) :
  on_drag st ex ey = Some st' ->
  shapes st' = shapes st /\ actions st' = actions st /\
  selected st' = selected st /\ tool st' = tool st /\
  snap_enabled st' = snap_enabled st /\ grid_step st' = grid_step st /\
  status st' = status st /\
  (forall r' : Ref,
      (forall hs, selected st <> Some (r', hs)) ->
      store st' r' = store st r') /\
  (selected st = None \/ tool st <> "cursor"%string -> st' = st).
Proof.
  intros H.
  assert (Hidle : selected st = None \/ tool st <> "cursor"%string ->
                  st' = st).
  { intros [Hn|Ht]; unfold on_drag in H.
    - destruct (negb (tool st =? "cursor")%string);
        [now injection H as <-|].
      rewrite Hn in H. now injection H as <-.
    - destruct (String.eqb_spec (tool st) "cursor") as [E|_];
        [contradiction|].
      now injection H as <-. }
  destruct (on_drag_result st st' ex ey H)
    as [->|(r & hs & v & ds & b & Hsel & -> & _)].
  - repeat split; auto.
  - repeat split; auto.
    intros r' Hr'. cbn [store set_drag]. unfold store_set.
    destruct (Nat.eqb_spec r' r) as [->|_]; [|reflexivity].
    exfalso. apply (Hr' hs). exact Hsel.
Qed.

Lemma drag_touches_selected_only_witness :
  shapes (set_drag rotating_rect
            (store_set (store rotating_rect) 0%nat
               (rotate_by
                  (rotate_to (store rotating_rect 0%nat)
                     (Py.mod_
                        (350 + (Py.degrees
                                  (Py.atan2 (IZR 15 - 5) (IZR 5 - 5)) - 0))
                        360))
                  (Py.degrees (Py.atan2 (IZR 15 - 5) (IZR 5 - 5)) - 0)))
            None
            (Some (Py.degrees (Py.atan2 (IZR 15 - 5) (IZR 5 - 5)))))
  = [0%nat].
Proof.
  refine (proj1 (drag_touches_selected_only rotating_rect _ 5 15 _)).
  apply (rotate_frame rotating_rect 5 15 0%nat
           (handles (store rotating_rect 0%nat)) 5 5 0 (IZR 5) (IZR 15));
    reflexivity.
Defined.

(** One frame of a move drag. *)
Lemma move_frame (st : t) (ex ey : Z) (r : Ref) (hs : list Handle)
    (sx sy x y : R) :
  tool st = "cursor"%string ->
  selected st = Some (r, hs) ->
  _cursor_mode st = Some "move"%string ->
  _drag_start st = Some (sx, sy) ->
  snap_event st ex ey = Some (x, y) ->
  on_drag st ex ey =
    Some (set_drag st
            (store_set (store st) r (move_by (store st r) (x - sx) (y - sy)))
            (Some (x, y)) (_rotate_base_angle st)).
Proof.
  intros Ht Hsel Hmode Hds Hsnap. unfold on_drag.
  rewrite Ht, Hsel, Hsnap, Hmode, Hds. reflexivity.
Qed.

(** X16.  A move drag follows the pointer: after two frames the selected shape
    has moved by the displacement from the press position to the second
    pointer position, wherever the first frame was. *)
Theorem move_drag_follows_pointer (st : t) (r : Ref) (hs : list Handle)
    (sx sy : R) (ex1 ey1 ex2 ey2 : Z) (x1 y1 x2 y2 : R) :
  tool st = "cursor"%string ->
  selected st = Some (r, hs) ->
  _cursor_mode st = Some "move"%string ->
  _drag_start st = Some (sx, sy) ->
  snap_event st ex1 ey1 = Some (x1, y1) ->
  snap_event st ex2 ey2 = Some (x2, y2) ->
  exists st1 st2 : t,
    on_drag st ex1 ey1 = Some st1 /\
    on_drag st1 ex2 ey2 = Some st2 /\
    store st2 r = move_by (store st r) (x2 - sx) (y2 - sy) /\
    _drag_start st2 = Some (x2, y2).
Proof.
  intros Ht Hsel Hmode Hds H1 H2.
  eexists. eexists. split; [|split].
  - apply (move_frame st ex1 ey1 r hs sx sy x1 y1); assumption.
  - apply (move_frame _ ex2 ey2 r hs x1 y1 x2 y2); try assumption;
      reflexivity.
  - cbn [store set_drag _drag_start]. rewrite !store_set_same.
    split; [|reflexivity].
    rewrite move_by_twice. f_equal; lra.
Qed.

(** A line selected in move mode, pressed at (0, 0), snapping off. *)
Definition moving_line : t :=
  let obj := SLineSeg (LineSeg.init (0, 0) (10, 0) "black" 2 false "gray"
                         1) in
  {| tool := "cursor"; snap_enabled := false; grid_step := 20;
     store := fun _ => obj;
     shapes := [0%nat]; actions := [Add 0%nat 0];
     selected := Some (0%nat, handles obj);
     _cursor_mode := Some "move"%string; _active_handle := None;
     _drag_start := Some (0, 0);
     _rotate_base_angle := None; _rotate_center := None;
     status := EmptyString |}.

Lemma move_drag_follows_pointer_witness :
  exists st1 st2 : t,
    on_drag moving_line 3 4 = Some st1 /\
    on_drag st1 7 1 = Some st2 /\
    store st2 0%nat = move_by (store moving_line 0%nat) (IZR 7 - 0) (IZR 1 - 0) /\
    _drag_start st2 = Some (IZR 7, IZR 1).
Proof.
  apply (move_drag_follows_pointer moving_line 0%nat
           (handles (store moving_line 0%nat)) 0 0 3 4 7 1
           (IZR 3) (IZR 4) (IZR 7) (IZR 1)); reflexivity.
Defined.

End DragFrames.

Section MoreHistory.

Import TikzDesigner.
Import Cursor.

(** What undoing the record [a] makes of the document [doc]. *)
Definition undone (a : Action) (doc : list Ref) : list Ref :=
  match a with
  | Add shp _ => without shp doc
  | Remove shp None => doc ++ [shp]
  | Remove shp (Some i) =>
      if (i <? 0)%Z || (Z.of_nat (List.length doc) <? i)%Z
      then doc ++ [shp]
      else Py.list_insert (Z.to_nat i) shp doc
  | Clear prev => prev
  | Other _ => doc
  end.

Lemma last_record {A : Type} (l : list A) :
  l = [] \/ exists rest a, l = rest ++ [a].
Proof.
  induction l as [|a rest _] using rev_ind; [now left|right].
  exists rest, a. reflexivity.
Qed.

Lemma undo_nonempty (st : t) (rest : list Action) (a : Action) :
  actions st = rest ++ [a] ->
  actions (undo st) = rest /\
  shapes (undo st) = undone a (shapes st) /\
  selected (undo st) = None /\
  store (undo st) = store st /\
  tool (undo st) = tool st /\
  snap_enabled (undo st) = snap_enabled st /\
  grid_step (undo st) = grid_step st /\
  _cursor_mode (undo st) = _cursor_mode st /\
  _active_handle (undo st) = _active_handle st /\
  _drag_start (undo st) = _drag_start st /\
  _rotate_base_angle (undo st) = _rotate_base_angle st /\
  _rotate_center (undo st) = _rotate_center st.
Proof.
  intros Ha. unfold undo. rewrite Ha, list_pop_app.
  destruct a as [shp i|shp [i|]|prev|ty]; repeat split.
Qed.

Lemma undo_empty (st : t) :
  actions st = [] -> undo st = set_status st "Nothing to undo.".
Proof. intros Ha. unfold undo. rewrite Ha. reflexivity. Qed.

(** X30.  [undo] takes exactly the last record off the history and leaves the
    earlier records and every shape object as they are; it clears the
    selection when there was a record to undo.  On an empty history it
    changes the status line only: the selection stays. *)
Theorem undo_pops_one (st : t) :
  actions (undo st) = removelast (actions st) /\
  store (undo st) = store st /\
  (actions st <> [] -> selected (undo st) = None) /\
  (actions st = [] ->
   shapes (undo st) = shapes st /\ selected (undo st) = selected st).
Proof.
  destruct (last_record (actions st)) as [E|(rest & a & E)].
  - rewrite (undo_empty st E). cbn [actions store shapes selected set_status].
    rewrite E. repeat split. intros F. exfalso. apply F. reflexivity.
  - destruct (undo_nonempty st rest a E) as (Ha & _ & Hsel & Hst & _).
    rewrite Ha, E, removelast_last.
    split; [reflexivity|]. split; [exact Hst|]. split; [auto|].
    intros F. destruct rest; discriminate F.
Qed.

(** X18.  A confirmed [clear] of a document that is not empty, followed by
    [undo], gives back the document in its order, and the history.  A
    [clear] that is not confirmed, or of an empty document, records
    nothing. *)
Theorem clear_then_undo (st : t) :
  (shapes st <> [] ->
   shapes (clear st true) = [] /\
   shapes (undo (clear st true)) = shapes st /\
   actions (undo (clear st true)) = actions st) /\
  actions (clear st false) = actions st /\
  shapes (clear st false) = shapes st /\
  (shapes st = [] -> actions (clear st true) = actions st).
Proof.
  split; [|split; [|split]].
  - intros Hne. unfold clear.
    destruct (shapes st) as [|s l] eqn:E; [congruence|].
    split; [reflexivity|].
    assert (Ha : actions
                   (set_status
                      (set_document st [] (actions st ++ [Clear (s :: l)])
                         None)
                      "Cleared all shapes. Use Undo (Ctrl+Z) to restore.")
                 = actions st ++ [Clear (s :: l)]) by reflexivity.
    destruct (undo_nonempty _ _ _ Ha) as (H1 & H2 & _).
    split; [exact H2 | exact H1].
  - unfold clear. destruct (shapes st); reflexivity.
  - unfold clear. destruct (shapes st) eqn:E;
      cbn [shapes set_status]; now rewrite E.
  - intros E. unfold clear. rewrite E. reflexivity.
Qed.

Lemma clear_then_undo_witness :
  shapes (undo (clear three_shapes true)) = [0%nat; 1%nat; 2%nat].
Proof.
  refine (proj1 (proj2 (proj1 (clear_then_undo three_shapes) _))).
  discriminate.
Defined.

(** Adding the shapes of [news] one after the other. *)
Definition add_all (st : t) (news : list Ref) : t :=
  fold_left _add_shape news st.

Lemma add_all_last (st : t) (news : list Ref) (r : Ref) :
  add_all st (news ++ [r]) = _add_shape (add_all st news) r.
Proof. unfold add_all. now rewrite fold_left_app. Qed.

Lemma add_all_shapes (st : t) (news : list Ref) :
  shapes (add_all st news) = shapes st ++ news.
Proof.
  induction news as [|r news IH] using rev_ind.
  - now rewrite app_nil_r.
  - rewrite add_all_last. cbn [_add_shape shapes set_document].
    now rewrite IH, app_assoc.
Qed.

(** X19.  Any number of additions are undone one by one: after adding shapes
    that are distinct and not in the document, as many undos as there were
    additions give back the document and the history. *)
Theorem adds_then_undos (news : list Ref) (st : t) :
  NoDup news ->
  (forall r, In r news -> ~ In r (shapes st)) ->
  shapes (Nat.iter (List.length news) undo (add_all st news)) = shapes st /\
  actions (Nat.iter (List.length news) undo (add_all st news)) = actions st.
Proof.
  induction news as [|r news IH] using rev_ind; intros Hnd Hfresh.
  - split; reflexivity.
  - rewrite length_app, Nat.add_comm. cbn [List.length Nat.add].
    rewrite Nat.iter_succ_r, add_all_last.
    apply NoDup_remove in Hnd. rewrite app_nil_r in Hnd.
    destruct Hnd as [Hnd Hr].
    assert (Hnew : ~ In r (shapes (add_all st news))).
    { rewrite add_all_shapes. intros Hin.
      apply in_app_or in Hin. destruct Hin as [Hin|Hin].
      - apply (Hfresh r); [apply in_or_app; right; now left | exact Hin].
      - contradiction. }
    assert (Hsh : shapes (undo (_add_shape (add_all st news) r))
                  = shapes (add_all st news)).
    { unfold undo, _add_shape. cbn [actions set_document].
      rewrite list_pop_app. cbn [shapes set_document set_status].
      rewrite without_app, without_self, app_nil_r.
      apply without_absent, Hnew. }
    assert (Hac : actions (undo (_add_shape (add_all st news) r))
                  = actions (add_all st news)).
    { unfold undo, _add_shape. cbn [actions set_document].
      now rewrite list_pop_app. }
    assert (Hiter : forall (n : nat) (a b : t),
               shapes a = shapes b -> actions a = actions b ->
               shapes (Nat.iter n undo a) = shapes (Nat.iter n undo b) /\
               actions (Nat.iter n undo a) = actions (Nat.iter n undo b)).
    { induction n as [|n IHn]; intros a b Hs Ha; [now split|].
      rewrite !Nat.iter_succ_r. apply IHn.
      - unfold undo. rewrite Ha. destruct (Py.list_pop (actions b))
          as [[rest [shp i|shp [i|]|prev|ty]]|];
          cbn [shapes set_document set_status]; rewrite ?Hs; reflexivity.
      - unfold undo. rewrite Ha. destruct (Py.list_pop (actions b))
          as [[rest [shp i|shp [i|]|prev|ty]]|];
          cbn [actions set_document set_status]; auto. }
    destruct (Hiter (List.length news) _ _ Hsh Hac) as [E1 E2].
    rewrite E1, E2. apply IH; [exact Hnd|].
    intros r' Hr'. apply Hfresh, in_or_app. now left.
Qed.

Lemma adds_then_undos_witness :
  shapes (Nat.iter 2 undo (add_all three_shapes [5%nat; 6%nat]))
  = [0%nat; 1%nat; 2%nat].
Proof.
  refine (proj1 (adds_then_undos [5%nat; 6%nat] three_shapes _ _)).
  - repeat constructor; simpl; intuition discriminate.
  - simpl. intros r [<-|[<-|[]]]; intuition discriminate.
Defined.

End MoreHistory.

(** * The tool and snap variables *)

Module Vars.

Import TikzDesigner.

(** Write the three Tk variables the model keeps and the status line. *)
Definition set_vars (st : t) (tool' : string) (snap' : bool) (grid' : Z)
    (status' : string) : t :=
  {| tool := tool'; snap_enabled := snap'; grid_step := grid';
     store := store st;
     shapes := shapes st; actions := actions st; selected := selected st;
     _cursor_mode := _cursor_mode st; _active_handle := _active_handle st;
     _drag_start := _drag_start st;
     _rotate_base_angle := _rotate_base_angle st;
     _rotate_center := _rotate_center st;
     status := status' |}.

(** The status line of [_on_tool_change]: [msgs.get(t, ...)]. *)
Definition tool_message (name : string) : string :=
  if String.eqb name "cursor" then
    "Cursor: click a shape to select; drag to move; use round handle to rotate; Del to delete."
  else if String.eqb name "line" then
    "Line tool: click start, click end to finish."
  else if String.eqb name "arrow" then
    "Arrow tool: click start, click end to finish."
  else if String.eqb name "rect" then
    "Rectangle tool: click first corner, then click opposite corner."
  else if String.eqb name "ellipse" then
    "Ellipse tool: click first corner, then click opposite corner."
  else if String.eqb name "circle" then
    "Circle tool: click center, then click edge to set radius."
  else if String.eqb name "quad" then
    "Quad Bézier: click start, click end, then click/drag to place control."
  else if String.eqb name "dot" then
    "Dot tool: click to place a dot (small filled circle)."
  else ("Tool: " ++ name ++ " selected.")%string.

(** A write to [self.tool], with its trace callback [_on_tool_change]. *)
Definition set_tool (st : t) (name : string) : t :=
  set_vars st name (snap_enabled st) (grid_step st) (tool_message name).

(** A write to [self.snap_enabled], with its trace callback
    [_on_snap_change]. *)
Definition set_snap (st : t) (on : bool) : t :=
  set_vars st (tool st) on (grid_step st)
    (if on
     then ("Snap enabled (step=" ++ Py.str_int (grid_step st) ++ " px).")%string
     else "Snap disabled."%string).

(** A write to [self.grid_step]; no callback reads it. *)
Definition set_grid_step (st : t) (step : Z) : t :=
  set_vars st (tool st) (snap_enabled st) step (status st).

End Vars.

Section Sessions.

Import TikzDesigner.
Import Cursor.
Import Vars.

(** The states an editing session passes through: from the editor as
    [__init__] leaves it, by presses with the cursor tool, drag frames,
    releases, deletions, undos, undo-to, clears, the creation of a shape
    object that is handed to [_add_shape], and writes to the tool, snap and
    grid variables.  A step whose handler raises leads nowhere. *)
Inductive reachable (objects : Store) : t -> Prop :=
| reach_init : reachable objects (init objects)
| reach_press (st st' : t) (hit : Ref -> bool) (ex ey : Z) :
    reachable objects st ->
    tool st = "cursor"%string ->
    on_click_cursor st hit ex ey = Some st' ->
    reachable objects st'
| reach_drag (st st' : t) (ex ey : Z) :
    reachable objects st ->
    on_drag st ex ey = Some st' ->
    reachable objects st'
| reach_release (st : t) :
    reachable objects st -> reachable objects (on_release st)
| reach_delete (st : t) :
    reachable objects st -> reachable objects (_on_delete_key st)
| reach_undo (st : t) :
    reachable objects st -> reachable objects (undo st)
| reach_undo_to (st st' : t) (fuel : nat) (sel : list Z) :
    reachable objects st ->
    undo_to_selected fuel st sel = Some st' ->
    reachable objects st'
| reach_clear (st : t) (confirmed : bool) :
    reachable objects st -> reachable objects (clear st confirmed)
| reach_commit (st : t) (r : Ref) (obj : Shape) :
    reachable objects st ->
    ~ In r (shapes st) ->
    reachable objects (commit st r obj)
| reach_set_tool (st : t) (name : string) :
    reachable objects st -> reachable objects (set_tool st name)
| reach_set_snap (st : t) (on : bool) :
    reachable objects st -> reachable objects (set_snap st on)
| reach_set_grid_step (st : t) (step : Z) :
    reachable objects st -> reachable objects (set_grid_step st step).

(** The history read from its newest record back: the document holds no
    shape twice, a [remove] record is of a shape that is not in the
    document, and the same holds of the document and the history that
    undoing the newest record gives. *)
Fixpoint history_ok (newest_first : list Action) (doc : list Ref) : Prop :=
  NoDup doc /\
  match newest_first with
  | [] => True
  | a :: older =>
      match a with
      | Remove shp _ => ~ In shp doc
      | _ => True
      end /\
      history_ok older (undone a doc)
  end.

(** The registers the current drag mode reads are set. *)
Definition drag_ready (st : t) : Prop :=
  (_cursor_mode st = Some "move"%string -> _drag_start st <> None) /\
  (_cursor_mode st = Some "rotate"%string ->
   _rotate_center st <> None /\ _rotate_base_angle st <> None).

(** What every state of a session satisfies. *)
Definition session_invariant (st : t) : Prop :=
  history_ok (rev (actions st)) (shapes st) /\
  (forall r hs, selected st = Some (r, hs) -> In r (shapes st)) /\
  drag_ready st.

Lemma history_ok_nodup (l : list Action) (doc : list Ref) :
  history_ok l doc -> NoDup doc.
Proof. destruct l; simpl; tauto. Qed.

Lemma without_nodup (s : Ref) (l : list Ref) :
  NoDup l -> NoDup (without s l).
Proof. apply NoDup_filter. Qed.

Lemma without_not_in (s : Ref) (l : list Ref) : ~ In s (without s l).
Proof.
  unfold without. intros H. apply filter_In in H. destruct H as [_ H].
  rewrite Nat.eqb_refl in H. discriminate H.
Qed.

Lemma nodup_split (s : Ref) (l : list Ref) :
  NoDup l -> In s l ->
  exists l1 l2, l = l1 ++ s :: l2 /\ ~ In s l1 /\ ~ In s l2.
Proof.
  intros Hnd Hin. destruct (in_split s l Hin) as (l1 & l2 & ->).
  exists l1, l2. split; [reflexivity|].
  apply NoDup_remove_2 in Hnd.
  split; intros H; apply Hnd, in_or_app; [left|right]; exact H.
Qed.

(** Undoing, in a document without duplicates, the record that deleting a
    shape of the document writes. *)
Lemma undone_delete (s : Ref) (doc : list Ref) :
  NoDup doc -> In s doc ->
  undone (Remove s (index s doc)) (without s doc) = doc /\
  exists i : Z,
    index s doc = Some i /\ nth_error doc (Z.to_nat i) = Some s.
Proof.
  intros Hnd Hin.
  destruct (nodup_split s doc Hnd Hin) as (l1 & l2 & -> & H1 & H2).
  rewrite (index_first s l1 l2 H1), (without_once s l1 l2 H1 H2).
  split.
  - cbn [undone].
    assert (Hb : (Z.of_nat (List.length l1) <? 0)%Z
                 || (Z.of_nat (List.length (l1 ++ l2))
                     <? Z.of_nat (List.length l1))%Z = false).
    { apply orb_false_iff. rewrite length_app.
      split; apply Z.ltb_ge; lia. }
    rewrite Hb, Nat2Z.id. apply list_insert_middle.
  - exists (Z.of_nat (List.length l1)). split; [reflexivity|].
    rewrite Nat2Z.id, nth_error_app2 by lia.
    now rewrite Nat.sub_diag.
Qed.

Lemma invariant_same_document (st st' : t) :
  shapes st' = shapes st -> actions st' = actions st ->
  (selected st' = selected st \/ selected st' = None) ->
  drag_ready st' ->
  session_invariant st -> session_invariant st'.
Proof.
  intros Hs Ha Hsel Hd (Hh & Hin & _).
  split; [|split].
  - now rewrite Hs, Ha.
  - intros r hs E. rewrite Hs. destruct Hsel as [E'|E'].
    + apply (Hin r hs). congruence.
    + congruence.
  - exact Hd.
Qed.

Lemma invariant_init (objects : Store) : session_invariant (init objects).
Proof.
  split; [|split].
  - simpl. split; [constructor | exact I].
  - intros r hs E. discriminate E.
  - split; intros E; discriminate E.
Qed.

Lemma shape_at_in (st : t) (hit : Ref -> bool) (r : Ref) :
  _shape_at st hit = Some r -> In r (shapes st) /\ hit r = true.
Proof.
  unfold _shape_at. intros H. apply find_some in H.
  destruct H as [Hin Hhit]. split; [|exact Hhit].
  apply in_rev. exact Hin.
Qed.

Lemma invariant_select_at (st : t) (hit : Ref -> bool) (x y : R) :
  session_invariant st -> session_invariant (select_at st hit x y).
Proof.
  intros (Hh & Hin & Hd). unfold select_at.
  destruct (_shape_at st hit) as [r|] eqn:E.
  - split; [exact Hh|]. split.
    + intros r' hs' E'. cbn [selected set_cursor] in E'.
      injection E' as <- _. apply (shape_at_in st hit r E).
    + split; cbn [set_cursor _cursor_mode _drag_start _rotate_center
                  _rotate_base_angle]; intros E';
        first [discriminate E' | discriminate].
  - split; [exact Hh|]. split; [intros r hs E'; discriminate E'|].
    exact Hd.
Qed.

Lemma invariant_cursor_down (st : t) (hit : Ref -> bool) (x y : R) :
  session_invariant st -> session_invariant (_cursor_down st hit x y).
Proof.
  intros Hinv. pose proof Hinv as (Hh & Hin & Hd). unfold _cursor_down.
  destruct (selected st) as [[shape hs]|] eqn:Esel;
    [|now apply invariant_select_at].
  destruct (closest_handle x y (handles (store st shape)))
    as [min_d [[[hx hy] kind]|]]; [|now apply invariant_select_at].
  destruct (Rle_dec min_d 10); [|now apply invariant_select_at].
  destruct (kind =? "rotate")%string; [|destruct (kind =? "move")%string].
  - split; [exact Hh|]. split.
    + intros r' hs' E'. apply (Hin r' hs'). exact E'.
    + split; cbn [set_cursor _cursor_mode _drag_start _rotate_center
                  _rotate_base_angle]; intros E'.
      * discriminate E'.
      * split; discriminate.
  - split; [exact Hh|]. split.
    + intros r' hs' E'. apply (Hin r' hs'). exact E'.
    + split; cbn [set_cursor _cursor_mode _drag_start _rotate_center
                  _rotate_base_angle]; intros E';
        first [discriminate E' | discriminate].
  - split; [exact Hh|]. split.
    + intros r' hs' E'. apply (Hin r' hs'). exact E'.
    + split; cbn [set_cursor _cursor_mode _drag_start _rotate_center
                  _rotate_base_angle]; intros E';
        first [discriminate E' | discriminate].
Qed.

Lemma invariant_drag (st st' : t) (ex ey : Z) :
  on_drag st ex ey = Some st' ->
  session_invariant st -> session_invariant st'.
Proof.
  intros H Hinv.
  destruct (on_drag_result st st' ex ey H)
    as [->|(r & hs & v & ds & b & Hsel & -> & Hds & Hb)]; [exact Hinv|].
  apply (invariant_same_document st); try reflexivity; [now left| |exact Hinv].
  destruct Hinv as (_ & _ & [Hm Hr]).
  split; cbn [set_drag _cursor_mode _drag_start _rotate_center
              _rotate_base_angle]; intros E.
  - destruct Hds as [->|Hds]; auto.
  - destruct (Hr E) as [Hc Hbase]. split; [exact Hc|].
    destruct Hb as [->|Hb]; auto.
Qed.

Lemma invariant_release (st : t) :
  session_invariant st -> session_invariant (on_release st).
Proof.
  intros Hinv. unfold on_release.
  destruct (tool st =? "cursor")%string; [|exact Hinv].
  apply (invariant_same_document st); try reflexivity; [now left| |exact Hinv].
  split; intros E; discriminate E.
Qed.

Lemma invariant_delete (st : t) :
  session_invariant st -> session_invariant (_on_delete_key st).
Proof.
  intros Hinv. pose proof Hinv as (Hh & Hin & Hd). unfold _on_delete_key.
  destruct (negb (tool st =? "cursor")%string); [exact Hinv|].
  destruct (selected st) as [[s hs]|] eqn:Esel.
  - pose proof (history_ok_nodup _ _ Hh) as Hnd.
    pose proof (Hin s hs eq_refl) as Hs.
    split; [|split].
    + cbn [actions shapes set_status set_document].
      rewrite rev_app_distr. cbn [rev app history_ok].
      split; [apply without_nodup, Hnd|].
      split; [apply without_not_in|].
      now rewrite (proj1 (undone_delete s (shapes st) Hnd Hs)).
    + intros r' hs' E. discriminate E.
    + exact Hd.
  - apply (invariant_same_document st); try reflexivity; [now left| |exact Hinv].
    exact Hd.
Qed.

Lemma invariant_undo (st : t) :
  session_invariant st -> session_invariant (undo st).
Proof.
  intros Hinv. pose proof Hinv as (Hh & Hin & Hd).
  destruct (last_record (actions st)) as [E|(rest & a & E)].
  - rewrite (undo_empty st E).
    apply (invariant_same_document st); try reflexivity; [now left| |exact Hinv].
    exact Hd.
  - destruct (undo_nonempty st rest a E)
      as (Ha & Hs & Hsel & _ & _ & _ & _ & Hm & _ & Hds & Hb & Hc).
    split; [|split].
    + rewrite Ha, Hs. rewrite E, rev_app_distr in Hh.
      cbn [rev app history_ok] in Hh. tauto.
    + intros r hs E'. congruence.
    + destruct Hd as [Hmv Hrt]. split; rewrite Hm, ?Hds, ?Hc, ?Hb; auto.
Qed.

Lemma invariant_undo_loop (fuel : nat) (target : Z) (st st' : t) :
  undo_loop fuel target st = Some st' ->
  session_invariant st -> session_invariant st'.
Proof.
  revert st. induction fuel as [|fuel IH]; intros st H Hinv; simpl in H.
  - destruct (target <? Z.of_nat (List.length (actions st)))%Z;
      [discriminate H | now injection H as <-].
  - destruct (target <? Z.of_nat (List.length (actions st)))%Z.
    + apply (IH (undo st) H), invariant_undo, Hinv.
    + now injection H as <-.
Qed.

Lemma invariant_clear (st : t) (confirmed : bool) :
  session_invariant st -> session_invariant (clear st confirmed).
Proof.
  intros Hinv. pose proof Hinv as (Hh & Hin & Hd). unfold clear.
  destruct (shapes st) as [|s l] eqn:E.
  - apply (invariant_same_document st); try reflexivity; [now left| |exact Hinv].
    exact Hd.
  - destruct confirmed; [|exact Hinv].
    split; [|split].
    + cbn [actions shapes set_status set_document].
      rewrite rev_app_distr. cbn [rev app history_ok undone].
      split; [constructor|]. split; [exact I|]. exact Hh.
    + intros r hs E'. discriminate E'.
    + exact Hd.
Qed.

Lemma invariant_commit (st : t) (r : Ref) (obj : Shape) :
  ~ In r (shapes st) ->
  session_invariant st -> session_invariant (commit st r obj).
Proof.
  intros Hr (Hh & Hin & Hd).
  pose proof (history_ok_nodup _ _ Hh) as Hnd.
  split; [|split].
  - unfold commit, _add_shape.
    cbn [actions shapes set_document set_drag].
    rewrite rev_app_distr. cbn [rev app history_ok undone].
    split.
    + apply NoDup_app; [exact Hnd | repeat constructor; intros [] |].
      intros x Hx [<-|[]]. contradiction.
    + split; [exact I|].
      rewrite without_app, without_self, app_nil_r,
        (without_absent r _ Hr). exact Hh.
  - intros r' hs' E. unfold commit, _add_shape in E.
    cbn [selected set_document] in E. injection E as <- _.
    unfold commit, _add_shape. cbn [shapes set_document set_drag].
    apply in_or_app. right. now left.
  - exact Hd.
Qed.

Lemma session_keeps_invariant (objects : Store) (st : t) :
  reachable objects st -> session_invariant st.
Proof.
  induction 1 as [|st st' hit ex ey _ IH Ht Hc|st st' ex ey _ IH Hd
                 |st _ IH|st _ IH|st _ IH|st st' fuel sel _ IH Hu
                 |st b _ IH|st r obj _ IH Hr|st nm _ IH|st on _ IH
                 |st z _ IH].
  - apply invariant_init.
  - unfold on_click_cursor in Hc.
    destruct (snap_event st ex ey) as [[x y]|]; [|discriminate Hc].
    injection Hc as <-. now apply invariant_cursor_down.
  - exact (invariant_drag st st' ex ey Hd IH).
  - now apply invariant_release.
  - now apply invariant_delete.
  - now apply invariant_undo.
  - unfold undo_to_selected in Hu. destruct sel as [|ti rest].
    + now injection Hu as <-.
    + destruct (Z.of_nat (List.length (actions st)) <=? ti + 1)%Z.
      * now injection Hu as <-.
      * exact (invariant_undo_loop _ _ _ _ Hu IH).
  - now apply invariant_clear.
  - now apply invariant_commit.
  - apply (invariant_same_document st); try reflexivity; [now left| |exact IH].
    apply IH.
  - apply (invariant_same_document st); try reflexivity; [now left| |exact IH].
    apply IH.
  - apply (invariant_same_document st); try reflexivity; [now left| |exact IH].
    apply IH.
Qed.

End Sessions.

Section SessionProperties.

Import TikzDesigner.
Import Cursor.
Import Vars.

Lemma undo_iter_reachable (objects : Store) (n : nat) (st : t) :
  reachable objects st -> reachable objects (Nat.iter n undo st).
Proof.
  intros H. induction n as [|n IH]; [exact H|].
  cbn [Nat.iter nat_rect]. apply reach_undo, IH.
Qed.

(** X21.  In every state of a session the document holds no shape twice, the
    selection, when there is one, is a shape of the document, and the same
    holds after any number of undos. *)
Theorem session_document_distinct (objects : Store) (st : t) :
  reachable objects st ->
  NoDup (shapes st) /\
  (forall r hs, selected st = Some (r, hs) -> In r (shapes st)) /\
  (forall n : nat, NoDup (shapes (Nat.iter n undo st))).
Proof.
  intros H.
  destruct (session_keeps_invariant objects st H) as (Hh & Hin & _).
  split; [exact (history_ok_nodup _ _ Hh)|]. split; [exact Hin|].
  intros n.
  destruct (session_keeps_invariant objects _
              (undo_iter_reachable objects n st H)) as (Hh' & _).
  exact (history_ok_nodup _ _ Hh').
Qed.

(** A session of two committed shapes, the second one selected. *)
Definition two_dots : t :=
  let dot := SDot (Dot.init (0, 0) 3 "black") in
  commit (commit (init (fun _ => dot)) 0%nat dot) 1%nat dot.

Lemma two_dots_reachable :
  reachable (fun _ => SDot (Dot.init (0, 0) 3 "black")) two_dots.
Proof.
  unfold two_dots. apply reach_commit.
  - apply reach_commit; [apply reach_init | simpl; tauto].
  - simpl. intros [H|[]]. discriminate H.
Qed.

Lemma session_document_distinct_witness : NoDup (shapes two_dots).
Proof.
  exact (proj1 (session_document_distinct _ two_dots two_dots_reachable)).
Defined.

(** X22.  In every state of a session, deleting the selection records the index
    the shape is at, and an immediate undo gives back the document and the
    history exactly: the selected shape is never missing from the
    document, and never in it twice. *)
Theorem session_delete_undo (objects : Store) (st : t) (s : Ref)
    (hs : list Handle) :
  reachable objects st ->
  tool st = "cursor"%string ->
  selected st = Some (s, hs) ->
  exists i : Z,
    actions (_on_delete_key st) = actions st ++ [Remove s (Some i)] /\
    nth_error (shapes st) (Z.to_nat i) = Some s /\
    ~ In s (shapes (_on_delete_key st)) /\
    shapes (undo (_on_delete_key st)) = shapes st /\
    actions (undo (_on_delete_key st)) = actions st.
Proof.
  intros H Ht Hsel.
  destruct (session_keeps_invariant objects st H) as (Hh & Hin & _).
  pose proof (history_ok_nodup _ _ Hh) as Hnd.
  pose proof (Hin s hs Hsel) as Hs.
  destruct (undone_delete s (shapes st) Hnd Hs) as (Hback & i & Hi & Hnth).
  destruct (delete_selected_step st s hs Ht Hsel) as (Hsh & Hact & _ & _).
  exists i. rewrite Hi in Hact.
  destruct (undo_nonempty _ _ _ Hact) as (Ha' & Hs' & _).
  split; [exact Hact|]. split; [exact Hnth|].
  split; [rewrite Hsh; apply without_not_in|].
  split; [|exact Ha'].
  rewrite Hs', Hsh. rewrite Hi in Hback. exact Hback.
Qed.

Lemma session_delete_undo_witness :
  exists i : Z,
    actions (_on_delete_key two_dots)
      = actions two_dots ++ [Remove 1%nat (Some i)] /\
    nth_error (shapes two_dots) (Z.to_nat i) = Some 1%nat /\
    ~ In 1%nat (shapes (_on_delete_key two_dots)) /\
    shapes (undo (_on_delete_key two_dots)) = shapes two_dots /\
    actions (undo (_on_delete_key two_dots)) = actions two_dots.
Proof.
  exact (session_delete_undo _ two_dots 1%nat _ two_dots_reachable
           eq_refl eq_refl).
Defined.

(** X23.  In every state of a session a drag frame raises only if the snapping
    of the pointer does (a zero grid step with snapping on): the registers
    that the drag mode reads are always set. *)
Theorem session_drag_returns (objects : Store) (st : t) (ex ey : Z) :
  reachable objects st ->
  snap_event st ex ey <> None ->
  on_drag st ex ey <> None.
Proof.
  intros H Hsnap.
  destruct (session_keeps_invariant objects st H) as (_ & _ & [Hm Hr]).
  unfold on_drag.
  destruct (negb (tool st =? "cursor")%string); [discriminate|].
  destruct (selected st) as [[r hs]|]; [|discriminate].
  destruct (snap_event st ex ey) as [[x y]|]; [|contradiction].
  destruct (_cursor_mode st) as [m|]; [|discriminate].
  destruct (string_dec m "move") as [->|Hnm].
  { destruct (_drag_start st) as [[sx sy]|];
      [discriminate | exfalso; now apply Hm]. }
  destruct (string_dec m "rotate") as [->|Hnr].
  { destruct (Hr eq_refl) as [Hc Hb].
    destruct (_rotate_center st) as [[cx cy]|]; [|contradiction].
    destruct (_rotate_base_angle st); [discriminate | contradiction]. }
  clear Hm Hr.
  split_matches ltac:(first [ discriminate
                            | exfalso; apply Hnm; reflexivity
                            | exfalso; apply Hnr; reflexivity ]).
Qed.

Lemma session_drag_returns_witness : on_drag two_dots 3 4 <> None.
Proof.
  apply (session_drag_returns _ two_dots 3 4 two_dots_reachable).
  unfold snap_event, snap. cbn [snap_enabled two_dots commit _add_shape
    set_document set_drag init negb grid_step].
  destruct (Req_dec_T (IZR 20) 0) as [E|_]; [lra | discriminate].
Defined.

End SessionProperties.

Section DeleteNotFound.

Import TikzDesigner.
Import Cursor.
Import Vars.







End DeleteNotFound.

Section UndoTo.

Import TikzDesigner.
Import Cursor.

Lemma undo_actions (st : t) :
  actions (undo st) = removelast (actions st).
Proof.
  destruct (last_record (actions st)) as [E|(rest & a & E)].
  - rewrite (undo_empty st E). cbn [actions set_status]. now rewrite E.
  - rewrite (proj1 (undo_nonempty st rest a E)), E.
    symmetry. apply removelast_last.
Qed.

Lemma undo_store (st : t) : store (undo st) = store st.
Proof.
  destruct (last_record (actions st)) as [E|(rest & a & E)].
  - now rewrite (undo_empty st E).
  - apply (undo_nonempty st rest a E).
Qed.

Lemma removelast_length {A : Type} (l : list A) :
  List.length (removelast l) = pred (List.length l).
Proof.
  destruct (last_record l) as [->|(rest & a & ->)]; [reflexivity|].
  rewrite removelast_last, length_app. simpl. lia.
Qed.

Lemma firstn_removelast_lt {A : Type} (n : nat) (l : list A) :
  (n < List.length l)%nat -> firstn n (removelast l) = firstn n l.
Proof.
  intros Hn. destruct (last_record l) as [->|(rest & a & ->)].
  - simpl in Hn. lia.
  - rewrite removelast_last. rewrite length_app in Hn. simpl in Hn.
    rewrite firstn_app.
    replace (n - List.length rest)%nat with 0%nat by lia.
    simpl. now rewrite app_nil_r.
Qed.

Lemma undo_loop_prefix (fuel : nat) (target : Z) (st : t) :
  (0 <= target)%Z ->
  (List.length (actions st) <= fuel + Z.to_nat target)%nat ->
  exists st' : t,
    undo_loop fuel target st = Some st' /\
    actions st' = firstn (Z.to_nat target) (actions st) /\
    store st' = store st.
Proof.
  intros Ht. revert st.
  induction fuel as [|fuel IH]; intros st Hlen; simpl.
  - destruct (Z.ltb_spec target (Z.of_nat (List.length (actions st))));
      [lia|].
    exists st. split; [reflexivity|]. split; [|reflexivity].
    symmetry. apply firstn_all2. lia.
  - destruct (Z.ltb_spec target (Z.of_nat (List.length (actions st)))).
    + destruct (IH (undo st)) as (st' & Hrun & Hact & Hst).
      { rewrite undo_actions, removelast_length. lia. }
      exists st'. split; [exact Hrun|]. split.
      * rewrite Hact, undo_actions. apply firstn_removelast_lt. lia.
      * now rewrite Hst, undo_store.
    + exists st. split; [reflexivity|]. split; [|reflexivity].
      symmetry. apply firstn_all2. lia.
Qed.

Lemma undo_loop_never_ends (fuel : nat) (target : Z) (st : t) :
  (target < 0)%Z -> undo_loop fuel target st = None.
Proof.
  intros Ht. revert st. induction fuel as [|fuel IH]; intros st; simpl.
  - destruct (Z.ltb_spec target (Z.of_nat (List.length (actions st))));
      [reflexivity | lia].
  - destruct (Z.ltb_spec target (Z.of_nat (List.length (actions st))));
      [apply IH | lia].
Qed.

(** X20.  Undo-to keeps the records up to the selected one and undoes the newer
    ones: with the list box selection at index [k >= -1] the loop ends
    within as many iterations as the history has records, the history
    becomes its first [k + 1] records and no shape object is touched.
    Selecting the newest record (or one beyond) changes nothing.  With a
    target length below zero the loop would never end. *)
Theorem undo_to_keeps_prefix (fuel : nat) (st : t) (k : Z) (more : list Z) :
  (-1 <= k)%Z ->
  (List.length (actions st) <= fuel)%nat ->
  (exists st' : t,
      undo_to_selected fuel st (k :: more) = Some st' /\
      actions st' = firstn (Z.to_nat (k + 1)) (actions st) /\
      store st' = store st) /\
  ((Z.of_nat (List.length (actions st)) <= k + 1)%Z ->
   undo_to_selected fuel st (k :: more) = Some st) /\
  undo_to_selected fuel st [] = Some st /\
  (forall (k' : Z) (n : nat),
      (k' + 1 < 0)%Z -> undo_to_selected n st (k' :: more) = None).
Proof.
  intros Hk Hfuel. split; [|split; [|split]].
  - unfold undo_to_selected.
    destruct (Z.leb_spec (Z.of_nat (List.length (actions st))) (k + 1)).
    + exists st. split; [reflexivity|]. split; [|reflexivity].
      symmetry. apply firstn_all2. lia.
    + apply undo_loop_prefix; lia.
  - intros Hle. unfold undo_to_selected.
    destruct (Z.leb_spec (Z.of_nat (List.length (actions st))) (k + 1));
      [reflexivity | lia].
  - reflexivity.
  - intros k' n Hneg. unfold undo_to_selected.
    destruct (Z.leb_spec (Z.of_nat (List.length (actions st))) (k' + 1));
      [lia|].
    apply undo_loop_never_ends, Hneg.
Qed.

Lemma undo_to_keeps_prefix_witness :
  exists st' : t,
    undo_to_selected 3 three_shapes [0%Z] = Some st' /\
    actions st' = firstn (Z.to_nat (0 + 1)) (actions three_shapes) /\
    store st' = store three_shapes.
Proof.
  refine (proj1 (undo_to_keeps_prefix 3 three_shapes 0 [] _ _)).
  - lia.
  - simpl. lia.
Defined.

End UndoTo.

Section HitTest.

Import TikzDesigner.
Import Cursor.

Lemma find_last {A : Type} (f : A -> bool) (l : list A) :
  match find f (rev l) with
  | Some a =>
      f a = true /\
      exists l1 l2, l = l1 ++ a :: l2 /\ forallb (fun x => negb (f x)) l2 = true
  | None => forallb (fun x => negb (f x)) l = true
  end.
Proof.
  induction l as [|x l IH] using rev_ind; [reflexivity|].
  rewrite rev_app_distr. cbn [rev app find].
  destruct (f x) eqn:Ex.
  - split; [exact Ex|]. exists l, []. split; reflexivity.
  - destruct (find f (rev l)) as [a|].
    + destruct IH as (Ha & l1 & l2 & -> & Hno).
      split; [exact Ha|]. exists l1, (l2 ++ [x]).
      split; [now rewrite <- app_assoc|].
      rewrite forallb_app, Hno. cbn. now rewrite Ex.
    + rewrite forallb_app, IH. cbn. now rewrite Ex.
Qed.

(** X24.  The hit test returns the topmost shape under the pointer: a shape of
    the document that the canvas reports, with no reported shape after it
    in paint order; it returns nothing exactly when the canvas reports no
    shape of the document. *)
Theorem shape_at_topmost (st : t) (hit : Ref -> bool) :
  match _shape_at st hit with
  | Some r =>
      hit r = true /\
      exists below above : list Ref,
        shapes st = below ++ r :: above /\
        forall r', In r' above -> hit r' = false
  | None => forall r', In r' (shapes st) -> hit r' = false
  end.
Proof.
  unfold _shape_at. pose proof (find_last hit (shapes st)) as H.
  destruct (find hit (rev (shapes st))) as [r|].
  - destruct H as (Hr & l1 & l2 & E & Hno).
    split; [exact Hr|]. exists l1, l2. split; [exact E|].
    intros r' Hin. rewrite forallb_forall in Hno.
    specialize (Hno r' Hin). now destruct (hit r').
  - intros r' Hin. rewrite forallb_forall in H.
    specialize (H r' Hin). now destruct (hit r').
Qed.

(** A test for the kind of a handle. *)
Definition is_move (h : Handle) : bool := String.eqb (snd h) "move".

(** X25.  Every shape lists exactly one "move" handle.  For every class but
    [TextNode] and [ArcShape] the pivot that [_shape_center] gives to a
    rotate drag is the place of that handle; for those two classes, which
    list no "rotate" handle, it is the origin whatever the shape's
    position. *)
Theorem pivot_is_move_handle (sh : Shape) :
  List.length (filter is_move (handles sh)) = 1%nat /\
  match sh with
  | STextNode _ | SArcShape _ => _shape_center sh = (0, 0)
  | _ =>
      In (fst (_shape_center sh), snd (_shape_center sh), "move"%string)
        (handles sh)
  end.
Proof.
  destruct sh as [s|s|s|s|s|s|s|s|s].
  - destruct s as [[x0 y0] [x1 y1] col wid fe fc fo]. cbn. auto.
  - destruct s as [[x0 y0] [x1 y1] col wid fe fc fo]. cbn. auto.
  - destruct s as [[x0 y0] [x1 y1] [xc yc] col wid fe fc fo]. cbn. auto 6.
  - destruct s as [[x0 y0] [x1 y1] col wid fe fc fo a].
    unfold handles, RectShape.handles, _shape_center, RectShape.center.
    cbn [RectShape.p0 RectShape.p1 RectShape.angle fst snd].
    destruct (rotate_point _ _ _ _ _). cbn. auto.
  - destruct s as [cx cy rx ry col wid fe fc fo a].
    unfold handles, EllipseShape.handles, _shape_center.
    cbn [EllipseShape.cx EllipseShape.cy EllipseShape.angle fst snd].
    destruct (rotate_point _ _ _ _ _). cbn. auto.
  - destruct s as [[cx cy] r col wid fe fc fo]. cbn. auto.
  - destruct s as [[cx cy] r col wid fe fc fo]. cbn. auto.
  - destruct s as [[px py] txt sz col]. cbn. auto.
  - destruct s as [[cx cy] r sa ea col wid fe fc fo]. cbn. auto.
Qed.

End HitTest.

Section Press.

Import TikzDesigner.
Import Cursor.

(** The place of a handle. *)
Definition handle_at (h : Handle) : Point := (fst (fst h), snd (fst h)).

Lemma closest_handle_from (x y : R) (hs : list Handle) (d0 : R)
    (c0 : option Handle) :
  let res :=
    fold_left
      (fun (acc : R * option Handle) (h : Handle) =>
         let d := distance (x, y) (fst (fst h), snd (fst h)) in
         if Rlt_dec d (fst acc) then (d, Some h) else acc)
      hs (d0, c0) in
  fst res <= d0 /\
  (forall h, In h hs -> fst res <= distance (x, y) (handle_at h)) /\
  (res = (d0, c0) \/
   exists h, In h hs /\ res = (distance (x, y) (handle_at h), Some h) /\
             distance (x, y) (handle_at h) < d0).
Proof.
  revert d0 c0. induction hs as [|h hs IH]; intros d0 c0; cbn [fold_left].
  - cbv zeta. cbn [fst]. split; [lra|]. split; [intros h []|now left].
  - cbn [fst]. fold (handle_at h).
    destruct (Rlt_dec (distance (x, y) (handle_at h)) d0) as [Hlt|Hge].
    + destruct (IH (distance (x, y) (handle_at h)) (Some h))
        as (Hle & Hall & Hres).
      cbv zeta in *. split; [lra|]. split.
      * intros h' [<-|Hin]; [exact Hle | now apply Hall].
      * right. destruct Hres as [E|(h' & Hin & E & Hd)].
        -- exists h. split; [now left|]. split; [exact E | exact Hlt].
        -- exists h'. split; [now right|]. split; [exact E | lra].
    + destruct (IH d0 c0) as (Hle & Hall & Hres).
      cbv zeta in *. split; [exact Hle|]. split.
      * intros h' [<-|Hin]; [lra | now apply Hall].
      * destruct Hres as [E|(h' & Hin & E & Hd)]; [now left|].
        right. exists h'. split; [now right|]. split; assumption.
Qed.

(** The loop over the handles finds a nearest one: when it returns a
    handle, that handle is of the list, the distance returned is the
    distance to it, it is below 9999 and no handle of the list is nearer;
    it returns no handle exactly when every handle is 9999 or more away. *)
Lemma closest_handle_nearest (x y : R) (hs : list Handle) :
  match closest_handle x y hs with
  | (d, Some h) =>
      In h hs /\ d = distance (x, y) (handle_at h) /\ d < 9999 /\
      forall h', In h' hs -> d <= distance (x, y) (handle_at h')
  | (d, None) =>
      d = 9999 /\
      forall h', In h' hs -> 9999 <= distance (x, y) (handle_at h')
  end.
Proof.
  unfold closest_handle.
  destruct (closest_handle_from x y hs 9999 None) as (Hle & Hall & Hres).
  cbv zeta in *.
  destruct Hres as [E|(h & Hin & E & Hd)]; rewrite E in *; cbn [fst] in *.
  - split; [reflexivity | exact Hall].
  - repeat split; assumption.
Qed.

(** X26.  A press with a selection: when some handle of the selected shape is
    within 10 units of the pointer, a nearest handle is grabbed, whatever
    lies under the pointer: the selection and the document stay, and the
    drag mode is "rotate", "move" or "handle" by the kind of that handle.
    When every handle is farther than 10 units, the press selects by the
    hit test. *)
Theorem press_grabs_nearest_handle (st : t) (hit : Ref -> bool) (x y : R)
    (r : Ref) (cache : list Handle) :
  selected st = Some (r, cache) ->
  ((exists h, In h (handles (store st r)) /\
              distance (x, y) (handle_at h) <= 10) ->
   exists h,
     In h (handles (store st r)) /\
     (forall h', In h' (handles (store st r)) ->
        distance (x, y) (handle_at h) <= distance (x, y) (handle_at h')) /\
     selected (_cursor_down st hit x y) = selected st /\
     shapes (_cursor_down st hit x y) = shapes st /\
     _cursor_mode (_cursor_down st hit x y) =
       Some (if String.eqb (snd h) "rotate" then "rotate"%string
             else if String.eqb (snd h) "move" then "move"%string
             else "handle"%string)) /\
  ((forall h, In h (handles (store st r)) ->
              10 < distance (x, y) (handle_at h)) ->
   _cursor_down st hit x y = select_at st hit x y).
Proof.
  intros Hsel.
  pose proof (closest_handle_nearest x y (handles (store st r))) as Hc.
  unfold _cursor_down. rewrite Hsel.
  destruct (closest_handle x y (handles (store st r))) as [d [h|]].
  - destruct Hc as (Hin & Hd & _ & Hmin).
    destruct h as [[hx hy] kind]. split.
    + intros (h0 & Hin0 & Hnear).
      pose proof (Hmin h0 Hin0) as Hle.
      destruct (Rle_dec d 10) as [_|Hfar]; [|lra].
      exists (hx, hy, kind). split; [exact Hin|].
      split; [intros h' Hh'; rewrite <- Hd; now apply Hmin|].
      cbn [snd].
      destruct (kind =? "rotate")%string; [|destruct (kind =? "move")%string];
        repeat split; exact Hsel.
    + intros Hfar. specialize (Hfar _ Hin). rewrite <- Hd in Hfar.
      destruct (Rle_dec d 10); [lra | reflexivity].
  - destruct Hc as (_ & Hall). split; [|reflexivity].
    intros (h0 & Hin0 & Hnear). specialize (Hall h0 Hin0). lra.
Qed.

Lemma press_grabs_nearest_handle_witness :
  _cursor_down moving_line (fun _ => false) 100 100
  = select_at moving_line (fun _ => false) 100 100.
Proof.
  refine (proj2 (press_grabs_nearest_handle moving_line (fun _ => false)
                   100 100 0%nat _ eq_refl) _).
  cbn [store moving_line]. intros h Hin.
  assert (Hd : forall a b : R,
             a <= 10 -> b <= 10 -> 10 < distance (100, 100) (a, b)).
  { intros a b Ha Hb. unfold distance, Py.hypot. cbn [fst snd].
    apply Rlt_le_trans with (sqrt (90 * 90)).
    - rewrite sqrt_square by lra. lra.
    - apply sqrt_le_1_alt. nra. }
  unfold handles, LineSeg.handles, LineSeg.center in Hin.
  cbn [LineSeg.init LineSeg.p0 LineSeg.p1 fst snd In] in Hin.
  destruct Hin as [<-|[<-|[<-|[<-|[]]]]]; unfold handle_at; cbn [fst snd];
    apply Hd; lra.
Defined.

End Press.

(** * The drawing tools *)

Module Draw.

Import TikzDesigner.
Import Cursor.

(** The editor with the click staging buffer and the style variables the
    drawing tools read. *)
Record ui : Type := mk_ui {
  core : TikzDesigner.t;
  _clicks : list Point;
  color : string;
  width : Z;
  fill_enabled : bool;
  fill_color : string;
  fill_opacity : R;
  text_value : string;
  text_size : Z
}.

Definition with_core (u : ui) (core' : TikzDesigner.t)
    (clicks' : list Point) : ui :=
  {| core := core'; _clicks := clicks';
     color := color u; width := width u;
     fill_enabled := fill_enabled u; fill_color := fill_color u;
     fill_opacity := fill_opacity u;
     text_value := text_value u; text_size := text_size u |}.

(** [_cancel_temp] (the Escape key): the staging buffer is emptied. *)
Definition _cancel_temp (u : ui) : ui := with_core u (core u) [].

(** [_reset_temp(msg)]: [_cancel_temp], then the status line. *)
Definition _reset_temp (u : ui) (msg : string) : ui :=
  let u := _cancel_temp u in
  with_core u (set_status (core u) msg) (_clicks u).

(** Construct a shape object [new] and hand it to [_add_shape], then
    [_reset_temp(msg)]. *)
Definition add_and_reset (u : ui) (new : Ref) (obj : Shape) (msg : string)
    : ui :=
  _reset_temp (with_core u (commit (core u) new obj) (_clicks u)) msg.

(** [on_click]: [repr_point] renders a point for the one status line that
    prints a staged click, [fmt] the radius in another; [new] is the
    object a tool creates on its last click; [hit] is the canvas hit test
    the cursor tool consults.  [None] is the division error of
    [snap]. *)
Definition on_click (repr_point : Point -> string) (fmt : Fmt) (u : ui)
    (hit : Ref -> bool) (new : Ref) (ex ey : Z) : option ui :=
  match snap_event (core u) ex ey with
  | None => None
  | Some (x, y) =>
      let name := tool (core u) in
      let staged := _clicks u ++ [(x, y)] in
      let u1 := with_core u (core u) staged in
      if String.eqb name "cursor" then
        Some (with_core u (_cursor_down (core u) hit x y) (_clicks u))
      else if String.eqb name "line" then
        match staged with
        | [p0; p1] =>
            Some (add_and_reset u1 new
                    (SLineSeg (LineSeg.init p0 p1 (color u) (width u) false
                                 (fill_color u) (fill_opacity u)))
                    "Line added.")
        | _ => Some u1
        end
      else if String.eqb name "arrow" then
        match staged with
        | [p0; p1] =>
            Some (add_and_reset u1 new
                    (SArrow (LineSeg.init p0 p1 (color u) (width u) false
                               "gray" 1))
                    "Arrow added.")
        | _ => Some u1
        end
      else if String.eqb name "rect" then
        match staged with
        | [p0; p1] =>
            Some (add_and_reset u1 new
                    (SRectShape
                       (RectShape.init p0 p1 (color u) (width u)
                          (fill_enabled u) (fill_color u) (fill_opacity u)
                          0))
                    "Rectangle added.")
        | _ => Some u1
        end
      else if String.eqb name "ellipse" then
        match staged with
        | [p0; p1] =>
            Some (add_and_reset u1 new
                    (SEllipseShape
                       (EllipseShape.init p0 p1 (color u) (width u)
                          (fill_enabled u) (fill_color u) (fill_opacity u)
                          0))
                    "Ellipse added.")
        | _ => Some u1
        end
      else if String.eqb name "circle" then
        match staged with
        | [center; edge] =>
            let r := Py.max 0 (distance center edge) in
            Some (add_and_reset u1 new
                    (SCircleShape
                       (CircleShape.init center r (color u) (width u)
                          (fill_enabled u) (fill_color u) (fill_opacity u)))
                    ("Circle added (r=" ++ fmt r ++ ").")%string)
        | _ => Some u1
        end
      else if String.eqb name "quad" then
        match staged with
        | [p0] =>
            Some (with_core u1
                    (set_status (core u1)
                       ("Quad: start set at " ++ repr_point p0
                        ++ ". Now click end.")%string)
                    staged)
        | [_; _] =>
            Some (with_core u1
                    (set_status (core u1)
                       "Quad: end set. Move mouse to position control, then click to finish.")
                    staged)
        | [p0; p1; c] =>
            Some (add_and_reset u1 new
                    (SQuadBezier
                       (QuadBezier.init p0 p1 c (color u) (width u) false
                          (fill_color u) (fill_opacity u)))
                    "Quadratic Bézier added.")
        | _ => Some u1
        end
      else if String.eqb name "text" then
        Some (add_and_reset u new
                (STextNode
                   (TextNode.init (x, y) (text_value u) (text_size u)
                      (color u)))
                ("Text node added: '" ++ text_value u ++ "'")%string)
      else if String.eqb name "dot" then
        Some (add_and_reset u new
                (SCircleShape
                   (CircleShape.init (x, y) (IZR (width u)) (color u) 1 true
                      (color u) 1))
                "Dot added.")
      else Some u
  end.

(** A run of clicks, each creating, if it creates, the object paired with
    it. *)
Fixpoint click_all (repr_point : Point -> string) (fmt : Fmt) (u : ui)
    (hit : Ref -> bool) (events : list (Ref * (Z * Z))) : option ui :=
  match events with
  | [] => Some u
  | (new, (ex, ey)) :: rest =>
      match on_click repr_point fmt u hit new ex ey with
      | None => None
      | Some u' => click_all repr_point fmt u' hit rest
      end
  end.

End Draw.

Section DrawingTools.

Import TikzDesigner.
Import Cursor.
Import Draw.

Variable repr_point : Point -> string.
Variable fmt : Fmt.

(** The number of clicks a staging tool waits for: the [len(...) == 2] and
    [len(...) == 3] tests of [on_click]. *)
Definition clicks_needed (name : string) : option nat :=
  if String.eqb name "line" then Some 2%nat
  else if String.eqb name "arrow" then Some 2%nat
  else if String.eqb name "rect" then Some 2%nat
  else if String.eqb name "ellipse" then Some 2%nat
  else if String.eqb name "circle" then Some 2%nat
  else if String.eqb name "quad" then Some 3%nat
  else None.

(** The object the two-click tools construct from the two staged points
    and the style variables. *)
Definition two_click_object (u : ui) (name : string) (p q : Point)
    : option Shape :=
  if String.eqb name "line" then
    Some (SLineSeg (LineSeg.init p q (color u) (width u) false
                      (fill_color u) (fill_opacity u)))
  else if String.eqb name "arrow" then
    Some (SArrow (LineSeg.init p q (color u) (width u) false "gray" 1))
  else if String.eqb name "rect" then
    Some (SRectShape (RectShape.init p q (color u) (width u)
                        (fill_enabled u) (fill_color u) (fill_opacity u) 0))
  else if String.eqb name "ellipse" then
    Some (SEllipseShape (EllipseShape.init p q (color u) (width u)
                           (fill_enabled u) (fill_color u) (fill_opacity u)
                           0))
  else if String.eqb name "circle" then
    Some (SCircleShape (CircleShape.init p (Py.max 0 (distance p q))
                          (color u) (width u)
                          (fill_enabled u) (fill_color u) (fill_opacity u)))
  else None.

Lemma add_and_reset_core (u : ui) (new : Ref) (obj : Shape) (msg : string) :
  core (add_and_reset u new obj msg)
    = set_status (commit (core u) new obj) msg /\
  _clicks (add_and_reset u new obj msg) = [].
Proof. split; reflexivity. Qed.

Lemma commit_effect (st : t) (r : Ref) (obj : Shape) :
  shapes (commit st r obj) = shapes st ++ [r] /\
  actions (commit st r obj)
    = actions st ++ [Add r (Z.of_nat (List.length (shapes st)))] /\
  store (commit st r obj) r = obj /\
  selected (commit st r obj) = Some (r, handles obj) /\
  (forall r', r' <> r -> store (commit st r obj) r' = store st r') /\
  tool (commit st r obj) = tool st /\
  snap_enabled (commit st r obj) = snap_enabled st /\
  grid_step (commit st r obj) = grid_step st.
Proof.
  unfold commit, _add_shape.
  cbn [shapes actions store selected tool snap_enabled grid_step
       set_document set_drag].
  rewrite store_set_same. repeat split.
  intros r' Hne. now apply store_set_other.
Qed.

Ltac two_click_cases name Hobj :=
  unfold two_click_object in Hobj;
  destruct (String.eqb_spec name "line") as [->|_];
    [|destruct (String.eqb_spec name "arrow") as [->|_];
      [|destruct (String.eqb_spec name "rect") as [->|_];
        [|destruct (String.eqb_spec name "ellipse") as [->|_];
          [|destruct (String.eqb_spec name "circle") as [->|_];
            [|discriminate Hobj]]]]].

Lemma first_of_two_clicks (u : ui) (name : string) (obj : Shape)
    (hit : Ref -> bool) (new : Ref) (ex ey : Z) (p p' q' : Point) :
  tool (core u) = name ->
  _clicks u = [] ->
  snap_event (core u) ex ey = Some p ->
  two_click_object u name p' q' = Some obj ->
  on_click repr_point fmt u hit new ex ey
    = Some (with_core u (core u) [p]).
Proof.
  intros Ht Hc Hp Hobj. destruct p as [px py].
  two_click_cases name Hobj;
    unfold on_click; rewrite Hp, Ht, Hc; reflexivity.
Qed.

Lemma second_of_two_clicks (u : ui) (name : string) (obj : Shape)
    (hit : Ref -> bool) (new : Ref) (ex ey : Z) (p q : Point) :
  tool (core u) = name ->
  _clicks u = [p] ->
  snap_event (core u) ex ey = Some q ->
  two_click_object u name p q = Some obj ->
  exists msg : string,
    on_click repr_point fmt u hit new ex ey
      = Some (add_and_reset (with_core u (core u) [p; q]) new obj msg).
Proof.
  intros Ht Hc Hq Hobj. destruct q as [qx qy].
  two_click_cases name Hobj; injection Hobj as <-;
    eexists; unfold on_click; rewrite Hq, Ht, Hc; reflexivity.
Qed.

(** X27.  The two-click tools (line, arrow, rectangle, ellipse, circle), from an
    empty staging buffer: the first click stages its snapped point and
    leaves the editor alone; the second click constructs the tool's object
    from the two snapped points and the current style, appends it to the
    document with an [add] record holding its index, selects it, leaves
    every other object alone and empties the buffer. *)
Theorem two_clicks_add_one_shape (u : ui) (name : string) (obj : Shape)
    (hit : Ref -> bool) (n1 n2 : Ref) (ex1 ey1 ex2 ey2 : Z) (p q : Point) :
  tool (core u) = name ->
  _clicks u = [] ->
  snap_event (core u) ex1 ey1 = Some p ->
  snap_event (core u) ex2 ey2 = Some q ->
  two_click_object u name p q = Some obj ->
  exists u1 u2 : ui,
    on_click repr_point fmt u hit n1 ex1 ey1 = Some u1 /\
    core u1 = core u /\ _clicks u1 = [p] /\
    on_click repr_point fmt u1 hit n2 ex2 ey2 = Some u2 /\
    shapes (core u2) = shapes (core u) ++ [n2] /\
    actions (core u2)
      = actions (core u)
        ++ [Add n2 (Z.of_nat (List.length (shapes (core u))))] /\
    store (core u2) n2 = obj /\
    selected (core u2) = Some (n2, handles obj) /\
    (forall r, r <> n2 -> store (core u2) r = store (core u) r) /\
    _clicks u2 = [].
Proof.
  intros Ht Hc Hp Hq Hobj.
  destruct (second_of_two_clicks (with_core u (core u) [p]) name obj hit n2
              ex2 ey2 p q Ht eq_refl Hq Hobj) as (msg & H2).
  destruct (commit_effect (core u) n2 obj)
    as (E1 & E2 & E3 & E4 & E5 & _).
  exists (with_core u (core u) [p]). eexists.
  split; [exact (first_of_two_clicks u name obj hit n1 ex1 ey1 p p q
                   Ht Hc Hp Hobj)|].
  split; [reflexivity|]. split; [reflexivity|].
  split; [exact H2|].
  repeat split; assumption.
Qed.

Lemma surplus_click (u u' : ui) (name : string) (n : nat)
    (hit : Ref -> bool) (new : Ref) (ex ey : Z) :
  tool (core u) = name ->
  clicks_needed name = Some n ->
  (n <= List.length (_clicks u))%nat ->
  on_click repr_point fmt u hit new ex ey = Some u' ->
  core u' = core u /\
  List.length (_clicks u') = S (List.length (_clicks u)).
Proof.
  intros Ht Hn Hlen H. unfold on_click in H.
  destruct (snap_event (core u) ex ey) as [[x y]|]; [|discriminate H].
  rewrite Ht in H. unfold clicks_needed in Hn.
  destruct (String.eqb_spec name "line") as [->|_];
    [|destruct (String.eqb_spec name "arrow") as [->|_];
      [|destruct (String.eqb_spec name "rect") as [->|_];
        [|destruct (String.eqb_spec name "ellipse") as [->|_];
          [|destruct (String.eqb_spec name "circle") as [->|_];
            [|destruct (String.eqb_spec name "quad") as [->|_];
              [|discriminate Hn]]]]]];
    injection Hn as <-;
    cbn [String.eqb Ascii.eqb Bool.eqb] in H;
    destruct (_clicks u) as [|a [|b [|c [|d l]]]];
    cbn [List.length] in Hlen; try lia;
    cbn [app] in H; injection H as <-;
    cbn [core _clicks with_core List.length];
    rewrite ?length_app; cbn [List.length]; split; try reflexivity; lia.
Qed.

(** X28.  A staging buffer that already holds as many points as the tool waits
    for, or more, is never committed: whatever the number of clicks that
    follow, none adds a shape or writes the history, and each only
    lengthens the buffer.  (The buffer survives a change of tool, so this
    state arises when the tool is changed with points staged.) *)
Theorem surplus_clicks_add_nothing (events : list (Ref * (Z * Z)))
    (u u' : ui) (name : string) (n : nat) (hit : Ref -> bool) :
  tool (core u) = name ->
  clicks_needed name = Some n ->
  (n <= List.length (_clicks u))%nat ->
  click_all repr_point fmt u hit events = Some u' ->
  core u' = core u /\
  List.length (_clicks u')
    = (List.length (_clicks u) + List.length events)%nat.
Proof.
  revert u. induction events as [|[new [ex ey]] rest IH];
    intros u Ht Hn Hlen H; cbn [click_all] in H.
  - injection H as <-. split; [reflexivity | cbn; lia].
  - destruct (on_click repr_point fmt u hit new ex ey) as [u1|] eqn:E;
      [|discriminate H].
    destruct (surplus_click u u1 name n hit new ex ey Ht Hn Hlen E)
      as [Hcore Hl].
    destruct (IH u1) as [Hcore' Hl']; try assumption.
    + now rewrite Hcore.
    + lia.
    + split; [congruence|]. rewrite Hl', Hl. cbn [List.length]. lia.
Qed.

Lemma invariant_status (st : t) (msg : string) :
  session_invariant st -> session_invariant (set_status st msg).
Proof.
  intros Hinv.
  apply (invariant_same_document st); try reflexivity; [now left| |exact Hinv].
  apply Hinv.
Qed.

(** X29.  A click, with any tool, keeps what every state of a session
    satisfies, when the object it may create is not in the document: the
    document still holds no shape twice and the selection is still a shape
    of the document. *)
Theorem click_keeps_session (u u' : ui) (hit : Ref -> bool) (new : Ref)
    (ex ey : Z) :
  session_invariant (core u) ->
  ~ In new (shapes (core u)) ->
  on_click repr_point fmt u hit new ex ey = Some u' ->
  session_invariant (core u') /\
  NoDup (shapes (core u')) /\
  (forall r hs, selected (core u') = Some (r, hs) ->
                In r (shapes (core u'))).
Proof.
  intros Hinv Hnew H.
  assert (Hgoal : session_invariant (core u')).
  { unfold on_click in H.
    destruct (snap_event (core u) ex ey) as [[x y]|]; [|discriminate H].
    cbv zeta in H.
    repeat match type of H with
           | context [if ?b then _ else _] => destruct b
           end;
      repeat match type of H with
             | context [match ?l with _ => _ end] => destruct l
             end;
      injection H as <-;
      cbn [core with_core add_and_reset _reset_temp _cancel_temp _clicks];
      first [ exact Hinv
            | apply invariant_cursor_down; exact Hinv
            | apply invariant_status; exact Hinv
            | apply invariant_status, invariant_commit; assumption ]. }
  split; [exact Hgoal|].
  destruct Hgoal as (Hh & Hin & _).
  split; [exact (history_ok_nodup _ _ Hh) | exact Hin].
Qed.

End DrawingTools.

(** The editor as [__init__] leaves it, with the drawing variables at
    their initial values and the given tool chosen. *)
Definition fresh_ui (name : string) : Draw.ui :=
  {| Draw.core :=
       Vars.set_tool
         (TikzDesigner.init (fun _ => SDot (Dot.init (0, 0) 3 "black")))
         name;
     Draw._clicks := [];
     Draw.color := "black"; Draw.width := 2;
     Draw.fill_enabled := false; Draw.fill_color := "gray";
     Draw.fill_opacity := 1;
     Draw.text_value := "Hello"; Draw.text_size := 12 |}.

Lemma snap_event_at (name : string) (ex ey : Z) :
  exists p : Point,
    TikzDesigner.snap_event (Draw.core (fresh_ui name)) ex ey = Some p.
Proof.
  unfold TikzDesigner.snap_event, snap. cbn.
  destruct (Req_dec_T 20 0) as [E|_]; [lra|]. eexists. reflexivity.
Qed.

Lemma two_clicks_add_one_shape_witness :
  exists (p q : Point) (u1 u2 : Draw.ui),
    Draw.on_click (fun _ => EmptyString) (fun _ => EmptyString)
      (fresh_ui "circle") (fun _ => false) 0%nat 0 0 = Some u1 /\
    Draw.on_click (fun _ => EmptyString) (fun _ => EmptyString)
      u1 (fun _ => false) 1%nat 60 80 = Some u2 /\
    TikzDesigner.shapes (Draw.core u2) = [1%nat] /\
    TikzDesigner.store (Draw.core u2) 1%nat
      = SCircleShape
          (CircleShape.init p (Py.max 0 (distance p q)) "black" 2 false
             "gray" 1).
Proof.
  destruct (snap_event_at "circle" 0 0) as [p Hp].
  destruct (snap_event_at "circle" 60 80) as [q Hq].
  destruct (two_clicks_add_one_shape (fun _ => EmptyString)
              (fun _ => EmptyString) (fresh_ui "circle") "circle"
              _ (fun _ => false) 0%nat 1%nat 0 0 60 80 p q
              eq_refl eq_refl Hp Hq eq_refl)
    as (u1 & u2 & H1 & _ & _ & H2 & Hs & _ & Hst & _).
  exists p, q, u1, u2. repeat split; assumption.
Defined.

(** Two points staged with the curve tool, then the line tool chosen: the
    buffer survives the change of tool, and no number of clicks with the
    line tool adds a line. *)
Definition stale_staging : Draw.ui :=
  {| Draw.core :=
       Vars.set_snap
         (Vars.set_tool
            (TikzDesigner.init (fun _ => SDot (Dot.init (0, 0) 3 "black")))
            "line")
         false;
     Draw._clicks := [(0, 0); (20, 20)];
     Draw.color := "black"; Draw.width := 2;
     Draw.fill_enabled := false; Draw.fill_color := "gray";
     Draw.fill_opacity := 1;
     Draw.text_value := "Hello"; Draw.text_size := 12 |}.

Lemma surplus_clicks_add_nothing_witness :
  exists u' : Draw.ui,
    Draw.click_all (fun _ => EmptyString) (fun _ => EmptyString)
      stale_staging (fun _ => false)
      [(7%nat, (40, 40)%Z); (8%nat, (60, 60)%Z)] = Some u' /\
    Draw.core u' = Draw.core stale_staging /\
    List.length (Draw._clicks u') = 4%nat.
Proof.
  eexists. split; [reflexivity|].
  exact (surplus_clicks_add_nothing (fun _ => EmptyString)
           (fun _ => EmptyString)
           [(7%nat, (40, 40)%Z); (8%nat, (60, 60)%Z)]
           stale_staging _ "line" 2 (fun _ => false)
           eq_refl eq_refl (le_n 2) eq_refl).
Defined.

(** The dot tool chosen and snapping off, nothing drawn yet. *)
Definition dot_ui : Draw.ui :=
  {| Draw.core :=
       Vars.set_snap
         (Vars.set_tool
            (TikzDesigner.init (fun _ => SDot (Dot.init (0, 0) 3 "black")))
            "dot")
         false;
     Draw._clicks := [];
     Draw.color := "black"; Draw.width := 2;
     Draw.fill_enabled := false; Draw.fill_color := "gray";
     Draw.fill_opacity := 1;
     Draw.text_value := "Hello"; Draw.text_size := 12 |}.

Lemma click_keeps_session_witness :
  exists u' : Draw.ui,
    Draw.on_click (fun _ => EmptyString) (fun _ => EmptyString)
      dot_ui (fun _ => false) 0%nat 30 40 = Some u' /\
    NoDup (TikzDesigner.shapes (Draw.core u')).
Proof.
  eexists. split; [reflexivity|].
  refine (proj1 (proj2 (click_keeps_session (fun _ => EmptyString)
                          (fun _ => EmptyString) dot_ui _ (fun _ => false)
                          0%nat 30 40 _ _ eq_refl))).
  - apply (session_keeps_invariant
             (fun _ => SDot (Dot.init (0, 0) 3 "black"))).
    apply reach_set_snap, reach_set_tool, reach_init.
  - simpl. tauto.
Defined.

(** * The export of a text node *)

Module TextTikz.

(** [s.replace(old, new)] for a pattern [old] of one character. *)
Fixpoint replace_char (old : ascii) (new : string) (s : string) : string :=
  match s with
  | EmptyString => EmptyString
  | String c rest =>
      if Ascii.eqb c old
      then (new ++ replace_char old new rest)%string
      else String c (replace_char old new rest)
  end.

(** [self.text.replace('\\', '\\\\').replace('%', '\\%')]: every backslash
    is doubled, then every percent sign gets a backslash in front. *)
Definition escape (text : string) : string :=
  replace_char "%" "\%" (replace_char "\" "\\" text).

Definition to_tikz (fmt : Fmt) (s : TextNode.t) : string :=
  let '(x, y) := TextNode.pos s in
  let t := escape (TextNode.text s) in
  ("\node[draw=none] at (" ++ fmt x ++ "," ++ fmt y ++ ") {" ++ t ++ "};")%string.

End TextTikz.

Section TextEscaping.

Import TextTikz.

(** Read an escaped text back: a backslash stands for the character after
    it. *)
Fixpoint unescape (s : string) : string :=
  match s with
  | EmptyString => EmptyString
  | String c rest =>
      if Ascii.eqb c "\" then
        match rest with
        | EmptyString => String c EmptyString
        | String c' rest' => String c' (unescape rest')
        end
      else String c (unescape rest)
  end.

(** No percent sign stands unescaped, and every backslash is followed by a
    backslash or a percent sign. *)
Fixpoint well_escaped (s : string) : bool :=
  match s with
  | EmptyString => true
  | String c rest =>
      if Ascii.eqb c "\" then
        match rest with
        | EmptyString => false
        | String c' rest' =>
            (Ascii.eqb c' "\" || Ascii.eqb c' "%") && well_escaped rest'
        end
      else if Ascii.eqb c "%" then false
      else well_escaped rest
  end.

(** The two passes of [escape] as one pass over the characters. *)
Fixpoint escape_chars (s : string) : string :=
  match s with
  | EmptyString => EmptyString
  | String c rest =>
      if Ascii.eqb c "\" then String "\" (String "\" (escape_chars rest))
      else if Ascii.eqb c "%" then String "\" (String "%" (escape_chars rest))
      else String c (escape_chars rest)
  end.

Lemma escape_one_pass (s : string) : escape s = escape_chars s.
Proof.
  unfold escape. induction s as [|c rest IH]; [reflexivity|].
  cbn [replace_char escape_chars].
  destruct (Ascii.eqb_spec c "\") as [->|Hb].
  - cbn. now rewrite IH.
  - cbn [replace_char]. destruct (Ascii.eqb c "%"); cbn; now rewrite IH.
Qed.

Lemma unescape_escape_chars (s : string) : unescape (escape_chars s) = s.
Proof.
  induction s as [|c rest IH]; [reflexivity|].
  cbn [escape_chars].
  destruct (Ascii.eqb_spec c "\") as [->|Hb].
  - cbn. now rewrite IH.
  - destruct (Ascii.eqb_spec c "%") as [->|Hp].
    + cbn. now rewrite IH.
    + cbn [unescape]. destruct (Ascii.eqb_spec c "\"); [contradiction|].
      now rewrite IH.
Qed.

Lemma escape_chars_well_escaped (s : string) :
  well_escaped (escape_chars s) = true.
Proof.
  induction s as [|c rest IH]; [reflexivity|].
  cbn [escape_chars].
  destruct (Ascii.eqb_spec c "\") as [->|Hb]; [cbn; exact IH|].
  destruct (Ascii.eqb_spec c "%") as [->|Hp]; [cbn; exact IH|].
  cbn [well_escaped].
  destruct (Ascii.eqb_spec c "\"); [contradiction|].
  destruct (Ascii.eqb_spec c "%"); [contradiction|]. exact IH.
Qed.

(** X14.  The escaping of a text node's text loses nothing and leaves no bare
    percent sign: the text can be read back from its escaped form, so two
    different texts are exported differently; in the escaped form every
    percent sign follows a backslash and every backslash is followed by a
    backslash or a percent sign. *)
Theorem text_escape_reversible (text : string) :
  unescape (escape text) = text /\
  well_escaped (escape text) = true /\
  (forall text' : string, escape text = escape text' -> text = text').
Proof.
  split; [|split].
  - rewrite escape_one_pass. apply unescape_escape_chars.
  - rewrite escape_one_pass. apply escape_chars_well_escaped.
  - intros text' H. rewrite !escape_one_pass in H.
    rewrite <- (unescape_escape_chars text), H.
    apply unescape_escape_chars.
Qed.

(** The text of the scenario "50% \ done". *)
Example escape_percent_and_backslash :
  escape "50% \ done" = "50\% \\ done"%string.
Proof. reflexivity. Qed.

End TextEscaping.

Section RotateOthers.

Import TikzDesigner.

(** The state [st] in the middle of a rotate drag about (5, 0) that
    started with the pointer at angle 0. *)
Definition set_cursor_rotate (st : t) : t :=
  Cursor.set_cursor st (selected st) (Some "rotate"%string)
    (_active_handle st) (_drag_start st) (Some 0) (Some (5, 0))
    (status st).

(** X17.  In rotate mode, a frame on a shape that is neither a rectangle nor an
    ellipse calls [rotate_to(0)] and then [rotate_by(d)].  A line, an arrow
    or a curve turns by the frame's delta once; a circle, a dot and a text
    node stay as they are; an arc loses its start angle, which becomes the
    delta modulo 360, while its span is carried over. *)
Theorem rotate_frame_other_classes (st : t) (ex ey : Z) (r : Ref)
    (hs : list Handle) (cx cy base x y : R) :
  tool st = "cursor"%string ->
  selected st = Some (r, hs) ->
  _cursor_mode st = Some "rotate"%string ->
  _rotate_center st = Some (cx, cy) ->
  _rotate_base_angle st = Some base ->
  snap_event st ex ey = Some (x, y) ->
  is_rect_or_ellipse (store st r) = false ->
  let d := Py.degrees (Py.atan2 (y - cy) (x - cx)) - base in
  exists st' : t,
    on_drag st ex ey = Some st' /\
    store st' r = rotate_by (rotate_to (store st r) 0) d /\
    match store st r with
    | SLineSeg s => store st' r = SLineSeg (LineSeg.rotate_by s d)
    | SArrow s => store st' r = SArrow (LineSeg.rotate_by s d)
    | SQuadBezier s => store st' r = SQuadBezier (QuadBezier.rotate_by s d)
    | SCircleShape _ | SDot _ | STextNode _ => store st' r = store st r
    | SArcShape s =>
        exists s',
          store st' r = SArcShape s' /\
          ArcShape.start_angle s' = Py.mod_ d 360 /\
          ArcShape.end_angle s'
            = Py.mod_ (ArcShape.end_angle s - ArcShape.start_angle s + d)
                360 /\
          ArcShape.center s' = ArcShape.center s /\
          ArcShape.radius s' = ArcShape.radius s
    | SRectShape _ | SEllipseShape _ => False
    end.
Proof.
  intros Ht Hsel Hmode Hc Hb Hsnap Hre d.
  pose proof (rotate_frame st ex ey r hs cx cy base x y
                Ht Hsel Hmode Hc Hb Hsnap) as Hframe.
  cbv zeta in Hframe. rewrite Hre in Hframe. fold d in Hframe.
  eexists. split; [exact Hframe|].
  cbn [store set_drag]. rewrite store_set_same.
  split; [reflexivity|].
  destruct (store st r) as [s|s|s|s|s|s|s|s|s]; try discriminate Hre;
    try reflexivity.
  eexists. split; [reflexivity|].
  destruct s as [ctr rad sa ea col wid fe fc fo].
  open_methods. repeat split.
  - rewrite mod_mod_add by lra. f_equal. lra.
  - rewrite mod_mod_add by lra.
    replace (ea + Py.mod_ (0 - sa) 360 + d)
      with (Py.mod_ (0 - sa) 360 + (ea + d)) by lra.
    rewrite mod_mod_add by lra. f_equal. lra.
Qed.

Lemma rotate_frame_other_classes_witness :
  exists st' : t,
    on_drag
      (set_cursor_rotate moving_line) 5 15 = Some st' /\
    store st' 0%nat
      = rotate_by (rotate_to (store moving_line 0%nat) 0)
          (Py.degrees (Py.atan2 (IZR 15 - 0) (IZR 5 - 5)) - 0).
Proof.
  destruct (rotate_frame_other_classes (set_cursor_rotate moving_line)
              5 15 0%nat (handles (store moving_line 0%nat)) 5 0 0
              (IZR 5) (IZR 15)
              eq_refl eq_refl eq_refl eq_refl eq_refl eq_refl eq_refl)
    as (st' & H1 & H2 & _).
  exists st'. split; [exact H1 | exact H2].
Defined.

End RotateOthers.
